(** * Smart task scheduler: planner, reviewer, collector and runner

    A shallow embedding of the agents of the scheduler
    (src/agents/planner-agent.js, src/agents/agent-runner.js,
    src/agents/utils/ai-service.js, utils/database.js, the reviewer and the
    collector agents) and the properties of its specification.

    Conventions of the embedding.
    - A time field of a task or of a resolution comes from a reply of the
      model or from the program: it is missing ([undefined]) or it holds a
      string, which is kept with the time value that [new Date] reads from
      it ([Js.TimeValue]). A [Date] is its time value, the number of
      milliseconds since the epoch, an integer ([Z]), or Invalid Date; time
      values are not bounded.
    - The time stamps that the program writes with
      [new Date().toISOString()] and reads back itself (the state keys
      [last_planning_time] and [last_collection_time], [lastRun]) are
      represented by their time value.
    - JavaScript numbers that carry rates and confidences are rationals
      ([Q]); the comparisons of the source against the literals 0.7, 0.9, 2
      and 20 are comparisons of rationals.
    - A field of an object that is read from JSON has the type that the
      prompt or the writer of the object gives it; it is optional where the
      program behaves differently without it (the schedule and the
      conflicts of a plan, the times of a task, the type and the tasks of a
      conflict, the confidence of a resolution).
    - The tables of utils/database.js (its text is in
      src/agents/executor-agent.js, lines 378 to 497) are lists of rows, in
      the order of insertion; the columns [id], [execution_time],
      [created_at] and [updated_at], which SQLite fills in, are left out.
      The keys of [system_state] and [learning_data] that an agent uses are
      fields of the record that stands for the store of that agent.
    - The AI oracle, [JSON.parse] and the agents' [execute] bodies are
      arguments. *)

From Stdlib Require Import ZArith QArith Qround Lqa Lia Ascii String.
From Stdlib Require Import Sorted Permutation.
From stdpp Require Import base option list strings gmap pretty.

Open Scope Z_scope.

(** ** Values of the program *)

Module Js.

(** How a call settles: it returns a value or throws an error. *)
Inductive Completion (A : Type) :=
| Return (value : A)
| Throw (message : string).
Arguments Return {A} value.
Arguments Throw {A} message.

(** A statement that follows a call: an error of the call is thrown on. *)
#[export] Instance Completion_bind : MBind Completion :=
  fun A B (k : A -> Completion B) (c : Completion A) =>
    match c with
    | Return value => k value
    | Throw message => Throw message
    end.

(** The value of a time field ([startTime], [endTime], [originalTime],
    [newTime]): [undefined] when the field is missing, or a string.
    [ISOString t] is the string that [toISOString] writes for the time value
    [t], as "2024-01-01T09:00:00.000Z". [Text text date] is any other
    string, [date] being the time value that [new Date(text)] has ([None]
    when the string is not a date), as "2024-01-01T09:00:00Z", which the
    prompts give as an example and which has no milliseconds. *)
Inductive TimeValue :=
| undefined
| ISOString (t : Z)
| Text (text : string) (date : option Z).

(** A [Date]: its time value, [None] for Invalid Date. *)
Definition Date : Type := option Z.

(** [new Date(value)] *)
Definition newDate (value : TimeValue) : Date :=
  match value with
  | undefined => None
  | ISOString t => Some t
  | Text _ date => date
  end.

(** [a === b]: both are missing, or both are the same string. *)
Definition strictEquals (a b : TimeValue) : bool :=
  match a, b with
  | undefined, undefined => true
  | ISOString t, ISOString t' => t =? t'
  | Text text _, Text text' _ => String.eqb text text'
  | _, _ => false
  end.

(** [date.toISOString()], which throws a [RangeError] on Invalid Date. *)
Definition toISOString (date : Date) : Completion TimeValue :=
  match date with
  | Some t => Return (ISOString t)
  | None => Throw "Invalid time value"
  end.

(** [a - b] on dates: a number of milliseconds, [None] for [NaN]. *)
Definition minus (a b : Date) : option Z :=
  match a, b with
  | Some ta, Some tb => Some (ta - tb)
  | _, _ => None
  end.

(** [new Date(date.getTime() + ms)] *)
Definition plus (date : Date) (ms : option Z) : Date :=
  match date, ms with
  | Some t, Some d => Some (t + d)
  | _, _ => None
  end.

End Js.

(** ** date-fns *)

Module DateFns.

Import Js.

Definition millisecondsInHour : Z := 3600000.

(** The [Date] constructor keeps the integral part of a time value. *)
Definition timeClip (t : Q) : Z :=
  if Qlt_le_dec t 0 then Qceiling t else Qfloor t.

(** Modelled from the spec: date-fns is a dependency, not among the
    sources. [addHours(date, amount)] adds the amount of hours, a fraction
    of an hour included, so that [addHours(end, 15 / 60)] is the 15-minute
    buffer of the specification; this is
    [addMilliseconds(date, amount * millisecondsInHour)], that is
    [new Date(+date + amount * millisecondsInHour)], of date-fns 3 and
    later, where the amount is not rounded to a whole number of hours. Of
    Invalid Date it is Invalid Date. *)
Definition addHours (date : Date) (amount : Q) : Date :=
  match date with
  | Some t => Some (timeClip (inject_Z t + amount * inject_Z millisecondsInHour)%Q)
  | None => None
  end.

(** [isBefore(date, dateToCompare)] is [+date < +dateToCompare], false when
    one of the two is Invalid Date. *)
Definition isBefore (date dateToCompare : Date) : bool :=
  match date, dateToCompare with
  | Some t, Some t' => t <? t'
  | _, _ => false
  end.

End DateFns.

(** ** Arrays *)

Module JsArray.

(** [Array.prototype.sort(compareFn)] is stable, and [compareFn(a, b) > 0]
    puts [b] before [a]. For a comparator that compares keys the sorted
    array is the one that insertion builds: an element goes before the
    first element that it need not follow. *)
Fixpoint insertSorted {A} (compareFn : A -> A -> Q) (x : A) (sorted : list A)
    : list A :=
  match sorted with
  | [] => [x]
  | y :: rest =>
      if Qle_bool (compareFn x y) 0 then x :: y :: rest
      else y :: insertSorted compareFn x rest
  end.

Definition sort {A} (compareFn : A -> A -> Q) (l : list A) : list A :=
  foldr (insertSorted compareFn) [] l.

(** [array.slice(0, n)] *)
Definition slice0 {A} (n : nat) (l : list A) : list A := take n l.

End JsArray.

(** ** Maps *)

Module JsMap.

(** A [Map] with string keys: its entries in the order of their first
    insertion. *)
Section Entries.

Context {V : Type}.

(** [map.set(key, value)]: the value of a key that is there is replaced,
    where it stands; a new key goes last. *)
Fixpoint set (key : string) (value : V) (map : list (string * V))
    : list (string * V) :=
  match map with
  | [] => [(key, value)]
  | (k, v) :: rest =>
      if String.eqb k key then (k, value) :: rest
      else (k, v) :: set key value rest
  end.

(** [map.get(key)], [None] for [undefined]. *)
Fixpoint get (key : string) (map : list (string * V)) : option V :=
  match map with
  | [] => None
  | (k, v) :: rest => if String.eqb k key then Some v else get key rest
  end.

(** [Array.from(map.values())] *)
Definition values (map : list (string * V)) : list V := List.map snd map.

End Entries.

End JsMap.

(** ** planner-agent.js *)

Module Planner.

Export Js.

(** A task of a schedule, as the prompt of the planner asks for it. *)
Record ScheduleEntry := {
  taskId : string;
  title : string;
  startTime : TimeValue;
  endTime : TimeValue;
  priority : string;
  reason : string
}.

Definition bufferMinutes : Q := 15.

(** The body of the [for] loop of [addBufferTime]: [i] is the loop index,
    [bufferedSchedule] the array built so far, [task] the copy of
    [schedule[i]]. The array has [i] entries when the body runs, so that
    [bufferedSchedule[i - 1]] is there for [0 < i]. The comparison is false
    when the start of the task or the end of the previous task is not a
    date, and the task is then left as it is; [toISOString] throws when the
    task is moved and its end is not a date. *)
Definition addBufferTime_body (i : nat) (bufferedSchedule : list ScheduleEntry)
    (task : ScheduleEntry) : Completion ScheduleEntry :=
  if (0 <? i)%nat then
    match bufferedSchedule !! (i - 1)%nat with
    | Some prevTask =>
        let prevEndTime := newDate (endTime prevTask) in
        let bufferEndTime := DateFns.addHours prevEndTime (bufferMinutes / 60) in
        let currentStartTime := newDate (startTime task) in
        if DateFns.isBefore currentStartTime bufferEndTime then
          let duration := minus (newDate (endTime task)) (newDate (startTime task)) in
          newStartTime ← toISOString bufferEndTime;
          newEndTime ← toISOString (plus bufferEndTime duration);
          Return {| taskId := taskId task; title := title task;
                    startTime := newStartTime;
                    endTime := newEndTime;
                    priority := priority task; reason := reason task |}
        else Return task
    | None => Return task
    end
  else Return task.

Fixpoint addBufferTime_loop (i : nat) (bufferedSchedule : list ScheduleEntry)
    (schedule : list ScheduleEntry) : Completion (list ScheduleEntry) :=
  match schedule with
  | [] => Return bufferedSchedule
  | task :: rest =>
      task ← addBufferTime_body i bufferedSchedule task;
      addBufferTime_loop (S i) (bufferedSchedule ++ [task]) rest
  end.

Definition addBufferTime (schedule : list ScheduleEntry)
    : Completion (list ScheduleEntry) :=
  addBufferTime_loop 0 [] schedule.


(** *** Conflict resolution *)

(** A conflict, as the prompt of the planner asks for it; [None] for a key
    that the reply does not have. *)
Record Conflict := {
  type : option string;
  tasks : option (list string);
  severity : string
}.

(** What [aiService.analyzeConflict] hands back when it is not [null].
    [originalTime] and [newTime] are [undefined] and [confidence] is [None]
    when the reply has no such key (a comparison of numbers with
    [undefined] is false). *)
Record Resolution := {
  resolution : string;
  originalTime : TimeValue;
  newTime : TimeValue;
  resolutionReason : string;
  confidence : option Q
}.

(** What [aiService.generateTaskPlan] hands back; [None] for a key that the
    reply does not have. *)
Record AiPlan := {
  schedule : option (list ScheduleEntry);
  conflicts_detected : option (list Conflict);
  recommendations : option (list string)
}.

(** Items of the calendar, tracker and weather services are opaque here. *)
Record LatestData := {
  notionTasks : list string;
  calendarEvents : list string;
  weatherData : option string
}.

Record ConflictData := {
  cd_conflict : Conflict;
  cd_schedule : list ScheduleEntry;
  cd_calendarEvents : list string;
  cd_weatherData : option string
}.

Record ResolvedConflict := {
  originalConflict : Conflict;
  rc_resolution : option Resolution;
  applied : bool
}.

(** A row of the table [conflict_resolutions] (utils/database.js, in
    src/agents/executor-agent.js, lines 418 to 428); the value of the
    column [original_time] is [JSON.stringify(conflict)], kept as the
    conflict itself. *)
Record ConflictResolutionRow := {
  row_taskId : string;
  row_conflictType : string;
  row_original : Conflict;
  row_resolvedTime : TimeValue;
  row_reason : string
}.

(** [database.saveConflictResolution] (utils/database.js, in
    src/agents/executor-agent.js, lines 465 to 470):
    [INSERT INTO conflict_resolutions (task_id, conflict_type,
    original_time, resolved_time, reason) VALUES (?, ?, ?, ?, ?)]. The
    columns [task_id] and [conflict_type] are [NOT NULL]: the insertion
    fails, and the call throws, when one of the two values is missing. *)
Definition saveConflictResolution (taskId conflictType : option string)
    (originalTime : Conflict) (resolvedTime : TimeValue) (reason : string)
    (conflict_resolutions : list ConflictResolutionRow)
    : Completion (list ConflictResolutionRow) :=
  match taskId, conflictType with
  | Some taskId, Some conflictType =>
      Return (conflict_resolutions ++
              [ {| row_taskId := taskId; row_conflictType := conflictType;
                   row_original := originalTime; row_resolvedTime := resolvedTime;
                   row_reason := reason |} ])
  | None, _ =>
      Throw "SQLITE_CONSTRAINT: NOT NULL constraint failed: conflict_resolutions.task_id"
  | Some _, None =>
      Throw "SQLITE_CONSTRAINT: NOT NULL constraint failed: conflict_resolutions.conflict_type"
  end.

Definition conflictThreshold : Q := 0.7.

(** [x > y] on numbers. *)
Definition Qgtb (x y : Q) : bool :=
  match (x ?= y)%Q with Gt => true | _ => false end.

(** [x < y] on numbers. *)
Definition Qltb (x y : Q) : bool :=
  match (x ?= y)%Q with Lt => true | _ => false end.

Fixpoint findIndex {A} (p : A -> bool) (l : list A) : option nat :=
  match l with
  | [] => None
  | x :: l' => if p x then Some 0%nat else S <$> findIndex p l'
  end.

(** [applyConflictResolution]. [task.startTime === resolution.originalTime]
    compares two strings, or finds both missing. The new start is the value
    of [resolution.newTime] as it is; the new end is written by
    [toISOString], which throws when the new time, the start or the end of
    the task is not a date. The source changes the task in place, in an
    array that is a copy of [schedule]; the caller reads the array that is
    returned, and the function that is left by an error returns none. *)
Definition applyConflictResolution (schedule : list ScheduleEntry)
    (r : Resolution) : Completion (list ScheduleEntry) :=
  let updatedSchedule := schedule in
  if String.eqb (resolution r) "move_task" then
    let taskIndex :=
      findIndex (fun task => strictEquals (startTime task) (originalTime r))
        updatedSchedule in
    match taskIndex with
    | Some taskIndex =>
        match updatedSchedule !! taskIndex with
        | Some task =>
            let originalDuration :=
              minus (newDate (endTime task)) (newDate (startTime task)) in
            newEndTime ← toISOString (plus (newDate (newTime r)) originalDuration);
            Return (<[ taskIndex :=
                       {| taskId := taskId task; title := title task;
                          startTime := newTime r;
                          endTime := newEndTime;
                          priority := priority task;
                          reason := "Moved due to conflict: " +:+ resolutionReason r |} ]>
                      updatedSchedule)
        | None => Return updatedSchedule
        end
    | None => Return updatedSchedule
    end
  else if String.eqb (resolution r) "split_task" then Return updatedSchedule
  else if String.eqb (resolution r) "reschedule_event" then Return updatedSchedule
  else Return updatedSchedule.

(** [conflict.tasks?.join(',') || 'unknown'] *)
Definition conflictTaskRef (conflict : Conflict) : string :=
  match tasks conflict with
  | Some ts =>
      let joined := String.concat "," ts in
      if String.eqb joined EmptyString then "unknown" else joined
  | None => "unknown"
  end.

(** The variables of the loop of [resolveConflicts]; at its end they are
    the [schedule] and the [conflicts] of the object that is returned. *)
Record ResolveState := {
  updatedSchedule : list ScheduleEntry;
  resolvedConflicts : list ResolvedConflict
}.

(** The variables when the loop starts: [updatedSchedule] is
    [[...aiPlan.schedule]], a [TypeError] when the plan has no schedule. *)
Definition entering (aiPlan : AiPlan) : Completion ResolveState :=
  match schedule aiPlan with
  | Some schedule =>
      Return {| updatedSchedule := schedule; resolvedConflicts := [] |}
  | None => Throw "aiPlan.schedule is not iterable"
  end.

Section ResolveConflicts.

(** [aiService.analyzeConflict]: the oracle's answer to the [n]-th
    question of a run ([null] is [None]). *)
Variable analyzeConflict : nat -> ConflictData -> option Resolution.

Variable latestData : LatestData.

(** The test [resolution && resolution.confidence > this.conflictThreshold]:
    the resolution when the test passes. *)
Definition confident (res : option Resolution) : option Resolution :=
  match res with
  | Some r =>
      match confidence r with
      | Some c => if Qgtb c conflictThreshold then Some r else None
      | None => None
      end
  | None => None
  end.

(** One iteration of [for (const conflict of conflicts)], on the table
    [conflict_resolutions] of the store: how the iteration settles, and the
    table then. An error leaves the loop and the function. *)
Definition resolveConflicts_body (st : ResolveState) (conflict : Conflict)
    (conflict_resolutions : list ConflictResolutionRow)
    : Completion ResolveState * list ConflictResolutionRow :=
  let res :=
    analyzeConflict (length (resolvedConflicts st))
      {| cd_conflict := conflict;
         cd_schedule := updatedSchedule st;
         cd_calendarEvents := calendarEvents latestData;
         cd_weatherData := weatherData latestData |} in
  match confident res with
  | Some r =>
      match applyConflictResolution (updatedSchedule st) r with
      | Return updated =>
          match
            saveConflictResolution (Some (conflictTaskRef conflict)) (type conflict)
              conflict (newTime r) (resolutionReason r) conflict_resolutions
          with
          | Return saved =>
              (Return
                 {| updatedSchedule := updated;
                    resolvedConflicts :=
                      resolvedConflicts st ++
                      [ {| originalConflict := conflict; rc_resolution := Some r;
                           applied := true |} ] |},
               saved)
          | Throw message => (Throw message, conflict_resolutions)
          end
      | Throw message => (Throw message, conflict_resolutions)
      end
  | None =>
      (Return
         {| updatedSchedule := updatedSchedule st;
            resolvedConflicts :=
              resolvedConflicts st ++
              [ {| originalConflict := conflict; rc_resolution := None;
                   applied := false |} ] |},
       conflict_resolutions)
  end.

Fixpoint resolveConflicts_from (st : ResolveState) (conflicts : list Conflict)
    (conflict_resolutions : list ConflictResolutionRow)
    : Completion ResolveState * list ConflictResolutionRow :=
  match conflicts with
  | [] => (Return st, conflict_resolutions)
  | conflict :: rest =>
      match resolveConflicts_body st conflict conflict_resolutions with
      | (Return st, conflict_resolutions) =>
          resolveConflicts_from st rest conflict_resolutions
      | (Throw message, conflict_resolutions) =>
          (Throw message, conflict_resolutions)
      end
  end.

(** [resolveConflicts(aiPlan, latestData)], run on a store whose table of
    resolutions is [conflict_resolutions]: the [{schedule, conflicts}] that
    it returns, or the error that it throws, and the table then. *)
Definition resolveConflicts (aiPlan : AiPlan)
    (conflict_resolutions : list ConflictResolutionRow)
    : Completion ResolveState * list ConflictResolutionRow :=
  let conflicts := default [] (conflicts_detected aiPlan) in
  match entering aiPlan with
  | Return st => resolveConflicts_from st conflicts conflict_resolutions
  | Throw message => (Throw message, conflict_resolutions)
  end.

End ResolveConflicts.

(** *** Freshness of the latest plan *)

(** [isPlanFresh], at time [now], [lastPlanning] being the value of the
    state key [last_planning_time] ([None] when nothing is stored). *)
Definition isPlanFresh (now : Z) (lastPlanning : option Z) : bool :=
  match lastPlanning with
  | None => false
  | Some lastTime =>
      let diffHours := (inject_Z (now - lastTime) / inject_Z (1000 * 60 * 60))%Q in
      Qltb diffHours 2
  end.

End Planner.

(** ** utils/ai-service.js *)

Module AIService.

Import Planner.

Definition lbrace : ascii := "{"%char.
Definition rbrace : ascii := "}"%char.

(** The longest prefix of [s] that ends with a closing brace. *)
Fixpoint uptoLastBrace (s : string) : option string :=
  match s with
  | EmptyString => None
  | String c rest =>
      match uptoLastBrace rest with
      | Some m => Some (String c m)
      | None => if Ascii.eqb c rbrace then Some (String c EmptyString) else None
      end
  end.

(** [text.match(/\{[\s\S]*\}/)]: the match starts at the first opening
    brace that has a closing brace after it and, the star being greedy,
    runs to the last closing brace of the text. *)
Fixpoint matchBraces (text : string) : option string :=
  match text with
  | EmptyString => None
  | String c rest =>
      if Ascii.eqb c lbrace then
        match uptoLastBrace rest with
        | Some m => Some (String c m)
        | None => matchBraces rest
        end
      else matchBraces rest
  end.

Definition fallbackPlan (recommendation : string) : AiPlan :=
  {| schedule := Some []; conflicts_detected := Some [];
     recommendations := Some [recommendation] |}.

Section Parse.

(** [JSON.parse], [None] when it throws a [SyntaxError]. *)
Variable JSON_parse : string -> option AiPlan.

Definition parsePlanningResponse (text : string) : AiPlan :=
  match matchBraces text with
  | Some jsonMatch =>
      match JSON_parse jsonMatch with
      | Some plan => plan
      | None => fallbackPlan "Error parsing AI response"
      end
  | None => fallbackPlan "Failed to parse AI response"
  end.

(** [generateTaskPlan]; [reply] is how
    [this.model.generateContent(prompt)] followed by [response.text()]
    settles: with the text, or with an error when the service cannot be
    reached or refuses. *)
Definition generateTaskPlan (reply : Completion string) : Completion AiPlan :=
  match reply with
  | Return text => Return (parsePlanningResponse text)
  | Throw _ => Throw "Failed to generate AI plan"
  end.

End Parse.

Section ParseConflict.

(** [JSON.parse] of a reply on a conflict, [None] when it throws. *)
Variable JSON_parse : string -> option Resolution.

Definition parseConflictResponse (text : string) : option Resolution :=
  match matchBraces text with
  | Some jsonMatch => JSON_parse jsonMatch
  | None => None
  end.

(** [analyzeConflict]; [reply] is how the call to the model settles. *)
Definition analyzeConflict (reply : Completion string) : option Resolution :=
  match reply with
  | Return text => parseConflictResponse text
  | Throw _ => None
  end.

End ParseConflict.

End AIService.

(** ** The reviewer agent (src/unnamed/part_000) *)

Module Reviewer.

Import Planner.

(** A task as [formatTaskForAnalysis] builds it; [ref] is the identity of
    the object, which [Array.prototype.includes] compares. *)
Record AnalysisTask := {
  ref : nat;
  task_id : string;
  task_title : string;
  task_status : string;
  task_priority : string
}.

Record TimeUsage := {
  averageDuration : Q;
  productiveHours : list string
}.

Record PerformanceMetrics := {
  completionRate : Q
}.

Record PerformanceData := {
  completedTasks : list AnalysisTask;
  missedTasks : list AnalysisTask;
  timeUsage : TimeUsage;
  metrics : PerformanceMetrics
}.

Record PriorityStat := {
  completed : Z;
  total : Z
}.

Definition includes (l : list AnalysisTask) (task : AnalysisTask) : bool :=
  existsb (fun t => Nat.eqb (ref t) (ref task)) l.

(** A number in a condition: [0] is false. *)
Definition truthy (x : Q) : bool := negb (Qeq_bool x 0).

(** The callback of [[...completedTasks, ...missedTasks].forEach]. *)
Definition countTask (completedTasks : list AnalysisTask)
    (priorityStats : gmap string PriorityStat) (task : AnalysisTask)
    : gmap string PriorityStat :=
  let priority := task_priority task in
  let stats := default {| completed := 0; total := 0 |} (priorityStats !! priority) in
  let stats := {| completed := completed stats; total := total stats + 1 |} in
  let stats :=
    if includes completedTasks task
    then {| completed := completed stats + 1; total := total stats |}
    else stats in
  <[ priority := stats ]> priorityStats.

Definition newRate (stats : PriorityStat) : Q :=
  (inject_Z (completed stats) / inject_Z (total stats))%Q.

(** The callback of [Object.keys(priorityStats).forEach]. *)
Definition blendRate (priority : string) (stats : PriorityStat)
    (updated : gmap string Q) : gmap string Q :=
  match updated !! priority with
  | Some previous =>
      if truthy previous
      then <[ priority := (previous * 0.7 + newRate stats * 0.3)%Q ]> updated
      else <[ priority := newRate stats ]> updated
  | None => <[ priority := newRate stats ]> updated
  end.

Definition priorityStatsOf (performanceData : PerformanceData)
    : gmap string PriorityStat :=
  fold_left (countTask (completedTasks performanceData))
    (completedTasks performanceData ++ missedTasks performanceData) ∅.

(** [updateCompletionRates(current = {}, performanceData)] *)
Definition updateCompletionRates (current : option (gmap string Q))
    (performanceData : PerformanceData) : gmap string Q :=
  let current := default ∅ current in
  map_fold blendRate current (priorityStatsOf performanceData).

(** *** Preferences *)

Record UserPreferences := {
  maxDailyTasks : option Z;
  peakProductivityHours : option (list string);
  preferredTaskDuration : option Z;
  lastAdapted : option Z
}.

Definition noPreferences : UserPreferences :=
  {| maxDailyTasks := None; peakProductivityHours := None;
     preferredTaskDuration := None; lastAdapted := None |}.

(** A key of [adaptations]: present or not. *)
Definition present {A} (field : option A) : bool :=
  match field with Some _ => true | None => false end.

(** [{...currentPrefs, ...adaptations}] at one key. *)
Definition spread {A} (currentField adaptation : option A) : option A :=
  match adaptation with Some v => Some v | None => currentField end.

(** [Math.round] *)
Definition Math_round (x : Q) : Z := Qfloor (x + (1 # 2))%Q.

(** The field [maxDailyTasks] of [adaptations]; a comparison with an unset
    value is false and [m || 8] is 8 when [m] is 0. *)
Definition adaptMaxDailyTasks (rate : Q) (current : option Z) : option Z :=
  match current with
  | Some m =>
      if Qltb rate 0.7 && (3 <? m) then Some (Z.max 3 (m - 1))
      else if Qgtb rate 0.9 && (m <? 12)
      then Some (Z.min 12 ((if m =? 0 then 8 else m) + 1))
      else None
  | None => None
  end.

(** [adaptUserPreferences], at time [now]: from the value stored under
    [user_preferences] ([None] when nothing is stored) to the value stored
    afterwards. *)
Definition adaptUserPreferences (now : Z) (performanceData : PerformanceData)
    (stored : option UserPreferences) : option UserPreferences :=
  let currentPrefs := default noPreferences stored in
  let a_peak :=
    if (0 <? length (productiveHours (timeUsage performanceData)))%nat
    then Some (productiveHours (timeUsage performanceData)) else None in
  let a_duration :=
    if Qgtb (averageDuration (timeUsage performanceData)) 0
    then Some (Math_round (averageDuration (timeUsage performanceData))) else None in
  let a_max :=
    adaptMaxDailyTasks (completionRate (metrics performanceData))
      (maxDailyTasks currentPrefs) in
  if present a_peak || present a_duration || present a_max then
    Some {| maxDailyTasks := spread (maxDailyTasks currentPrefs) a_max;
            peakProductivityHours :=
              spread (peakProductivityHours currentPrefs) a_peak;
            preferredTaskDuration :=
              spread (preferredTaskDuration currentPrefs) a_duration;
            lastAdapted := Some now |}
  else stored.

End Reviewer.

(** ** The reviewer agent: what it learns (src/unnamed/part_000) *)

Module Learning.

Import Reviewer.

(** A productive time slot as the reviewer stores it; [time] is the label
    of the slot, not empty. *)
Record Slot := {
  time : string;
  weight : Z
}.

(** The callback of [current.forEach]: [slot.weight || 1]. *)
Definition addCurrent (slotMap : list (string * Slot)) (slot : Slot)
    : list (string * Slot) :=
  JsMap.set (time slot)
    {| time := time slot; weight := if weight slot =? 0 then 1 else weight slot |}
    slotMap.

(** The callback of [newSlots.forEach]. *)
Definition addNew (slotMap : list (string * Slot)) (slot : string)
    : list (string * Slot) :=
  match JsMap.get slot slotMap with
  | Some s => JsMap.set slot {| time := time s; weight := weight s + 1 |} slotMap
  | None => JsMap.set slot {| time := slot; weight := 1 |} slotMap
  end.

Definition byWeight (a b : Slot) : Q := inject_Z (weight b - weight a).

(** [updateProductiveTimeSlots(current = [], newSlots)] *)
Definition updateProductiveTimeSlots (current : option (list Slot))
    (newSlots : list string) : list Slot :=
  let current := default [] current in
  let slotMap := fold_left addCurrent current [] in
  let slotMap := fold_left addNew newSlots slotMap in
  JsArray.slice0 5 (JsArray.sort byWeight (JsMap.values slotMap)).

Record Effectiveness := {
  eff_completionRate : Q;
  eff_avgDelay : Q;
  eff_count : Z
}.

Definition newEffectiveness : Effectiveness :=
  {| eff_completionRate := 0; eff_avgDelay := 0; eff_count := 0 |}.

(** The callback of [performanceData.completedTasks.forEach]. *)
Definition countCompletion (effectiveness : gmap string Effectiveness)
    (task : AnalysisTask) : gmap string Effectiveness :=
  let priority := task_priority task in
  let e := default newEffectiveness (effectiveness !! priority) in
  let count := eff_count e + 1 in
  <[ priority :=
     {| eff_completionRate :=
          ((eff_completionRate e * inject_Z (count - 1) + 1) / inject_Z count)%Q;
        eff_avgDelay := eff_avgDelay e;
        eff_count := count |} ]> effectiveness.

(** [updatePriorityEffectiveness(current = {}, performanceData)] *)
Definition updatePriorityEffectiveness (current : option (gmap string Effectiveness))
    (performanceData : PerformanceData) : gmap string Effectiveness :=
  fold_left countCompletion (completedTasks performanceData) (default ∅ current).

(** The [metrics.completionRate] of [analyzeYesterdayPerformance]:
    [completed / (completed + missed) || 0], where 0 / 0 is not a number. *)
Definition completionRateOf (completed missed : nat) : Q :=
  let total := (completed + missed)%nat in
  if (total =? 0)%nat then 0
  else (inject_Z (Z.of_nat completed) / inject_Z (Z.of_nat total))%Q.

(** What [analyzeYesterdayPerformance] returns, from the tasks that the
    tracker reports as completed and as missed and from their time usage. *)
Definition analyzeYesterdayPerformance (completedTasks missedTasks : list AnalysisTask)
    (timeUsage : TimeUsage) : PerformanceData :=
  {| completedTasks := completedTasks;
     missedTasks := missedTasks;
     timeUsage := timeUsage;
     metrics :=
       {| completionRate :=
            completionRateOf (length completedTasks) (length missedTasks) |} |}.

End Learning.

(** ** The reviewer agent: the use of time (src/unnamed/part_000) *)

Module TimeAnalysis.

Import Reviewer.

(** [task.due] and [task.dueEnd] of a completed task: an instant, or [None]
    when the value is missing or is not a date. *)
Record Due := {
  due : option Z;
  dueEnd : option Z
}.

(** [differenceInMinutes(dateLeft, dateRight)] of date-fns: the whole
    minutes between the two dates, rounded towards zero. *)
Definition differenceInMinutes (dateLeft dateRight : Z) : Z :=
  Z.quot (dateLeft - dateRight) 60000.

Record Tally := {
  durations : list Z;
  hourlyDistribution : list Z
}.

Record HourCount := {
  hour : nat;
  count : Z
}.

Definition byCount (a b : HourCount) : Q := inject_Z (count b - count a).

(** The label of an hour: [`${hour}:00-${hour + 1}:00`]. *)
Definition hourLabel (hour : nat) : string :=
  pretty hour +:+ ":00-" +:+ pretty (hour + 1)%nat +:+ ":00".

Record TimeUsageReport := {
  usage : TimeUsage;
  totalMinutesWorked : Z;
  taskCount : nat;
  hours : list Z
}.

Section Local.

(** The offset of local time from UTC at an instant, in milliseconds. *)
Variable localOffset : Z -> Z.

(** [date.getHours()]: the hour of the day in local time. *)
Definition getHours (t : Z) : nat :=
  Z.to_nat (((t + localOffset t) / 3600000) mod 24).

(** The callback of [completedTasks.forEach]. *)
Definition tallyTask (acc : Tally) (task : Due) : Tally :=
  match due task, dueEnd task with
  | Some start, Some finish =>
      let duration := differenceInMinutes finish start in
      if (0 <? duration) && (duration <? 480) then
        {| durations := durations acc ++ [duration];
           hourlyDistribution :=
             alter (fun c => c + 1) (getHours start) (hourlyDistribution acc) |}
      else acc
  | _, _ => acc
  end.

(** [analyzeTimeUsage(completedTasks)], of the dates of the tasks. *)
Definition analyzeTimeUsage (completedTasks : list Due) : TimeUsageReport :=
  let tally :=
    fold_left tallyTask completedTasks
      {| durations := []; hourlyDistribution := replicate 24 0 |} in
  let sum := fold_left Z.add (durations tally) 0 in
  let averageDuration :=
    if (0 <? length (durations tally))%nat
    then (inject_Z sum / inject_Z (Z.of_nat (length (durations tally))))%Q
    else 0%Q in
  let productiveHours :=
    map (fun h => hourLabel (hour h))
      (JsArray.slice0 3
         (JsArray.sort byCount
            (List.filter (fun h => 0 <? count h)
               (imap (fun hour count => {| hour := hour; count := count |})
                  (hourlyDistribution tally))))) in
  {| usage := {| averageDuration := averageDuration;
                 productiveHours := productiveHours |};
     totalMinutesWorked := sum;
     taskCount := length (durations tally);
     hours := hourlyDistribution tally |}.

End Local.

End TimeAnalysis.

(** ** The collector agent (src/unnamed/part_001) *)

Module Collector.

Import Planner.

(** [isDataFresh], at time [now], [lastCollection] being the value of the
    state key [last_collection_time]. *)
Definition isDataFresh (now : Z) (lastCollection : option Z) : bool :=
  match lastCollection with
  | None => false
  | Some lastTime =>
      let diffMinutes := (inject_Z (now - lastTime) / inject_Z (1000 * 60))%Q in
      Qltb diffMinutes 20
  end.

End Collector.

(** ** agent-runner.js *)

Module Runner.

Export Js.

(** The keys of [this.agents]. ([runAgent] with another name logs the
    unknown agent and returns [null].) *)
Inductive AgentName := collector | planner | executor | reviewer.

Definition upperCaseName (agentName : AgentName) : string :=
  match agentName with
  | collector => "COLLECTOR"
  | planner => "PLANNER"
  | executor => "EXECUTOR"
  | reviewer => "REVIEWER"
  end.

Record CollectorMetadata := {
  eventsCount : Z;
  tasksCount : Z;
  weatherCondition : string
}.

Record PlannerMetadata := {
  tasksScheduled : Z;
  conflictsResolved : Z;
  planningConfidence : Q
}.

Record ExecutionResults := {
  calendarUpdates : list string;
  notionUpdates : list string;
  notifications : list string;
  executionErrors : list string
}.

(** What [execute] of each agent resolves to: the collected data with its
    [metadata], the final plan with its [metadata], the execution report
    with its [results], the review. *)
Definition Result (agentName : AgentName) : Type :=
  match agentName with
  | collector => CollectorMetadata
  | planner => PlannerMetadata
  | executor => ExecutionResults
  | reviewer => unit
  end.

Record WorkflowMetadata := {
  wf_duration : Z;
  wf_phases : list string;
  wf_collection : CollectorMetadata;
  wf_planning : PlannerMetadata;
  wf_execution : option ExecutionResults
}.

(** A row of the table [agent_logs] (utils/database.js, in
    src/agents/executor-agent.js, lines 405 to 415), as the runner writes
    it: [metadata] is the column [data], [duration] the column
    [duration_ms]. *)
Record ExecutionRow := {
  agent_name : string;
  status : string;
  metadata : option WorkflowMetadata;
  error_message : option string;
  duration : Z
}.

Record Metrics := {
  totalRuns : Z;
  successfulRuns : Z;
  errors : Z;
  lastRun : option Z
}.

Record SystemHealth := {
  health_timestamp : Z;
  health_isRunning : bool;
  health_activeJobs : nat;
  health_metrics : Metrics
}.

(** The clock and the store: the table [agent_logs] and the values of the
    keys [runner_metrics] and [system_health] of the table [system_state],
    [None] for a key that has no row ([database.getState] is then [null]). *)
Record World := {
  now : Z;
  agent_executions : list ExecutionRow;
  runner_metrics : option Metrics;
  system_health : option SystemHealth
}.

(** The fields of the [AgentRunner] object. *)
Record AgentRunner := {
  isRunning : bool;
  jobs : gmap string string;
  metrics : Metrics
}.

Definition State : Type := AgentRunner * World.

(** [database.logAgentExecution] (utils/database.js, in
    src/agents/executor-agent.js, lines 451 to 456):
    [INSERT INTO agent_logs (agent_name, status, data, error_message,
    duration_ms) VALUES (?, ?, ?, ?, ?)], the value of [data] being
    [JSON.stringify(data)], kept as the data itself. The columns
    [agent_name] and [status] are [NOT NULL]; every call gives them a
    string. *)
Definition logAgentExecution (agentName status : string)
    (metadata : option WorkflowMetadata) (error : option string) (duration : Z)
    (w : World) : World :=
  {| now := now w;
     agent_executions :=
       agent_executions w ++
       [ {| agent_name := agentName; status := status; metadata := metadata;
            error_message := error; duration := duration |} ];
     runner_metrics := runner_metrics w;
     system_health := system_health w |}.

(** [saveMetrics]; [database.setState(key, value)] (utils/database.js, in
    src/agents/executor-agent.js, lines 484 to 489) is
    [INSERT OR REPLACE INTO system_state], which replaces the value of the
    key ([runner_metrics], [system_health]). *)
Definition saveMetrics (st : State) : State :=
  let '(this, w) := st in
  (this,
   {| now := now w;
      agent_executions := agent_executions w;
      runner_metrics := Some (metrics this);
      system_health :=
        Some {| health_timestamp := now w;
                health_isRunning := isRunning this;
                health_activeJobs := size (jobs this);
                health_metrics := metrics this |} |}).

(** The clock [ms] milliseconds later. *)
Definition elapse (ms : Z) (w : World) : World :=
  {| now := now w + ms; agent_executions := agent_executions w;
     runner_metrics := runner_metrics w; system_health := system_health w |}.

(** [await new Promise(resolve => setTimeout(resolve, ms))] *)
Definition sleep (ms : Z) (st : State) : State :=
  let '(this, w) := st in (this, elapse ms w).

Definition withMetrics (this : AgentRunner) (m : Metrics) : AgentRunner :=
  {| isRunning := isRunning this; jobs := jobs this; metrics := m |}.

(** An execution of [runAgent] that waits at [await agent.execute()]. *)
Record Invocation := {
  inv_agent : AgentName;
  inv_standalone : bool;
  inv_startTime : Z
}.

(** [runAgent] up to [await agent.execute()]. *)
Definition runAgent_begin (agentName : AgentName) (standalone : bool) (st : State)
    : Invocation * State :=
  let '(this, w) := st in
  let startTime := now w in
  let m := metrics this in
  ({| inv_agent := agentName; inv_standalone := standalone;
      inv_startTime := startTime |},
   (withMetrics this
      {| totalRuns := totalRuns m + 1; successfulRuns := successfulRuns m;
         errors := errors m; lastRun := lastRun m |},
    w)).

(** [runAgent] from the point where [agent.execute()] has settled. *)
Definition runAgent_settle (agentName : AgentName) (standalone : bool)
    (startTime : Z) (outcome : Completion (Result agentName)) (st : State)
    : option (Result agentName) * State :=
  let '(this, w) := st in
  let m := metrics this in
  match outcome with
  | Return result =>
      let this :=
        withMetrics this
          {| totalRuns := totalRuns m; successfulRuns := successfulRuns m + 1;
             errors := errors m; lastRun := Some (now w) |} in
      (Some result, if standalone then saveMetrics (this, w) else (this, w))
  | Throw message =>
      let this :=
        withMetrics this
          {| totalRuns := totalRuns m; successfulRuns := successfulRuns m;
             errors := errors m + 1; lastRun := lastRun m |} in
      let duration := now w - startTime in
      let w :=
        logAgentExecution (upperCaseName agentName +:+ "_RUNNER") "critical_error"
          None (Some message) duration w in
      (None, if standalone then saveMetrics (this, w) else (this, w))
  end.

Section Agents.

(** [agent.execute()] of each agent, on the clock and the store. *)
Variable execute :
  forall agentName : AgentName, World -> Completion (Result agentName) * World.

Definition runAgent (agentName : AgentName) (standalone : bool) (st : State)
    : option (Result agentName) * State :=
  let '(inv, (this, w)) := runAgent_begin agentName standalone st in
  let '(outcome, w) := execute agentName w in
  runAgent_settle agentName standalone (inv_startTime inv) outcome (this, w).

(** The [try] block of [runFullWorkflow]. *)
Definition runFullWorkflow_try (workflowStart : Z) (st : State)
    : Completion unit * State :=
  let '(collectionResult, st) := runAgent collector false st in
  match collectionResult with
  | None => (Throw "Data collection failed", st)
  | Some collectionResult =>
      let st := sleep 2000 st in
      let '(planningResult, st) := runAgent planner false st in
      match planningResult with
      | None => (Throw "AI planning failed", st)
      | Some planningResult =>
          let st := sleep 1000 st in
          let '(executionResult, (this, w)) := runAgent executor false st in
          let workflowDuration := now w - workflowStart in
          (Return tt,
           (this,
            logAgentExecution "FULL_WORKFLOW" "success"
              (Some {| wf_duration := workflowDuration;
                       wf_phases := ["collection"; "planning"; "execution"];
                       wf_collection := collectionResult;
                       wf_planning := planningResult;
                       wf_execution := executionResult |})
              None workflowDuration w))
      end
  end.

Definition runFullWorkflow (st : State) : State :=
  let workflowStart := now (snd st) in
  let st :=
    match runFullWorkflow_try workflowStart st with
    | (Return _, st) => st
    | (Throw message, (this, w)) =>
        let workflowDuration := now w - workflowStart in
        (this,
         logAgentExecution "FULL_WORKFLOW" "failed" None (Some message)
           workflowDuration w)
    end in
  saveMetrics st.

(** *** The executions in flight

    The runner is driven by its timers and by manual triggers; between a
    call of [runAgent] and the settlement of its [await agent.execute()]
    other calls may start. [running] lists the executions that have
    started and not yet settled. *)
Record EventLoop := {
  state : State;
  running : list Invocation
}.

Inductive Event :=
| Trigger (agentName : AgentName) (standalone : bool)
| Settle (k : nat).

Definition step (l : EventLoop) (e : Event) : EventLoop :=
  match e with
  | Trigger agentName standalone =>
      let '(inv, st) := runAgent_begin agentName standalone (state l) in
      {| state := st; running := running l ++ [inv] |}
  | Settle k =>
      match running l !! k with
      | Some inv =>
          let '(this, w) := state l in
          let '(outcome, w) := execute (inv_agent inv) w in
          {| state :=
               snd (runAgent_settle (inv_agent inv) (inv_standalone inv)
                      (inv_startTime inv) outcome (this, w));
             running := delete k (running l) |}
      | None => l
      end
  end.

Definition run (l : EventLoop) (events : list Event) : EventLoop :=
  fold_left step events l.

Definition AgentName_eqb (a b : AgentName) : bool :=
  match a, b with
  | collector, collector | planner, planner
  | executor, executor | reviewer, reviewer => true
  | _, _ => false
  end.

(** The number of executions of one agent that are in flight. *)
Definition inFlight (agentName : AgentName) (l : EventLoop) : nat :=
  length (filter (fun inv => AgentName_eqb (inv_agent inv) agentName = true)
            (running l)).

End Agents.

(** The runner as its constructor leaves it, on an empty store. *)
Definition initialState (t : Z) : State :=
  ({| isRunning := false; jobs := ∅;
      metrics := {| totalRuns := 0; successfulRuns := 0; errors := 0;
                    lastRun := None |} |},
   {| now := t; agent_executions := []; runner_metrics := None;
      system_health := None |}).

End Runner.

(** ** agent-runner.js: start, stop and the first workflow *)

Module Lifecycle.

Import Runner.

(** The jobs that [start] sets, with their cron expressions. *)
Definition schedules : list (string * string) :=
  [ ("collector", "*/15 * * * *");
    ("planner", "*/30 9-18 * * 1-5");
    ("executor", "0 */2 9-18 * * 1-5");
    ("reviewer", "0 22 * * *");
    ("fullWorkflow", "0 */4 9-18 * * 1-5") ].

(** The runner with the timeouts that it has set and that have not fired:
    the times at which [runInitialWorkflow] is due. The runner keeps no
    handle on them. *)
Record Timed := {
  runner : AgentRunner;
  timeouts : list Z
}.

(** [start], at time [t]. *)
Definition start (t : Z) (l : Timed) : Timed :=
  let this := runner l in
  if isRunning this then l
  else
    {| runner :=
         {| isRunning := true;
            jobs := fold_left (fun jobs job => <[ job.1 := job.2 ]> jobs)
                      schedules (jobs this);
            metrics := metrics this |};
       timeouts := timeouts l ++ [t + 5000] |}.

(** [stop]: the jobs are stopped and forgotten, the metrics saved. *)
Definition stop (l : Timed) (w : World) : Timed * World :=
  let this := runner l in
  let this := {| isRunning := false; jobs := ∅; metrics := metrics this |} in
  ({| runner := this; timeouts := timeouts l |}, snd (saveMetrics (this, w))).

(** [loadMetrics]: [{...this.metrics, ...stored}] is [stored], which has
    every counter. *)
Definition loadMetrics (st : State) : State :=
  let '(this, w) := st in
  match runner_metrics w with
  | Some stored => (withMetrics this stored, w)
  | None => (this, w)
  end.

Section Agents.

Variable execute :
  forall agentName : AgentName, World -> Completion (Result agentName) * World.

(** [runInitialWorkflow]; [lastCollection] and [lastPlanning] are the
    values of the state keys [last_collection_time] and
    [last_planning_time] when it starts: both are read before an agent
    runs. *)
Definition runInitialWorkflow (lastCollection lastPlanning : option Z) (st : State)
    : State :=
  let hasData := Collector.isDataFresh (now st.2) lastCollection in
  let hasPlan := Planner.isPlanFresh (now st.2) lastPlanning in
  let st := if hasData then st else snd (runAgent execute collector false st) in
  let st := if hasPlan then st else snd (runAgent execute planner false st) in
  st.

End Agents.

End Lifecycle.

(** ** planner-agent.js: the optimizer *)

Module Optimizer.

Import Planner Learning.

(** [productiveSlot.start] and [productiveSlot.end]. The slots are read
    from the key [productiveTimeSlots] of the learning data [task_patterns];
    its only writer, [updateProductiveTimeSlots] of the reviewer, stores
    slots with the keys [time] and [weight]. A slot has no key [start] and
    no key [end]: both are [undefined]. *)
Definition slot_start (productiveSlot : Slot) : TimeValue := undefined.
Definition slot_end (productiveSlot : Slot) : TimeValue := undefined.

(** [priorityWeight[priority] || 1] *)
Definition priorityWeight (priority : string) : Z :=
  if String.eqb priority "High" then 3
  else if String.eqb priority "Medium" then 2
  else if String.eqb priority "Low" then 1
  else 1.

Definition byPriority (a b : ScheduleEntry) : Q :=
  inject_Z (priorityWeight (priority b) - priorityWeight (priority a)).

(** The callback of [sortedTasks.map]. *)
Definition toProductiveSlot (productiveSlots : list Slot) (index : nat)
    (task : ScheduleEntry) : ScheduleEntry :=
  if String.eqb (priority task) "High" && (0 <? length productiveSlots)%nat then
    match productiveSlots !! (index mod length productiveSlots)%nat with
    | Some productiveSlot =>
        {| taskId := taskId task; title := title task;
           startTime := slot_start productiveSlot;
           endTime := slot_end productiveSlot;
           priority := priority task;
           reason := "Scheduled during productive time slot: " +:+ reason task |}
    | None => task
    end
  else task.

Definition optimizeForProductiveTimeSlots (schedule : list ScheduleEntry)
    (productiveSlots : list Slot) : list ScheduleEntry :=
  let sortedTasks := JsArray.sort byPriority schedule in
  imap (toProductiveSlot productiveSlots) sortedTasks.

(** [value || fallback] for a number that may be missing: 0 counts as
    missing. *)
Definition numberOr (value : option Q) (fallback : Q) : Q :=
  match value with
  | Some x => if Qeq_bool x 0 then fallback else x
  | None => fallback
  end.

(** [efficiencyData[title] || efficiencyData.default || 0.5] *)
Definition efficiencyOf (efficiencyData : gmap string Q) (title : string) : Q :=
  numberOr (efficiencyData !! title) (numberOr (efficiencyData !! "default") 0.5%Q).

Definition byEfficiency (efficiencyData : gmap string Q) (a b : ScheduleEntry) : Q :=
  let aEfficiency := efficiencyOf efficiencyData (title a) in
  let bEfficiency := efficiencyOf efficiencyData (title b) in
  (bEfficiency - aEfficiency)%Q.

Definition optimizeTaskOrdering (schedule : list ScheduleEntry)
    (efficiencyData : gmap string Q) : list ScheduleEntry :=
  JsArray.sort (byEfficiency efficiencyData) schedule.

(** What [optimizePlan] reads of [learningData]: [patterns.productiveTimeSlots]
    and [performance.taskTypeEfficiency], [None] when the key is missing (an
    empty array and an empty object count as present). *)
Record LearningData := {
  productiveTimeSlots : option (list Slot);
  taskTypeEfficiency : option (gmap string Q)
}.

Record OptimizedPlan := {
  optimizedSchedule : list ScheduleEntry;
  optimizations : list string
}.

Definition optimizePlan (resolvedSchedule : list ScheduleEntry)
    (learningData : LearningData) : Completion OptimizedPlan :=
  let optimizations := [] in
  let optimizedSchedule := resolvedSchedule in
  let '(optimizedSchedule, optimizations) :=
    match productiveTimeSlots learningData with
    | Some slots =>
        (optimizeForProductiveTimeSlots optimizedSchedule slots,
         optimizations ++ ["Applied productive time slot optimization"])
    | None => (optimizedSchedule, optimizations)
    end in
  let '(optimizedSchedule, optimizations) :=
    match taskTypeEfficiency learningData with
    | Some efficiencyData =>
        (optimizeTaskOrdering optimizedSchedule efficiencyData,
         optimizations ++ ["Optimized task ordering based on efficiency patterns"])
    | None => (optimizedSchedule, optimizations)
    end in
  optimizedSchedule ← addBufferTime optimizedSchedule;
  Return {| optimizedSchedule := optimizedSchedule;
            optimizations := optimizations ++ ["Added buffer time between tasks"] |}.

(** The argument of [calculatePlanConfidence]: [None] for a missing key. *)
Record ConfidenceInput := {
  ci_conflicts : option (list ResolvedConflict);
  ci_optimizations : option (list string)
}.

Definition Math_max (x y : Q) : Q := if Qle_bool x y then y else x.
Definition Math_min (x y : Q) : Q := if Qle_bool x y then x else y.

Definition calculatePlanConfidence (plan : ConfidenceInput) : Q :=
  let confidence := 0.8%Q in
  let unresolvedConflicts :=
    match ci_conflicts plan with
    | Some cs => length (filter (fun c => applied c = false) cs)
    | None => 0%nat
    end in
  let confidence :=
    (confidence - inject_Z (Z.of_nat unresolvedConflicts) * 0.1)%Q in
  let optimizationCount :=
    match ci_optimizations plan with
    | Some os => length os
    | None => 0%nat
    end in
  let confidence :=
    (confidence + inject_Z (Z.of_nat optimizationCount) * 0.05)%Q in
  Math_max 0.0%Q (Math_min 1.0%Q confidence).

End Optimizer.

(** ** planner-agent.js: a planning run *)

Module PlannerRun.

Import Planner AIService Optimizer.

Record FinalPlan := {
  timestamp : Z;
  fp_schedule : list ScheduleEntry;
  fp_conflicts : list ResolvedConflict;
  fp_optimizations : list string;
  fp_recommendations : list string;
  fp_metadata : Runner.PlannerMetadata
}.

(** A row of the table [agent_logs] (utils/database.js, in
    src/agents/executor-agent.js, lines 405 to 415), as the planner writes
    it: [pr_metadata] is the column [data], [pr_duration] the column
    [duration_ms]. *)
Record PlannerRow := {
  pr_agent : string;
  pr_status : string;
  pr_metadata : option Runner.PlannerMetadata;
  pr_error : option string;
  pr_duration : Z
}.

(** What the planner reads and writes in the store: the values of the keys
    [latest_collected_data], [latest_plan] and [last_planning_time] of the
    table [system_state] ([None] for a key that has no row), what
    [optimizePlan] reads of the table [learning_data], the table
    [conflict_resolutions] and the table [agent_logs]. *)
Record Store := {
  latest_collected_data : option LatestData;
  learning : LearningData;
  latest_plan : option FinalPlan;
  last_planning_time : option Z;
  resolutions : list ConflictResolutionRow;
  executions : list PlannerRow
}.

(** The readings of the clock during a run: [Date.now()] at the start, the
    [timestamp] of the plan, the time stored under [last_planning_time] and
    [Date.now()] at the end. *)
Record Clock := {
  t_start : Z;
  t_plan : Z;
  t_stored : Z;
  t_end : Z
}.

(** [database.logAgentExecution] (utils/database.js, in
    src/agents/executor-agent.js, lines 451 to 456):
    [INSERT INTO agent_logs (agent_name, status, data, error_message,
    duration_ms) VALUES (?, ?, ?, ?, ?)], called with the name of the
    planner. The columns [agent_name] and [status] are [NOT NULL]; every
    call gives them a string. *)
Definition logAgentExecution (status : string)
    (metadata : option Runner.PlannerMetadata) (error : option string)
    (duration : Z) (db : Store) : Store :=
  {| latest_collected_data := latest_collected_data db;
     learning := learning db;
     latest_plan := latest_plan db;
     last_planning_time := last_planning_time db;
     resolutions := resolutions db;
     executions :=
       executions db ++
       [ {| pr_agent := "PlannerAgent"; pr_status := status;
            pr_metadata := metadata; pr_error := error;
            pr_duration := duration |} ] |}.

(** The store with the table [conflict_resolutions] as [resolveConflicts]
    leaves it. *)
Definition withResolutions (saved : list ConflictResolutionRow) (db : Store) : Store :=
  {| latest_collected_data := latest_collected_data db;
     learning := learning db;
     latest_plan := latest_plan db;
     last_planning_time := last_planning_time db;
     resolutions := saved;
     executions := executions db |}.

(** [database.setState('latest_plan', finalPlan)] followed by
    [database.setState('last_planning_time', ...)]: [setState]
    (utils/database.js, in src/agents/executor-agent.js, lines 484 to 489)
    is [INSERT OR REPLACE INTO system_state], which replaces the value of
    the key. *)
Definition storePlan (finalPlan : FinalPlan) (t : Z) (db : Store) : Store :=
  {| latest_collected_data := latest_collected_data db;
     learning := learning db;
     latest_plan := Some finalPlan;
     last_planning_time := Some t;
     resolutions := resolutions db;
     executions := executions db |}.

Section Execute.

Variable JSON_parse : string -> option AiPlan.

(** How the call to the model for the plan settles, and the answers of the
    oracle on the conflicts. *)
Variable planReply : Completion string.
Variable analyzeConflict : nat -> ConflictData -> option Resolution.

Variable clock : Clock.

(** The [catch] of [execute]: the error is logged and thrown again. *)
Definition failed (message : string) (db : Store) : Completion FinalPlan * Store :=
  (Throw message,
   logAgentExecution "error" None (Some message) (t_end clock - t_start clock) db).

(** [execute] of the planner. *)
Definition execute (db : Store) : Completion FinalPlan * Store :=
  match latest_collected_data db with
  | None => failed "No data available from CollectorAgent" db
  | Some latestData =>
      match generateTaskPlan JSON_parse planReply with
      | Throw message => failed message db
      | Return aiPlan =>
          match resolveConflicts analyzeConflict latestData aiPlan (resolutions db) with
          | (Throw message, saved) => failed message (withResolutions saved db)
          | (Return resolvedPlan, saved) =>
              let db := withResolutions saved db in
              match optimizePlan (updatedSchedule resolvedPlan) (learning db) with
              | Throw message => failed message db
              | Return optimizedPlan =>
                  let finalPlan :=
                    {| timestamp := t_plan clock;
                       fp_schedule := optimizedSchedule optimizedPlan;
                       fp_conflicts := resolvedConflicts resolvedPlan;
                       fp_optimizations := optimizations optimizedPlan;
                       fp_recommendations := default [] (recommendations aiPlan);
                       fp_metadata :=
                         {| Runner.tasksScheduled :=
                              Z.of_nat (length (optimizedSchedule optimizedPlan));
                            Runner.conflictsResolved :=
                              Z.of_nat (length (resolvedConflicts resolvedPlan));
                            Runner.planningConfidence :=
                              calculatePlanConfidence
                                {| ci_conflicts := None;
                                   ci_optimizations :=
                                     Some (optimizations optimizedPlan) |}
                         |} |} in
                  let db := storePlan finalPlan (t_stored clock) db in
                  (Return finalPlan,
                   logAgentExecution "success" (Some (fp_metadata finalPlan)) None
                     (t_end clock - t_start clock) db)
              end
          end
      end
  end.

End Execute.

End PlannerRun.

(** * Vocabulary of the properties *)

Import Planner.

(** A time field that holds a date. *)
Definition dated (value : TimeValue) : Prop := is_Some (newDate value).

(** A task with a start and an end that are dates. *)
Definition scheduled (task : ScheduleEntry) : Prop :=
  dated (startTime task) /\ dated (endTime task).

(** What the pass keeps of an entry and how it moves it: an entry is left
    as it is, or it has a start and an end that are dates and is moved to a
    later start, its end the same time after its start as it was. *)
Definition shifted (a b : ScheduleEntry) : Prop :=
  taskId b = taskId a /\ title b = title a /\
  priority b = priority a /\ reason b = reason a /\
  ((startTime b = startTime a /\ endTime b = endTime a) \/
   exists start finish start',
     newDate (startTime a) = Some start /\ newDate (endTime a) = Some finish /\
     start < start' /\
     startTime b = ISOString start' /\
     endTime b = ISOString (start' + (finish - start))).

(** Consecutive entries of a schedule are a buffer apart:
    [B.start >= A.end + 15 minutes], which asks for both to be dates. *)
Definition buffered (l : list ScheduleEntry) : Prop :=
  forall j a b, l !! j = Some a -> l !! S j = Some b ->
    exists finish start,
      newDate (endTime a) = Some finish /\ newDate (startTime b) = Some start /\
      finish + 15 * 60 * 1000 <= start.

(** Consecutive entries are a buffer apart where the end of the one and the
    start of the other are dates. *)
Definition separated (l : list ScheduleEntry) : Prop :=
  forall j a b finish start, l !! j = Some a -> l !! S j = Some b ->
    newDate (endTime a) = Some finish -> newDate (startTime b) = Some start ->
    finish + 15 * 60 * 1000 <= start.

(** The test of the pass: the task starts before the buffer boundary. *)
Definition tooEarly (prevTask task : ScheduleEntry) : bool :=
  DateFns.isBefore (newDate (startTime task))
    (DateFns.addHours (newDate (endTime prevTask)) (bufferMinutes / 60)).

(** The task that the body hands on when it moves a task behind
    a task that ends at [finish]. *)
Definition moved (finish start : Z) (task : ScheduleEntry) (taskEnd : Z)
    : ScheduleEntry :=
  {| taskId := taskId task; title := title task;
     startTime := ISOString (finish + 15 * 60 * 1000);
     endTime := ISOString (finish + 15 * 60 * 1000 + (taskEnd - start));
     priority := priority task; reason := reason task |}.

(** The row that [resolveConflicts] writes to the store for a record of
    its result: none for a record without a resolution. *)
Definition loggedRow (rc : ResolvedConflict) : option ConflictResolutionRow :=
  match rc_resolution rc, type (originalConflict rc) with
  | Some r, Some conflictType =>
      Some {| row_taskId := conflictTaskRef (originalConflict rc);
              row_conflictType := conflictType;
              row_original := originalConflict rc;
              row_resolvedTime := newTime r;
              row_reason := resolutionReason r |}
  | _, _ => None
  end.

(** What conflict resolution asks of its input to go through: the plan has
    a schedule whose tasks have dates, every conflict has a type, and the
    new times of the oracle are dates. *)
Definition wellFormed (analyzeConflict : nat -> ConflictData -> option Resolution)
    (aiPlan : AiPlan) : Prop :=
  (exists tasks, schedule aiPlan = Some tasks /\ Forall scheduled tasks) /\
  Forall (fun conflict => is_Some (type conflict))
    (default [] (conflicts_detected aiPlan)) /\
  (forall n question r, analyzeConflict n question = Some r -> dated (newTime r)).

(** A task moved by a resolution, with the end that is written for it. *)
Definition movedTo (r : Resolution) (task : ScheduleEntry) (newEndTime : TimeValue)
    : ScheduleEntry :=
  {| taskId := taskId task; title := title task;
     startTime := newTime r;
     endTime := newEndTime;
     priority := priority task;
     reason := "Moved due to conflict: " +:+ resolutionReason r |}.

(** A plan with the first [i] of its conflicts only: what conflict
    resolution returns for it are the variables of the loop after [i]
    iterations. *)
Definition firstConflicts (i : nat) (aiPlan : AiPlan) : AiPlan :=
  {| schedule := schedule aiPlan;
     conflicts_detected := Some (take i (default [] (conflicts_detected aiPlan)));
     recommendations := recommendations aiPlan |}.

(** The records of conflicts that are applied and of conflicts that are
    not. *)
Definition appliedRecord (conflict : Conflict) (r : Resolution) : ResolvedConflict :=
  {| originalConflict := conflict; rc_resolution := Some r; applied := true |}.

Definition unresolved (conflict : Conflict) : ResolvedConflict :=
  {| originalConflict := conflict; rc_resolution := None; applied := false |}.

(** The value of [maxDailyTasks] in the store. *)
Definition storedMaxDailyTasks (stored : option Reviewer.UserPreferences) : option Z :=
  stored ≫= Reviewer.maxDailyTasks.

(** A sequence of calls of [adaptUserPreferences], each at its time and with
    the data of its period. *)
Definition adaptations (calls : list (Z * Reviewer.PerformanceData))
    (stored : option Reviewer.UserPreferences) : option Reviewer.UserPreferences :=
  fold_left (fun stored call => Reviewer.adaptUserPreferences call.1 call.2 stored)
    calls stored.

Section WorkflowRows.

Import Runner.

(** The row that [runAgent] writes when [execute] of an agent throws. *)
Definition criticalError (agentName : string) (message : string) (duration : Z)
    : ExecutionRow :=
  {| agent_name := agentName; status := "critical_error"; metadata := None;
     error_message := Some message; duration := duration |}.

(** The row that [runFullWorkflow] writes at its end. *)
Definition workflowRow (status : string) (metadata : option WorkflowMetadata)
    (error : option string) (duration : Z) : ExecutionRow :=
  {| agent_name := "FULL_WORKFLOW"; status := status; metadata := metadata;
     error_message := error; duration := duration |}.

(** The counters of the runner after so many runs, of which so many
    succeeded and so many failed. *)
Definition ran (runs successes failures : Z) (before after : Metrics) : Prop :=
  totalRuns after = totalRuns before + runs /\
  successfulRuns after = successfulRuns before + successes /\
  errors after = errors before + failures.

End WorkflowRows.

(** ** Sample data *)

(** A task of medium priority between two instants, its times written as
    [toISOString] writes them. *)
Definition entry (id : string) (start finish : Z) : ScheduleEntry :=
  {| taskId := id; title := id;
     startTime := ISOString start; endTime := ISOString finish;
     priority := "Medium"; reason := EmptyString |}.

(** The times of a task. *)
Definition timesOf (task : ScheduleEntry) : TimeValue * TimeValue :=
  (startTime task, endTime task).

(** Two tasks of high priority that overlap, from 9:00 to 10:00 and from
    9:30 to 10:30 on the first of January 2024, their times written as the
    prompt of the planner writes them. *)
Definition standup : ScheduleEntry :=
  {| taskId := "task-1"; title := "Stand-up";
     startTime := Text "2024-01-01T09:00:00Z" (Some 1704099600000);
     endTime := Text "2024-01-01T10:00:00Z" (Some 1704103200000);
     priority := "High"; reason := "peak hours" |}.

Definition report : ScheduleEntry :=
  {| taskId := "task-2"; title := "Report";
     startTime := Text "2024-01-01T09:30:00Z" (Some 1704101400000);
     endTime := Text "2024-01-01T10:30:00Z" (Some 1704105000000);
     priority := "High"; reason := "deadline" |}.

(** A task without its times. *)
Definition untimed (task : ScheduleEntry) (why : string) : ScheduleEntry :=
  {| taskId := taskId task; title := title task;
     startTime := undefined; endTime := undefined;
     priority := priority task; reason := why |}.

(** A resolution that moves the task of instant 0 to [t], with confidence
    [c]. *)
Definition moveTo (t : Z) (c : Q) : Resolution :=
  {| resolution := "move_task"; originalTime := ISOString 0;
     newTime := ISOString t;
     resolutionReason := "later"; confidence := Some c |}.

(** A conflict between two tasks, and a resolution the oracle is not sure
    of. *)
Definition overlapConflict : Conflict :=
  {| type := Some "overlap"; tasks := Some ["task1"; "task2"];
     severity := "high" |}.

Definition hesitantResolution : Resolution :=
  {| resolution := "move_task"; originalTime := undefined;
     newTime := Text "2024-01-01T10:00:00Z" (Some 1704103200000);
     resolutionReason := "free slot"; confidence := Some 0.5%Q |}.

Definition noData : LatestData :=
  {| notionTasks := []; calendarEvents := []; weatherData := None |}.

Definition highTask (n : nat) (status : string) : Reviewer.AnalysisTask :=
  {| Reviewer.ref := n; Reviewer.task_id := "page"; Reviewer.task_title := "Untitled";
     Reviewer.task_status := status; Reviewer.task_priority := "High" |}.

(** A day on which the two tasks of priority High are missed. *)
Definition dayOfMisses : Reviewer.PerformanceData :=
  {| Reviewer.completedTasks := [];
     Reviewer.missedTasks := [highTask 1 "Todo"; highTask 2 "In progress"];
     Reviewer.timeUsage :=
       {| Reviewer.averageDuration := 0; Reviewer.productiveHours := [] |};
     Reviewer.metrics := {| Reviewer.completionRate := 0 |} |}.

(** A day on which the one task of priority High is completed. *)
Definition dayOfSuccess : Reviewer.PerformanceData :=
  {| Reviewer.completedTasks := [highTask 3 "Done"];
     Reviewer.missedTasks := [];
     Reviewer.timeUsage :=
       {| Reviewer.averageDuration := 0; Reviewer.productiveHours := [] |};
     Reviewer.metrics := {| Reviewer.completionRate := 1 |} |}.

(** An agent whose [execute] fails at once. *)
Definition failingAgent (agentName : Runner.AgentName) (w : Runner.World)
    : Js.Completion (Runner.Result agentName) * Runner.World :=
  (Js.Throw "unavailable", w).

(** ** Vocabulary of the further properties *)

(** An array in descending order of a key. *)
Definition descending {A} (key : A -> Q) : list A -> Prop :=
  StronglySorted (fun a b => (key b <= key a)%Q).

(** What the optimizer keeps of a task. *)
Definition identityOf (task : Planner.ScheduleEntry) : string * string * string :=
  (Planner.taskId task, Planner.title task, Planner.priority task).

(** The weight of the priority of a task, as a number. *)
Definition weightOf (task : Planner.ScheduleEntry) : Q :=
  inject_Z (Optimizer.priorityWeight (Planner.priority task)).


(** A character of a text. *)
Fixpoint occurs (c : ascii) (s : string) : bool :=
  match s with
  | EmptyString => false
  | String c' rest => Ascii.eqb c' c || occurs c rest
  end.

(** The schedule that the optimizer hands to its buffer pass, and the
    lines that it reports. *)
Definition beforeBuffer (schedule : list Planner.ScheduleEntry)
    (learningData : Optimizer.LearningData) : list Planner.ScheduleEntry :=
  let schedule :=
    match Optimizer.productiveTimeSlots learningData with
    | Some slots => Optimizer.optimizeForProductiveTimeSlots schedule slots
    | None => schedule
    end in
  match Optimizer.taskTypeEfficiency learningData with
  | Some efficiencyData => Optimizer.optimizeTaskOrdering schedule efficiencyData
  | None => schedule
  end.

Definition passes (learningData : Optimizer.LearningData) : list string :=
  match Optimizer.productiveTimeSlots learningData with
  | Some _ => ["Applied productive time slot optimization"]
  | None => []
  end ++
  match Optimizer.taskTypeEfficiency learningData with
  | Some _ => ["Optimized task ordering based on efficiency patterns"]
  | None => []
  end ++
  ["Added buffer time between tasks"].

(** A resolution as the prompt asks for it, which the oracle is sure of. *)
Definition sureResolution : Planner.Resolution :=
  {| Planner.resolution := "move_task"; Planner.originalTime := undefined;
     Planner.newTime := Text "2024-01-01T10:00:00Z" (Some 1704103200000);
     Planner.resolutionReason := "free slot";
     Planner.confidence := Some 0.9%Q |}.

(** An oracle that answers every question with that resolution. *)
Definition sureOracle (n : nat) (question : Planner.ConflictData)
    : option Planner.Resolution :=
  Some sureResolution.

(** A reply of the model in a fenced block. *)
Definition fencedReply : string := "```json {} ```".

(** Calls to the model that all time out. *)
Definition unreachable (n : nat) : Js.Completion string :=
  Js.Throw "timeout".

(** A [JSON.parse] of replies on conflicts for runs in which no reply
    arrives: it is not called. *)
Definition rejectsAll (text : string) : option Planner.Resolution := None.

(** [JSON.parse] on the texts of the examples: the text of an empty object
    is read as an object without a key, every other text of the examples
    is rejected. *)
Definition parseObject (text : string) : option Planner.AiPlan :=
  if String.eqb text "{}"
  then Some {| Planner.schedule := None; Planner.conflicts_detected := None;
               Planner.recommendations := None |}
  else None.

(** The number of tasks of a priority. *)
Definition tasksOf (priority : string) (tasks : list Reviewer.AnalysisTask) : Z :=
  Z.of_nat (length (List.filter (fun task => String.eqb (Reviewer.task_priority task) priority)
                      tasks)).

(** The reviews of days on which the tracker reports no task, each at its
    time and with its time usage. *)
Definition emptyDays (days : list (Z * Reviewer.TimeUsage))
    : list (Z * Reviewer.PerformanceData) :=
  map (fun day => (day.1, Learning.analyzeYesterdayPerformance [] [] day.2)) days.

(** The slots learned over a sequence of reviews, each with the productive
    hours of its day. *)
Definition learnSlots (days : list (list string)) (current : list Learning.Slot)
    : list Learning.Slot :=
  fold_left (fun slots newSlots => Learning.updateProductiveTimeSlots (Some slots) newSlots)
    days current.

(** An entry of the map of slots is filed under its label. *)
Definition filed (entry : string * Learning.Slot) : Prop :=
  Learning.time entry.2 = entry.1.

(** Five learned slots. *)
Definition fiveSlots : list Learning.Slot :=
  [ {| Learning.time := "9:00-10:00"; Learning.weight := 3 |};
    {| Learning.time := "10:00-11:00"; Learning.weight := 2 |};
    {| Learning.time := "14:00-15:00"; Learning.weight := 1 |};
    {| Learning.time := "15:00-16:00"; Learning.weight := 1 |};
    {| Learning.time := "16:00-17:00"; Learning.weight := 1 |} ].

(** The weight of a slot, as a number. *)
Definition weightKey (s : Learning.Slot) : Q := inject_Z (Learning.weight s).

(** The runs that have not settled and the counters of the runner add up. *)
Definition accounted (l : Runner.EventLoop) : Prop :=
  let m := Runner.metrics (Runner.state l).1 in
  Runner.totalRuns m =
  Runner.successfulRuns m + Runner.errors m + Z.of_nat (length (Runner.running l)).

(** The runs that the counters do not account for: the total less the
    successes, the errors and the runs in flight. *)
Definition unsettled (l : Runner.EventLoop) : Z :=
  let m := Runner.metrics (Runner.state l).1 in
  Runner.totalRuns m - (Runner.successfulRuns m + Runner.errors m)
  - Z.of_nat (length (Runner.running l)).

(** 1 for a check that fails. *)
Definition stale (fresh : bool) : Z := if fresh then 0 else 1.

(** A store with collected data and nothing else. *)
Definition collectedStore : PlannerRun.Store :=
  {| PlannerRun.latest_collected_data := Some noData;
     PlannerRun.learning :=
       {| Optimizer.productiveTimeSlots := None;
          Optimizer.taskTypeEfficiency := None |};
     PlannerRun.latest_plan := None;
     PlannerRun.last_planning_time := None;
     PlannerRun.resolutions := [];
     PlannerRun.executions := [] |}.

(** A run of two seconds. *)
Definition twoSeconds : PlannerRun.Clock :=
  {| PlannerRun.t_start := 1704103200000; PlannerRun.t_plan := 1704103201900;
     PlannerRun.t_stored := 1704103201950; PlannerRun.t_end := 1704103202000 |}.

(** A JSON text, written with an apostrophe for the double quote. *)
Fixpoint json (s : string) : string :=
  match s with
  | EmptyString => EmptyString
  | String c rest =>
      String (if Ascii.eqb c "'"%char then "034"%char else c) (json rest)
  end.

(** A plan of the two tasks with their conflict, as the model writes it. *)
Definition planObject : string :=
  json ("{'schedule': [" +:+
        "{'taskId': 'task-1', 'title': 'Stand-up', " +:+
        "'startTime': '2024-01-01T09:00:00Z', 'endTime': '2024-01-01T10:00:00Z', " +:+
        "'priority': 'High', 'reason': 'peak hours'}, " +:+
        "{'taskId': 'task-2', 'title': 'Report', " +:+
        "'startTime': '2024-01-01T09:30:00Z', 'endTime': '2024-01-01T10:30:00Z', " +:+
        "'priority': 'High', 'reason': 'deadline'}], " +:+
        "'conflicts_detected': [{'type': 'overlap', 'tasks': ['task1', 'task2'], " +:+
        "'severity': 'high'}], 'recommendations': []}").

Definition plannedDay : Planner.AiPlan :=
  {| Planner.schedule := Some [standup; report];
     Planner.conflicts_detected := Some [overlapConflict];
     Planner.recommendations := Some [] |}.

(** [JSON.parse] on the texts of the examples: the text of that plan, the
    text of an empty object; every other text of the examples is rejected. *)
Definition parsePlan (text : string) : option Planner.AiPlan :=
  if String.eqb text planObject then Some plannedDay else parseObject text.

(** The row that the planner logs for a run that fails. *)
Definition errorRow (message : string) (clock : PlannerRun.Clock) : PlannerRun.PlannerRow :=
  {| PlannerRun.pr_agent := "PlannerAgent"; PlannerRun.pr_status := "error";
     PlannerRun.pr_metadata := None; PlannerRun.pr_error := Some message;
     PlannerRun.pr_duration := PlannerRun.t_end clock - PlannerRun.t_start clock |}.

(** The row that the planner logs for a run that succeeds. *)
Definition successRow (plan : PlannerRun.FinalPlan) (clock : PlannerRun.Clock)
    : PlannerRun.PlannerRow :=
  {| PlannerRun.pr_agent := "PlannerAgent"; PlannerRun.pr_status := "success";
     PlannerRun.pr_metadata := Some (PlannerRun.fp_metadata plan);
     PlannerRun.pr_error := None;
     PlannerRun.pr_duration := PlannerRun.t_end clock - PlannerRun.t_start clock |}.

(** The statistics of a priority after [c] more completed tasks among [t]
    more tasks. *)
Definition counted (stats : option Reviewer.PriorityStat) (c t : Z)
    : option Reviewer.PriorityStat :=
  if t =? 0 then stats
  else
    let s := default {| Reviewer.completed := 0; Reviewer.total := 0 |} stats in
    Some {| Reviewer.completed := Reviewer.completed s + c;
            Reviewer.total := Reviewer.total s + t |}.

(** The number of tasks of a priority that are found among the completed
    tasks. *)
Definition completedOf (priority : string)
    (completedTasks tasks : list Reviewer.AnalysisTask) : Z :=
  Z.of_nat (length (List.filter
                      (fun task => String.eqb (Reviewer.task_priority task) priority
                                   && Reviewer.includes completedTasks task)
                      tasks)).

(** The duration in minutes of a task that [analyzeTimeUsage] counts: the
    task has a due date and an end, and the end comes more than 0 and less
    than 480 minutes after the due date. *)
Definition countedDuration (task : TimeAnalysis.Due) : option Z :=
  match TimeAnalysis.due task, TimeAnalysis.dueEnd task with
  | Some start, Some finish =>
      let duration := TimeAnalysis.differenceInMinutes finish start in
      if (0 <? duration) && (duration <? 480) then Some duration else None
  | _, _ => None
  end.

(** A counted task whose due date falls in an hour of the day. *)
Definition startsIn (localOffset : Z -> Z) (hour : nat) (task : TimeAnalysis.Due)
    : bool :=
  match countedDuration task, TimeAnalysis.due task with
  | Some _, Some start => Nat.eqb (TimeAnalysis.getHours localOffset start) hour
  | _, _ => false
  end.

(** The number of counted tasks whose due date falls in an hour of the
    day. *)
Definition startingIn (localOffset : Z -> Z) (hour : nat)
    (tasks : list TimeAnalysis.Due) : Z :=
  Z.of_nat (length (List.filter (startsIn localOffset hour) tasks)).

(** The sum of a list of counts. *)
Definition countsTotal (counts : list Z) : Z := foldr Z.add 0 counts.

(** * Properties *)

(** ** The buffer pass *)

Section BufferTime.

Lemma timeClip_inject_Z (t : Z) (q : Q) :
  (q == inject_Z t)%Q -> DateFns.timeClip q = t.
Proof.
  intros Hq. unfold DateFns.timeClip.
  destruct (Qlt_le_dec q 0); rewrite Hq.
  - apply Qceiling_Z.
  - apply Qfloor_Z.
Qed.

(** The buffer boundary lies a quarter of an hour after the end of the
    previous task. *)
Lemma addHours_bufferMinutes (t : Z) :
  DateFns.addHours (Some t) (bufferMinutes / 60) = Some (t + 15 * 60 * 1000).
Proof.
  unfold DateFns.addHours. f_equal. apply timeClip_inject_Z.
  unfold bufferMinutes, DateFns.millisecondsInHour.
  rewrite inject_Z_plus. apply Qplus_comp; [reflexivity | ].
  reflexivity.
Qed.

Lemma tooEarly_true prevTask task :
  tooEarly prevTask task = true <->
  exists finish start,
    newDate (endTime prevTask) = Some finish /\
    newDate (startTime task) = Some start /\
    start < finish + 15 * 60 * 1000.
Proof.
  unfold tooEarly, DateFns.isBefore.
  destruct (newDate (endTime prevTask)) as [finish | ].
  - rewrite addHours_bufferMinutes.
    destruct (newDate (startTime task)) as [start | ].
    + rewrite Z.ltb_lt. split.
      * intros H. by exists finish, start.
      * intros (f & s & [= <-] & [= <-] & H). exact H.
    + split; [ discriminate | ]. intros (f & s & _ & H & _). discriminate H.
  - simpl. destruct (newDate (startTime task)); (split; [ discriminate | ]);
      intros (f & s & H & _); discriminate H.
Qed.

Lemma tooEarly_false prevTask task :
  tooEarly prevTask task = false <->
  forall finish start,
    newDate (endTime prevTask) = Some finish ->
    newDate (startTime task) = Some start ->
    finish + 15 * 60 * 1000 <= start.
Proof.
  destruct (tooEarly prevTask task) eqn:H.
  - apply tooEarly_true in H as (finish & start & Hf & Hs & Hlt).
    split; [ discriminate | ]. intros Hall. specialize (Hall _ _ Hf Hs). lia.
  - split; [ | reflexivity ]. intros _ finish start Hf Hs.
    destruct (Z.le_gt_cases (finish + 15 * 60 * 1000) start) as [ | Hlt ]; [ done | ].
    assert (tooEarly prevTask task = true) by (apply tooEarly_true; eauto).
    congruence.
Qed.

(** What the body of the loop does: it hands the task on as it is, or moves
    it behind the previous task, or throws because the task that it has to
    move has no end. *)
Lemma addBufferTime_body_cases acc prevTask task :
  last acc = Some prevTask ->
  (tooEarly prevTask task = false /\
   addBufferTime_body (length acc) acc task = Return task) \/
  (exists finish start,
     newDate (endTime prevTask) = Some finish /\
     newDate (startTime task) = Some start /\
     start < finish + 15 * 60 * 1000 /\
     match newDate (endTime task) with
     | Some taskEnd =>
         addBufferTime_body (length acc) acc task =
           Return (moved finish start task taskEnd)
     | None =>
         addBufferTime_body (length acc) acc task = Throw "Invalid time value"
     end).
Proof.
  intros Hlast.
  assert (Hi : (0 < length acc)%nat).
  { destruct acc; [ discriminate | simpl; lia ]. }
  assert (Hprev : acc !! (length acc - 1)%nat = Some prevTask).
  { rewrite last_lookup in Hlast.
    replace (length acc - 1)%nat with (Nat.pred (length acc)) by lia. exact Hlast. }
  unfold addBufferTime_body.
  destruct (Nat.ltb_spec 0 (length acc)) as [ _ | ? ]; [ | lia ].
  rewrite Hprev. fold (tooEarly prevTask task).
  destruct (tooEarly prevTask task) eqn:Hearly; [ right | by left ].
  apply tooEarly_true in Hearly as (finish & start & Hf & Hs & Hlt).
  exists finish, start. repeat split; try assumption.
  rewrite Hf, Hs, addHours_bufferMinutes.
  destruct (newDate (endTime task)) as [taskEnd | ]; reflexivity.
Qed.

Lemma addBufferTime_body_first task :
  addBufferTime_body 0 [] task = Return task.
Proof. reflexivity. Qed.

Lemma shifted_refl task : shifted task task.
Proof. repeat split; by left. Qed.

Lemma addBufferTime_body_shifted acc task task' :
  addBufferTime_body (length acc) acc task = Return task' -> shifted task task'.
Proof.
  destruct (last acc) as [prevTask | ] eqn:Hlast.
  - destruct (addBufferTime_body_cases acc prevTask task Hlast)
      as [[_ ->] | (finish & start & Hf & Hs & Hlt & H)].
    + intros [= <-]. apply shifted_refl.
    + destruct (newDate (endTime task)) as [taskEnd | ] eqn:He;
        rewrite H; [ | discriminate ].
      intros [= <-]. repeat split; try reflexivity.
      right. exists start, taskEnd, (finish + 15 * 60 * 1000).
      repeat split; try assumption.
  - apply last_None in Hlast as ->. intros [= <-]. apply shifted_refl.
Qed.

(** The body goes through for a task that has an end when it has a
    start. *)
Lemma addBufferTime_body_returns acc task :
  (dated (startTime task) -> dated (endTime task)) ->
  exists task', addBufferTime_body (length acc) acc task = Return task'.
Proof.
  intros Hends. destruct (last acc) as [prevTask | ] eqn:Hlast.
  - destruct (addBufferTime_body_cases acc prevTask task Hlast)
      as [[_ ->] | (finish & start & Hf & Hs & Hlt & H)]; [ eauto | ].
    destruct Hends as [taskEnd He]; [ by exists start | ].
    rewrite He in H. eauto.
  - apply last_None in Hlast as ->. eauto.
Qed.

Lemma addBufferTime_loop_snoc schedule : forall acc out,
  addBufferTime_loop (length acc) acc schedule = Return out ->
  exists out', out = acc ++ out' /\ Forall2 shifted schedule out'.
Proof.
  induction schedule as [ | task rest IH ]; intros acc out; simpl.
  - intros [= <-]. exists []. split; [ by rewrite app_nil_r | constructor ].
  - destruct (addBufferTime_body (length acc) acc task) as [task' | ] eqn:Hbody;
      simpl; [ | discriminate ].
    intros Hloop.
    destruct (IH (acc ++ [task']) out) as (out' & -> & Hall).
    { rewrite length_app. simpl.
      by replace (length acc + 1)%nat with (S (length acc)) by lia. }
    exists (task' :: out'). split; [ by rewrite <- app_assoc | ].
    constructor; [ by eapply addBufferTime_body_shifted | exact Hall ].
Qed.

Lemma addBufferTime_shifted schedule out :
  addBufferTime schedule = Return out -> Forall2 shifted schedule out.
Proof.
  intros H. destruct (addBufferTime_loop_snoc schedule [] out H) as (out' & -> & Hall).
  exact Hall.
Qed.

Lemma addBufferTime_loop_returns schedule : forall acc,
  Forall (fun task => dated (startTime task) -> dated (endTime task)) schedule ->
  exists out, addBufferTime_loop (length acc) acc schedule = Return out.
Proof.
  induction schedule as [ | task rest IH ]; intros acc Hall; simpl; [ eauto | ].
  inversion Hall as [ | ? ? Htask Hrest ]; subst.
  destruct (addBufferTime_body_returns acc task Htask) as (task' & ->). simpl.
  specialize (IH (acc ++ [task']) Hrest).
  rewrite length_app in IH. simpl in IH.
  by replace (length acc + 1)%nat with (S (length acc)) in IH by lia.
Qed.

(** The task that the body hands on stands a buffer behind the previous
    task, where both have dates. *)
Lemma addBufferTime_body_gap acc prevTask task task' :
  last acc = Some prevTask ->
  addBufferTime_body (length acc) acc task = Return task' ->
  tooEarly prevTask task' = false.
Proof.
  intros Hlast.
  destruct (addBufferTime_body_cases acc prevTask task Hlast)
    as [[Hok ->] | (finish & start & Hf & Hs & Hlt & H)].
  - by intros [= <-].
  - destruct (newDate (endTime task)) as [taskEnd | ]; rewrite H; [ | discriminate ].
    intros [= <-]. apply tooEarly_false. intros f s Hf'. simpl.
    intros [= <-]. rewrite Hf in Hf'. injection Hf' as <-. lia.
Qed.

Lemma separated_tooEarly l :
  separated l <->
  forall j a b, l !! j = Some a -> l !! S j = Some b -> tooEarly a b = false.
Proof.
  split.
  - intros H j a b Ha Hb. apply tooEarly_false. intros finish start Hf Hs.
    by apply (H j a b finish start).
  - intros H j a b finish start Ha Hb Hf Hs.
    by apply (proj1 (tooEarly_false a b) (H j a b Ha Hb)).
Qed.

Lemma separated_snoc acc task task' :
  separated acc ->
  addBufferTime_body (length acc) acc task = Return task' ->
  separated (acc ++ [task']).
Proof.
  rewrite !separated_tooEarly. intros Hacc Hbody j a b Ha Hb.
  destruct (decide (S j < length acc)%nat) as [Hlt | Hge].
  - rewrite lookup_app_l in Ha by lia. rewrite lookup_app_l in Hb by lia.
    eauto.
  - destruct (decide (S j = length acc)) as [Heq | Hne].
    + rewrite lookup_app_l in Ha by lia.
      rewrite lookup_app_r in Hb by lia.
      replace (S j - length acc)%nat with 0%nat in Hb by lia.
      simpl in Hb. injection Hb as <-.
      eapply addBufferTime_body_gap; [ | exact Hbody ].
      rewrite last_lookup. by replace (Nat.pred (length acc)) with j by lia.
    + apply lookup_lt_Some in Hb. rewrite length_app in Hb. simpl in Hb. lia.
Qed.

Lemma addBufferTime_loop_separated schedule : forall acc out,
  separated acc ->
  addBufferTime_loop (length acc) acc schedule = Return out ->
  separated out.
Proof.
  induction schedule as [ | task rest IH ]; intros acc out Hacc; simpl.
  - by intros [= <-].
  - destruct (addBufferTime_body (length acc) acc task) as [task' | ] eqn:Hbody;
      simpl; [ | discriminate ].
    intros Hloop. apply (IH (acc ++ [task'])).
    + by eapply separated_snoc.
    + rewrite length_app. simpl.
      by replace (length acc + 1)%nat with (S (length acc)) by lia.
Qed.

(** After the buffer pass two consecutive tasks are a buffer apart where the
    end of the first and the start of the second are dates. *)
Lemma addBufferTime_separated schedule out :
  addBufferTime schedule = Return out -> separated out.
Proof.
  apply (addBufferTime_loop_separated schedule []).
  intros j a b finish start Ha. by rewrite lookup_nil in Ha.
Qed.

Lemma shifted_scheduled a b : shifted a b -> scheduled a -> scheduled b.
Proof.
  unfold scheduled, dated.
  intros (_ & _ & _ & _ & [[-> ->] | (s & e & s' & _ & _ & _ & -> & ->)]) H.
  - exact H.
  - split; eexists; reflexivity.
Qed.

Lemma separated_buffered l : separated l -> Forall scheduled l -> buffered l.
Proof.
  intros Hsep Hall j a b Ha Hb.
  destruct (proj1 (Forall_lookup _ _) Hall _ _ Ha) as [_ [finish Hf]].
  destruct (proj1 (Forall_lookup _ _) Hall _ _ Hb) as [[start Hs] _].
  exists finish, start. repeat split; try assumption.
  by apply (Hsep j a b).
Qed.

(** On tasks that all have a start and an end the pass goes through, leaves
    every two consecutive tasks at least 15 minutes apart and gives every
    task the duration that it had. *)
Lemma addBufferTime_scheduled (schedule : list ScheduleEntry) :
  Forall scheduled schedule ->
  exists out,
    addBufferTime schedule = Return out /\
    buffered out /\
    Forall scheduled out /\
    Forall2 (fun a b => minus (newDate (endTime b)) (newDate (startTime b)) =
                        minus (newDate (endTime a)) (newDate (startTime a)))
      schedule out.
Proof.
  intros Hall.
  destruct (addBufferTime_loop_returns schedule []) as (out & Hout).
  { eapply Forall_impl; [ exact Hall | ]. by intros task [_ He] _. }
  exists out. pose proof (addBufferTime_shifted schedule out Hout) as Hshift.
  assert (Hsched : Forall scheduled out).
  { clear Hout. induction Hshift as [ | a b l l' Hab _ IH ]; [ constructor | ].
    inversion Hall; subst. constructor; [ by eapply shifted_scheduled | by apply IH ]. }
  repeat split; try assumption.
  - apply separated_buffered; [ by eapply addBufferTime_separated | exact Hsched ].
  - eapply Forall2_impl; [ exact Hshift | ].
    intros a b (_ & _ & _ & _ & [[-> ->] | (s & e & s' & Hs & He & _ & -> & ->)]);
      [ reflexivity | ].
    rewrite Hs, He. simpl. f_equal. lia.
Qed.

(** The pass returns whenever every task that has a start has an end. *)
Lemma addBufferTime_returns (schedule : list ScheduleEntry) :
  Forall (fun task => dated (startTime task) -> dated (endTime task)) schedule ->
  exists out, addBufferTime schedule = Return out.
Proof. apply (addBufferTime_loop_returns schedule []). Qed.

(** C10: the buffer pass returns as many entries as it is given, the same
    entries in the same order, and no entry starts earlier than it did: an
    entry keeps its start, or it had a date for its start and has a later
    one. The pass returns whenever every task that has a start has an
    end. *)
Theorem addBufferTime_keeps_entries (schedule : list ScheduleEntry) :
  (Forall (fun task => dated (startTime task) -> dated (endTime task)) schedule ->
   exists out, addBufferTime schedule = Return out) /\
  forall out, addBufferTime schedule = Return out ->
    length out = length schedule /\
    Forall2 (fun a b =>
               taskId b = taskId a /\ title b = title a /\
               priority b = priority a /\ reason b = reason a /\
               (startTime b = startTime a \/
                exists start start',
                  newDate (startTime a) = Some start /\
                  newDate (startTime b) = Some start' /\
                  start <= start'))
      schedule out.
Proof.
  split; [ apply addBufferTime_returns | ].
  intros out Hout. pose proof (addBufferTime_shifted schedule out Hout) as H. split.
  - symmetry. eapply Forall2_length, H.
  - eapply Forall2_impl; [ exact H | ].
    intros a b (? & ? & ? & ? & [[? _] | (s & e & s' & Hs & _ & Hlt & Hb & _)]);
      repeat split; try assumption; [ by left | ].
    right. exists s, s'. rewrite Hb. repeat split; [ assumption | lia ].
Qed.

End BufferTime.

(** C3: the reviewer learns the productive hour of a day; on the slot that
    it stores the slot pass hands the two High tasks of a plan to the
    buffer pass without a start and without an end, and the buffer pass
    returns them as they are. The two tasks, from 9:00 to 10:00 and from
    9:30 to 10:30 in the plan, are not 15 minutes apart in what the
    optimizer returns, and they have no duration. *)
Theorem addBufferTime_after_the_slot_pass :
  let learned := Learning.updateProductiveTimeSlots None ["9:00-10:00"] in
  let input := Optimizer.optimizeForProductiveTimeSlots [standup; report] learned in
  learned = [ {| Learning.time := "9:00-10:00"; Learning.weight := 1 |} ] /\
  input =
    [ untimed standup "Scheduled during productive time slot: peak hours";
      untimed report "Scheduled during productive time slot: deadline" ] /\
  addBufferTime input = Return input /\
  ~ buffered input /\
  Forall (fun task => minus (newDate (endTime task)) (newDate (startTime task)) = None)
    input /\
  Optimizer.optimizePlan [standup; report]
    {| Optimizer.productiveTimeSlots := Some learned;
       Optimizer.taskTypeEfficiency := None |} =
  Return {| Optimizer.optimizedSchedule := input;
            Optimizer.optimizations :=
              [ "Applied productive time slot optimization";
                "Added buffer time between tasks" ] |}.
Proof.
  cbv zeta. repeat split.
  - intros H. destruct (H 0%nat _ _ eq_refl eq_refl) as (finish & start & Hf & _).
    discriminate Hf.
  - repeat constructor.
Qed.

(** ** Conflict resolution *)

Section ConflictResolution.

Variable analyzeConflict : nat -> ConflictData -> option Resolution.
Variable latestData : LatestData.

Abbreviation body := (resolveConflicts_body analyzeConflict latestData).
Abbreviation from := (resolveConflicts_from analyzeConflict latestData).
Abbreviation run := (resolveConflicts analyzeConflict latestData).

(** The question that the loop asks the oracle about a conflict. *)
Abbreviation question st conflict :=
  {| cd_conflict := conflict; cd_schedule := updatedSchedule st;
     cd_calendarEvents := calendarEvents latestData;
     cd_weatherData := weatherData latestData |}.

Lemma Qgtb_true (x y : Q) : Qgtb x y = true <-> (y < x)%Q.
Proof.
  unfold Qgtb. rewrite Qgt_alt.
  destruct (x ?= y)%Q; split; congruence.
Qed.

Lemma Qgtb_false (x y : Q) : Qgtb x y = false <-> (x <= y)%Q.
Proof.
  unfold Qgtb. rewrite Qle_alt.
  destruct (x ?= y)%Q; split; congruence.
Qed.

Lemma confident_Some res r :
  confident res = Some r <->
  res = Some r /\ exists c, confidence r = Some c /\ (0.7 < c)%Q.
Proof.
  unfold confident. split.
  - destruct res as [r' | ]; [ | discriminate ].
    destruct (confidence r') as [c | ] eqn:Hc; [ | discriminate ].
    destruct (Qgtb c conflictThreshold) eqn:Hgt; [ | discriminate ].
    intros [= <-]. split; [ reflexivity | ].
    exists c. split; [ exact Hc | by apply Qgtb_true ].
  - intros (-> & c & Hc & Hlt). rewrite Hc.
    apply Qgtb_true in Hlt. unfold conflictThreshold. by rewrite Hlt.
Qed.

Lemma confident_None res :
  confident res = None <->
  res = None \/
  exists r, res = Some r /\
            (confidence r = None \/ exists c, confidence r = Some c /\ (c <= 0.7)%Q).
Proof.
  unfold confident. split.
  - destruct res as [r | ]; [ | by left ].
    intros H. right. exists r. split; [ reflexivity | ].
    destruct (confidence r) as [c | ]; [ | by left ].
    right. exists c. split; [ reflexivity | ].
    destruct (Qgtb c conflictThreshold) eqn:Hgt; [ discriminate | ].
    by apply Qgtb_false.
  - intros [-> | (r & -> & [-> | (c & -> & Hle)])]; try reflexivity.
    apply Qgtb_false in Hle. unfold conflictThreshold. by rewrite Hle.
Qed.

(** An iteration that goes through: the resolution passes the test, is
    applied and logged, or it does not pass and nothing changes but the
    list of records. *)
Lemma body_Return st conflict table st' saved :
  body st conflict table = (Return st', saved) ->
  let reply := analyzeConflict (length (resolvedConflicts st)) (question st conflict) in
  (exists r,
     confident reply = Some r /\
     applyConflictResolution (updatedSchedule st) r = Return (updatedSchedule st') /\
     resolvedConflicts st' = resolvedConflicts st ++ [appliedRecord conflict r] /\
     saved = table ++ omap loggedRow [appliedRecord conflict r] /\
     is_Some (loggedRow (appliedRecord conflict r))) \/
  (confident reply = None /\
   updatedSchedule st' = updatedSchedule st /\
   resolvedConflicts st' = resolvedConflicts st ++ [unresolved conflict] /\
   saved = table).
Proof.
  unfold resolveConflicts_body. cbv zeta.
  destruct (confident _) as [r | ] eqn:Hconf.
  - destruct (applyConflictResolution (updatedSchedule st) r) as [updated | ] eqn:Happly;
      [ | discriminate ].
    unfold saveConflictResolution.
    destruct (type conflict) as [conflictType | ] eqn:Htype; [ | discriminate ].
    intros [= <- <-]. left. exists r. simpl.
    unfold loggedRow. simpl. rewrite Htype. simpl. repeat split; eauto.
  - intros [= <- <-]. right. repeat split.
Qed.

(** An iteration goes through when the tasks have dates, the conflict has a
    type and the new time is a date. *)
Lemma applyConflictResolution_returns schedule r :
  Forall scheduled schedule -> dated (newTime r) ->
  exists updated,
    applyConflictResolution schedule r = Return updated /\ Forall scheduled updated.
Proof.
  intros Hall [t Ht]. unfold applyConflictResolution.
  destruct (String.eqb (resolution r) "move_task");
    [ | destruct (String.eqb (resolution r) "split_task");
        [ | destruct (String.eqb (resolution r) "reschedule_event") ]; eauto ].
  destruct (findIndex _ schedule) as [taskIndex | ]; [ | eauto ].
  destruct (schedule !! taskIndex) as [task | ] eqn:Htask; [ | eauto ].
  destruct (proj1 (Forall_lookup _ _) Hall _ _ Htask) as [[s Hs] [e He]].
  rewrite Ht, Hs, He. simpl. eexists. split; [ reflexivity | ].
  apply Forall_insert; [ exact Hall | ].
  split; simpl; [ by exists t | eexists; reflexivity ].
Qed.

Lemma body_returns st conflict table :
  Forall scheduled (updatedSchedule st) ->
  is_Some (type conflict) ->
  (forall n q r, analyzeConflict n q = Some r -> dated (newTime r)) ->
  exists st' saved,
    body st conflict table = (Return st', saved) /\
    Forall scheduled (updatedSchedule st').
Proof.
  intros Hall [conflictType Htype] Horacle. unfold resolveConflicts_body. cbv zeta.
  destruct (confident _) as [r | ] eqn:Hconf; [ | eauto ].
  apply confident_Some in Hconf as (Hreply & _).
  destruct (applyConflictResolution_returns (updatedSchedule st) r Hall)
    as (updated & -> & Hupdated); [ by eapply Horacle | ].
  rewrite Htype. simpl. eauto.
Qed.

Lemma from_returns conflicts : forall st table,
  Forall scheduled (updatedSchedule st) ->
  Forall (fun conflict => is_Some (type conflict)) conflicts ->
  (forall n q r, analyzeConflict n q = Some r -> dated (newTime r)) ->
  exists out saved,
    from st conflicts table = (Return out, saved) /\
    Forall scheduled (updatedSchedule out).
Proof.
  induction conflicts as [ | conflict rest IH ]; intros st table Hall Htypes Horacle;
    simpl; [ eauto | ].
  inversion Htypes; subst.
  destruct (body_returns st conflict table) as (st' & saved & -> & Hall'); try assumption.
  by apply IH.
Qed.

(** Whether it goes through or not, the loop leaves the rows of the table
    where they are and adds rows after them. *)
Lemma from_rows conflicts : forall st table outcome saved,
  from st conflicts table = (outcome, saved) ->
  exists rows, saved = table ++ rows.
Proof.
  induction conflicts as [ | conflict rest IH ]; intros st table outcome saved; simpl.
  - intros [= <- <-]. exists []. by rewrite app_nil_r.
  - destruct (body st conflict table) as [[st' | message] saved'] eqn:Hbody.
    + intros Hrest. destruct (IH _ _ _ _ Hrest) as (rows & ->).
      apply body_Return in Hbody as [(r & _ & _ & _ & -> & _) | (_ & _ & _ & ->)].
      * eexists. by rewrite <- app_assoc.
      * by exists rows.
    + intros [= <- <-]. unfold resolveConflicts_body in Hbody. cbv zeta in Hbody.
      destruct (confident _) as [r | ]; [ | discriminate ].
      destruct (applyConflictResolution _ r);
        [ destruct (saveConflictResolution _ _ _ _ _ _); [ discriminate | ] | ];
        injection Hbody as _ <-; exists []; by rewrite app_nil_r.
Qed.

Lemma from_app cs1 : forall st cs2 table,
  from st (cs1 ++ cs2) table =
  match from st cs1 table with
  | (Return st', saved) => from st' cs2 saved
  | (Throw message, saved) => (Throw message, saved)
  end.
Proof.
  induction cs1 as [ | conflict cs1 IH ]; intros st cs2 table; simpl; [ reflexivity | ].
  destruct (body st conflict table) as [[st' | message] saved]; [ apply IH | reflexivity ].
Qed.

(** A run that goes through has gone through each of its iterations. *)
Lemma from_take cs i st table out saved :
  from st cs table = (Return out, saved) ->
  exists st' saved',
    from st (take i cs) table = (Return st', saved') /\
    from st' (drop i cs) saved' = (Return out, saved).
Proof.
  rewrite <- (take_drop i cs) at 1. rewrite from_app.
  destruct (from st (take i cs) table) as [[st' | message] saved'];
    [ eauto | discriminate ].
Qed.

(** What a run that goes through leaves: a record for each conflict, and a
    row for each record that has a resolution. *)
Lemma from_log cs : forall st table out saved,
  from st cs table = (Return out, saved) ->
  exists rcs,
    resolvedConflicts out = resolvedConflicts st ++ rcs /\
    saved = table ++ omap loggedRow rcs /\
    map originalConflict rcs = cs /\
    Forall (fun rc => (applied rc = true -> is_Some (loggedRow rc)) /\
                      (applied rc = false -> loggedRow rc = None)) rcs.
Proof.
  induction cs as [ | conflict cs IH ]; intros st table out saved; simpl.
  - intros [= <- <-]. exists []. simpl. by rewrite !app_nil_r.
  - destruct (body st conflict table) as [[st' | message] saved'] eqn:Hbody;
      [ | discriminate ].
    intros Hrest. destruct (IH _ _ _ _ Hrest) as (rcs & Hres & Hlog & Hmap & Hall).
    apply body_Return in Hbody
      as [(r & _ & _ & Hrc & Hrow & Hsome) | (_ & _ & Hrc & Hrow)].
    + exists (appliedRecord conflict r :: rcs).
      rewrite Hres, Hlog, Hrc, Hrow, <- !app_assoc.
      repeat split; try reflexivity.
      * by rewrite <- omap_app.
      * simpl. by rewrite Hmap.
      * constructor; [ | exact Hall ]. split; [ done | discriminate ].
    + exists (unresolved conflict :: rcs).
      rewrite Hres, Hlog, Hrc, Hrow, <- !app_assoc.
      repeat split; try reflexivity.
      * simpl. by rewrite Hmap.
      * constructor; [ | exact Hall ]. split; [ discriminate | done ].
Qed.

Lemma from_length cs st table out saved :
  from st cs table = (Return out, saved) ->
  length (resolvedConflicts out) =
  (length (resolvedConflicts st) + length cs)%nat.
Proof.
  intros H. destruct (from_log cs st table out saved H) as (rcs & -> & _ & <- & _).
  by rewrite length_app, length_map.
Qed.

Lemma from_lookup_old cs st table out saved j :
  from st cs table = (Return out, saved) ->
  (j < length (resolvedConflicts st))%nat ->
  resolvedConflicts out !! j = resolvedConflicts st !! j.
Proof.
  intros H Hj. destruct (from_log cs st table out saved H) as (rcs & -> & _).
  by apply lookup_app_l.
Qed.

(** Conflict resolution on a plan with a schedule is the loop. *)
Lemma resolveConflicts_from_schedule aiPlan tasks table :
  schedule aiPlan = Some tasks ->
  run aiPlan table =
  from {| updatedSchedule := tasks; resolvedConflicts := [] |}
    (default [] (conflicts_detected aiPlan)) table.
Proof. intros H. unfold resolveConflicts, entering. by rewrite H. Qed.

Lemma resolveConflicts_Return aiPlan table out saved :
  run aiPlan table = (Return out, saved) ->
  exists tasks, schedule aiPlan = Some tasks.
Proof.
  unfold resolveConflicts, entering.
  destruct (schedule aiPlan) as [tasks | ]; [ eauto | discriminate ].
Qed.

(** Conflict resolution goes through on a plan whose tasks have dates and
    whose conflicts have a type, when the new times of the oracle are
    dates. *)
Lemma resolveConflicts_returns aiPlan table :
  wellFormed analyzeConflict aiPlan ->
  exists out saved, run aiPlan table = (Return out, saved).
Proof.
  intros ((tasks & Htasks & Hall) & Htypes & Horacle).
  rewrite (resolveConflicts_from_schedule aiPlan tasks table Htasks).
  destruct (from_returns (default [] (conflicts_detected aiPlan))
              {| updatedSchedule := tasks; resolvedConflicts := [] |} table)
    as (out & saved & Hrun & _); eauto.
Qed.

(** C1: every detected conflict has its record in the returned list, in
    order. The resolution of the oracle is applied to the schedule exactly
    when it is not null and its confidence is above 0.7, and the record
    then says [applied: true]; otherwise the schedule is left as it is and
    the record of the conflict says [applied: false]. [before] and [after]
    are the variables of the loop before and after the iteration of the
    conflict. Conflict resolution returns whenever the tasks of the plan
    have dates, its conflicts have a type and the new times of the oracle
    are dates. *)
Theorem resolveConflicts_confidence_gate (aiPlan : AiPlan)
    (table : list ConflictResolutionRow) :
  let conflicts := default [] (conflicts_detected aiPlan) in
  (wellFormed analyzeConflict aiPlan ->
   exists out saved, run aiPlan table = (Return out, saved)) /\
  forall out saved, run aiPlan table = (Return out, saved) ->
    length (resolvedConflicts out) = length conflicts /\
    forall i conflict, conflicts !! i = Some conflict ->
      exists before after,
        (run (firstConflicts i aiPlan) table).1 = Return before /\
        (run (firstConflicts (S i) aiPlan) table).1 = Return after /\
        let reply := analyzeConflict i (question before conflict) in
        (exists r c,
            reply = Some r /\ confidence r = Some c /\ (0.7 < c)%Q /\
            applyConflictResolution (updatedSchedule before) r =
              Return (updatedSchedule after) /\
            resolvedConflicts out !! i =
              Some {| originalConflict := conflict; rc_resolution := Some r;
                      applied := true |})
        \/
        ((reply = None \/
          exists r, reply = Some r /\
                    (confidence r = None \/
                     exists c, confidence r = Some c /\ (c <= 0.7)%Q)) /\
         updatedSchedule after = updatedSchedule before /\
         resolvedConflicts out !! i =
           Some {| originalConflict := conflict; rc_resolution := None;
                   applied := false |}).
Proof.
  intros conflicts. split; [ apply resolveConflicts_returns | ].
  intros out saved Hrun.
  destruct (resolveConflicts_Return _ _ _ _ Hrun) as (tasks & Htasks).
  rewrite (resolveConflicts_from_schedule aiPlan tasks table Htasks) in Hrun.
  fold conflicts in Hrun.
  set (st0 := {| updatedSchedule := tasks; resolvedConflicts := [] |}) in *.
  split; [ by rewrite (from_length _ _ _ _ _ Hrun) | ].
  intros i conflict Hi.
  destruct (from_take conflicts (S i) st0 table out saved Hrun)
    as (after & savedAfter & Hafter & Hrest).
  destruct (from_take (take (S i) conflicts) i st0 table after savedAfter Hafter)
    as (before & savedBefore & Hbefore & Hstep).
  rewrite take_take in Hbefore. replace (i `min` S i)%nat with i in Hbefore by lia.
  rewrite (take_S_r _ _ _ Hi), drop_app_length' in Hstep
    by (rewrite length_take; apply lookup_lt_Some in Hi; lia).
  simpl in Hstep.
  destruct (body before conflict savedBefore) as [[st' | message] saved'] eqn:Hbody;
    [ | discriminate ].
  injection Hstep as -> ->.
  assert (Hlen : length (resolvedConflicts before) = i).
  { rewrite (from_length _ _ _ _ _ Hbefore). simpl.
    rewrite length_take. apply lookup_lt_Some in Hi. lia. }
  exists before, after. split; [ | split ].
  - rewrite (resolveConflicts_from_schedule (firstConflicts i aiPlan) tasks table Htasks).
    change ((from st0 (take i conflicts) table).1 = Return before).
    by rewrite Hbefore.
  - rewrite (resolveConflicts_from_schedule (firstConflicts (S i) aiPlan) tasks table
               Htasks).
    change ((from st0 (take (S i) conflicts) table).1 = Return after).
    by rewrite Hafter.
  - assert (Hout : resolvedConflicts out !! i = resolvedConflicts after !! i).
    { apply (from_lookup_old _ _ _ _ _ _ Hrest).
      rewrite (from_length _ _ _ _ _ Hafter). simpl.
      rewrite length_take. apply lookup_lt_Some in Hi. lia. }
    rewrite Hout. apply body_Return in Hbody. rewrite Hlen in Hbody.
    destruct Hbody as [(r & Hconf & Happly & Hrc & _) | (Hconf & Hsched & Hrc & _)];
      rewrite Hrc, lookup_app_r, Hlen, Nat.sub_diag by lia.
    + apply confident_Some in Hconf as (Hreply & c & Hc & Hlt).
      left. exists r, c. repeat split; assumption.
    + apply confident_None in Hconf. right. repeat split; assumption.
Qed.

(** C4, amended: the resolution log receives one row, with the original
    conflict and the new time and reason, for each conflict whose
    resolution is applied, in order, and no row for a conflict whose
    resolution is rejected or null: such a conflict is recorded in the
    returned list only, with [applied: false]. Conflict resolution returns
    whenever the tasks of the plan have dates, its conflicts have a type
    and the new times of the oracle are dates. *)
Theorem resolveConflicts_logs_applied_only (aiPlan : AiPlan)
    (table : list ConflictResolutionRow) :
  (wellFormed analyzeConflict aiPlan ->
   exists out saved, run aiPlan table = (Return out, saved)) /\
  forall out saved, run aiPlan table = (Return out, saved) ->
    saved = table ++ omap loggedRow (resolvedConflicts out) /\
    map originalConflict (resolvedConflicts out) =
      default [] (conflicts_detected aiPlan) /\
    Forall (fun rc => (applied rc = true -> is_Some (loggedRow rc)) /\
                      (applied rc = false -> loggedRow rc = None))
      (resolvedConflicts out).
Proof.
  split; [ apply resolveConflicts_returns | ].
  intros out saved Hrun.
  destruct (resolveConflicts_Return _ _ _ _ Hrun) as (tasks & Htasks).
  rewrite (resolveConflicts_from_schedule aiPlan tasks table Htasks) in Hrun.
  destruct (from_log _ _ _ _ _ Hrun) as (rcs & Hres & Hlog & Hmap & Hall).
  simpl in Hres. rewrite Hres. done.
Qed.

End ConflictResolution.

(** C4, as stated, fails: a conflict whose resolution has confidence 0.5 is
    recorded in the returned list with [applied: false], and nothing is
    written to the resolution log. *)
Lemma rejected_resolution_is_not_logged :
  exists out saved,
    resolveConflicts (fun _ _ => Some hesitantResolution) noData
      {| schedule := Some []; conflicts_detected := Some [overlapConflict];
         recommendations := None |} [] = (Return out, saved) /\
    resolvedConflicts out =
      [ {| originalConflict := overlapConflict; rc_resolution := None;
           applied := false |} ] /\
    ~ (exists row, row ∈ saved /\ row_original row = overlapConflict).
Proof.
  eexists _, _. split; [ reflexivity | ]. split; [ reflexivity | ].
  intros (row & Hin & _). by apply elem_of_nil in Hin.
Qed.

(** ** Plan generation *)

Section PlanGeneration.

Import AIService.

Variable JSON_parse : string -> option AiPlan.

(** C6, amended: when the reply of the oracle holds no text between braces,
    or holds one that [JSON.parse] rejects, plan generation returns an
    empty schedule with no conflict and a single recommendation that flags
    the failure, and conflict resolution and the buffer pass go through on
    it, asking the oracle nothing and writing nothing. When the call to the
    oracle itself fails, [generateTaskPlan] throws. *)
Theorem generateTaskPlan_soft_failure (text : string)
    (Hbad : matchBraces text = None \/
            exists m, matchBraces text = Some m /\ JSON_parse m = None) :
  (exists flag,
     (flag = "Failed to parse AI response" \/ flag = "Error parsing AI response") /\
     generateTaskPlan JSON_parse (Return text) =
       Return {| schedule := Some []; conflicts_detected := Some [];
                 recommendations := Some [flag] |} /\
     forall analyzeConflict latestData table,
       resolveConflicts analyzeConflict latestData
         {| schedule := Some []; conflicts_detected := Some [];
            recommendations := Some [flag] |} table =
       (Return {| updatedSchedule := []; resolvedConflicts := [] |}, table)) /\
  addBufferTime [] = Return [] /\
  forall message,
    generateTaskPlan JSON_parse (Throw message) = Throw "Failed to generate AI plan".
Proof.
  split; [ | split; reflexivity ].
  unfold generateTaskPlan, parsePlanningResponse.
  destruct Hbad as [-> | (m & -> & ->)]; eexists;
    (split; [ | split; reflexivity ]); auto.
Qed.

End PlanGeneration.

(** C6 holds of the text "no plan today", which has no braces. *)
Lemma generateTaskPlan_soft_failure_witness :
  (exists flag,
     (flag = "Failed to parse AI response" \/ flag = "Error parsing AI response") /\
     AIService.generateTaskPlan (fun _ => None) (Return "no plan today") =
       Return {| schedule := Some []; conflicts_detected := Some [];
                 recommendations := Some [flag] |} /\
     forall analyzeConflict latestData table,
       resolveConflicts analyzeConflict latestData
         {| schedule := Some []; conflicts_detected := Some [];
            recommendations := Some [flag] |} table =
       (Return {| updatedSchedule := []; resolvedConflicts := [] |}, table)) /\
  addBufferTime [] = Return [] /\
  forall message,
    AIService.generateTaskPlan (fun _ => None) (Throw message) =
    Throw "Failed to generate AI plan".
Proof.
  apply (generateTaskPlan_soft_failure (fun _ => None) "no plan today").
  left. reflexivity.
Defined.

(** C6, as stated, fails: when the oracle cannot be reached, plan generation
    does not return an empty schedule, it throws. *)
Lemma unreachable_oracle_throws :
  AIService.generateTaskPlan (fun _ => None) (Throw "fetch failed") =
    Throw "Failed to generate AI plan" /\
  ~ (exists plan,
       AIService.generateTaskPlan (fun _ => None) (Throw "fetch failed") =
       Return plan).
Proof.
  split; [ reflexivity | ]. intros (plan & H). discriminate H.
Qed.

(** ** Completion rates *)

Section CompletionRates.

Import Reviewer.

(** The rate stored for a priority after [updateCompletionRates]: the
    stored rates of the priorities that the period does not have are kept;
    for a priority of the period the new rate is blended with the stored
    one when there is one and it is not zero, and adopted otherwise. *)
Lemma updateCompletionRates_lookup (current : option (gmap string Q))
    (performanceData : PerformanceData) (priority : string) :
  updateCompletionRates current performanceData !! priority =
  match priorityStatsOf performanceData !! priority with
  | None => default ∅ current !! priority
  | Some stats =>
      match default ∅ current !! priority with
      | Some previous =>
          if truthy previous
          then Some (previous * 0.7 + newRate stats * 0.3)%Q
          else Some (newRate stats)
      | None => Some (newRate stats)
      end
  end.
Proof.
  unfold updateCompletionRates. revert priority.
  apply (map_fold_weak_ind
           (fun (updated : gmap string Q) (m : gmap string PriorityStat) =>
              forall priority : string,
                updated !! priority =
                match m !! priority with
                | None => default ∅ current !! priority
                | Some stats =>
                    match default ∅ current !! priority with
                    | Some previous =>
                        if truthy previous
                        then Some (previous * 0.7 + newRate stats * 0.3)%Q
                        else Some (newRate stats)
                    | None => Some (newRate stats)
                    end
                end)).
  - intros priority. by rewrite lookup_empty.
  - intros i stats m updated Hfresh IH priority.
    pose proof (IH i) as Hi. rewrite Hfresh in Hi.
    unfold blendRate. rewrite Hi.
    destruct (decide (i = priority)) as [<- | Hne].
    + rewrite lookup_insert_eq.
      destruct (default ∅ current !! i) as [previous | ];
        [ destruct (truthy previous) | ]; by rewrite lookup_insert_eq.
    + rewrite (lookup_insert_ne m) by done.
      destruct (default ∅ current !! i) as [previous | ];
        [ destruct (truthy previous) | ];
        rewrite lookup_insert_ne by done; apply IH.
Qed.

(** Blending a rate with itself gives the rate back. *)
Lemma blend_fixed_point (r : Q) : (r * 0.7 + r * 0.3 == r)%Q.
Proof. ring. Qed.

End CompletionRates.

(** C7: after a first day that leaves the rate 0 for High, a day of rate 1
    stores 1 for High, where the blend of the stored 0 and the new 1 is
    0.3. *)
Theorem updateCompletionRates_zero_history :
  let firstDay := Reviewer.updateCompletionRates None dayOfMisses in
  let secondDay := Reviewer.updateCompletionRates (Some firstDay) dayOfSuccess in
  (exists previous, firstDay !! "High" = Some previous /\ (previous == 0)%Q) /\
  (exists stored, secondDay !! "High" = Some stored /\ (stored == 1)%Q /\
                  ~ (stored == 0 * 0.7 + 1 * 0.3)%Q).
Proof.
  split.
  - eexists. split; [ vm_compute; reflexivity | reflexivity ].
  - eexists. split; [ vm_compute; reflexivity | ]. split; [ reflexivity | ].
    intros H. discriminate H.
Qed.

(** ** Adaptation of the preferences *)

Lemma Qltb_true (x y : Q) : Qltb x y = true <-> (x < y)%Q.
Proof.
  unfold Qltb. rewrite Qlt_alt.
  destruct (x ?= y)%Q; split; congruence.
Qed.

Lemma Qltb_false (x y : Q) : Qltb x y = false <-> (y <= x)%Q.
Proof.
  unfold Qltb. change (y <= x)%Q with (x >= y)%Q. rewrite Qge_alt.
  destruct (x ?= y)%Q; split; congruence.
Qed.

Section Adaptation.

Import Reviewer.

Lemma adaptMaxDailyTasks_bounded (rate : Q) (m : Z) :
  3 <= m <= 12 ->
  exists m', spread (Some m) (adaptMaxDailyTasks rate (Some m)) = Some m' /\
             3 <= m' <= 12 /\
             ((rate < 0.7)%Q -> m' = Z.max 3 (m - 1)) /\
             ((0.9 < rate)%Q -> m' = Z.min 12 (m + 1)) /\
             ((0.7 <= rate)%Q -> (rate <= 0.9)%Q -> m' = m).
Proof.
  intros Hm. unfold adaptMaxDailyTasks.
  destruct (Qltb rate 0.7) eqn:Hlow; [ apply Qltb_true in Hlow | apply Qltb_false in Hlow ];
    (destruct (Qgtb rate 0.9) eqn:Hhigh;
       [ apply Qgtb_true in Hhigh | apply Qgtb_false in Hhigh ]);
    destruct (Z.ltb_spec 3 m); destruct (Z.ltb_spec m 12);
    destruct (Z.eqb_spec m 0); simpl; eexists; (split; [ reflexivity | ]);
    repeat split; intros; try lia; try lra.
Qed.

Lemma adaptUserPreferences_maxDailyTasks now performanceData stored m :
  storedMaxDailyTasks stored = Some m ->
  storedMaxDailyTasks (adaptUserPreferences now performanceData stored) =
  spread (Some m)
    (adaptMaxDailyTasks (completionRate (metrics performanceData)) (Some m)).
Proof.
  destruct stored as [prefs | ]; [ | discriminate ].
  intros Hm. change (maxDailyTasks prefs = Some m) in Hm.
  unfold adaptUserPreferences.
  cbv zeta. change (default noPreferences (Some prefs)) with prefs. rewrite Hm.
  destruct (adaptMaxDailyTasks _ (Some m)) as [m' | ].
  - cbn [present]. rewrite orb_true_r. reflexivity.
  - cbn [present]. rewrite orb_false_r.
    destruct (_ || _); simpl; [ reflexivity | exact Hm ].
Qed.

(** C8: from a store whose [maxDailyTasks] lies within 3 and 12, the value
    lies within 3 and 12 after any sequence of adaptations; one adaptation
    takes one off, not below 3, when the rate of the period is under 0.7,
    adds one, not above 12, when the rate is over 0.9, and leaves the
    value as it is otherwise. *)
Theorem maxDailyTasks_stays_bounded (stored : option UserPreferences) (m : Z)
    (Hstored : storedMaxDailyTasks stored = Some m) (Hm : 3 <= m <= 12)
    (calls : list (Z * PerformanceData)) :
  (exists m', storedMaxDailyTasks (adaptations calls stored) = Some m' /\
              3 <= m' <= 12) /\
  (forall now performanceData,
     let rate := completionRate (metrics performanceData) in
     exists m',
       storedMaxDailyTasks (adaptUserPreferences now performanceData stored)
         = Some m' /\
       ((rate < 0.7)%Q -> m' = Z.max 3 (m - 1)) /\
       ((0.9 < rate)%Q -> m' = Z.min 12 (m + 1)) /\
       ((0.7 <= rate)%Q -> (rate <= 0.9)%Q -> m' = m)).
Proof.
  split.
  - revert stored m Hstored Hm.
    induction calls as [ | [now performanceData] calls IH ];
      intros stored m Hstored Hm; simpl.
    + eauto.
    + destruct (adaptMaxDailyTasks_bounded
                  (completionRate (metrics performanceData)) m Hm)
        as (m' & Hm' & Hbounds & _).
      apply (IH _ m'); [ | exact Hbounds ].
      rewrite (adaptUserPreferences_maxDailyTasks _ _ _ m Hstored). exact Hm'.
  - intros now performanceData rate.
    destruct (adaptMaxDailyTasks_bounded rate m Hm)
      as (m' & Hm' & _ & Hlow & Hhigh & Hmid).
    exists m'. split; [ | auto ].
    rewrite (adaptUserPreferences_maxDailyTasks _ _ _ m Hstored). exact Hm'.
Qed.

End Adaptation.

(** C8 holds of a store with 8 tasks a day, adapted over two periods. *)
Lemma maxDailyTasks_stays_bounded_witness :
  let stored :=
    Some {| Reviewer.maxDailyTasks := Some 8;
            Reviewer.peakProductivityHours := None;
            Reviewer.preferredTaskDuration := Some 60;
            Reviewer.lastAdapted := None |} in
  let calls := [(1704146400000, dayOfMisses); (1704232800000, dayOfSuccess)] in
  storedMaxDailyTasks stored = Some 8 /\ 3 <= 8 <= 12 /\
  (exists m', storedMaxDailyTasks (adaptations calls stored) = Some m' /\
              3 <= m' <= 12) /\
  (forall now performanceData,
     let rate := Reviewer.completionRate (Reviewer.metrics performanceData) in
     exists m',
       storedMaxDailyTasks (Reviewer.adaptUserPreferences now performanceData stored)
         = Some m' /\
       ((rate < 0.7)%Q -> m' = Z.max 3 (8 - 1)) /\
       ((0.9 < rate)%Q -> m' = Z.min 12 (8 + 1)) /\
       ((0.7 <= rate)%Q -> (rate <= 0.9)%Q -> m' = 8)).
Proof.
  intros stored calls.
  split; [ reflexivity | ]. split; [ lia | ].
  apply (maxDailyTasks_stays_bounded stored 8); [ reflexivity | lia ].
Defined.

(** ** Freshness *)

Section Freshness.

Lemma within_window (elapsed unit window : Z) :
  0 < unit ->
  Qltb (inject_Z elapsed / inject_Z unit) (inject_Z window) = true <->
  elapsed < window * unit.
Proof.
  intros Hunit. rewrite Qltb_true.
  destruct unit as [ | u | u ]; try lia.
  unfold Qlt, Qdiv, Qmult, Qinv, inject_Z. simpl. lia.
Qed.

Lemma isPlanFresh_iff (now lastPlanning : Z) :
  isPlanFresh now (Some lastPlanning) = true <->
  now - lastPlanning < 120 * 60 * 1000.
Proof.
  unfold isPlanFresh.
  rewrite (within_window (now - lastPlanning) (1000 * 60 * 60) 2) by lia. lia.
Qed.

Lemma isDataFresh_iff (now lastCollection : Z) :
  Collector.isDataFresh now (Some lastCollection) = true <->
  now - lastCollection < 20 * 60 * 1000.
Proof.
  unfold Collector.isDataFresh.
  rewrite (within_window (now - lastCollection) (1000 * 60) 20) by lia. lia.
Qed.

(** C9: a plan is fresh exactly when it is less than 120 minutes old, so
    not at 120 minutes and still at 119; collected data is fresh exactly
    when it is less than 20 minutes old, so not at 20 minutes; with no
    timestamp in the store neither is fresh. *)
Theorem freshness_is_strict (now : Z) :
  isPlanFresh now (Some (now - 120 * 60 * 1000)) = false /\
  isPlanFresh now (Some (now - 119 * 60 * 1000)) = true /\
  Collector.isDataFresh now (Some (now - 20 * 60 * 1000)) = false /\
  (forall lastCollection,
     now - 20 * 60 * 1000 < lastCollection <->
     Collector.isDataFresh now (Some lastCollection) = true) /\
  (forall lastPlanning,
     now - 120 * 60 * 1000 < lastPlanning <->
     isPlanFresh now (Some lastPlanning) = true) /\
  isPlanFresh now None = false /\
  Collector.isDataFresh now None = false.
Proof.
  repeat split; try reflexivity.
  - apply not_true_is_false. rewrite isPlanFresh_iff. lia.
  - rewrite isPlanFresh_iff. lia.
  - apply not_true_is_false. rewrite isDataFresh_iff. lia.
  - intros H. apply isDataFresh_iff. lia.
  - intros H. apply isDataFresh_iff in H. lia.
  - intros H. apply isPlanFresh_iff. lia.
  - intros H. apply isPlanFresh_iff in H. lia.
Qed.

End Freshness.

(** ** The full workflow *)

Section Workflow.

Import Runner.

Variable execute :
  forall agentName : AgentName, World -> Completion (Result agentName) * World.

(** C5: when collection fails the workflow stops there and is logged as
    failed, and so it is when planning fails: the later phases are not
    run. When execution fails the workflow is logged as a success, with
    no execution results. *)
Theorem runFullWorkflow_fatal_phases (this : AgentRunner) (w : World) :
  let final := runFullWorkflow execute (this, w) in
  match execute collector w with
  | (Throw message, w1) =>
      agent_executions final.2 =
        agent_executions w1 ++
        [ criticalError "COLLECTOR_RUNNER" message (now w1 - now w);
          workflowRow "failed" None (Some "Data collection failed")
            (now w1 - now w) ] /\
      ran 1 0 1 (metrics this) (metrics final.1)
  | (Return collected, w1) =>
      match execute planner (elapse 2000 w1) with
      | (Throw message, w2) =>
          agent_executions final.2 =
            agent_executions w2 ++
            [ criticalError "PLANNER_RUNNER" message (now w2 - (now w1 + 2000));
              workflowRow "failed" None (Some "AI planning failed")
                (now w2 - now w) ] /\
          ran 2 1 1 (metrics this) (metrics final.1)
      | (Return planned, w2) =>
          match execute executor (elapse 1000 w2) with
          | (Throw message, w3) =>
              agent_executions final.2 =
                agent_executions w3 ++
                [ criticalError "EXECUTOR_RUNNER" message
                    (now w3 - (now w2 + 1000));
                  workflowRow "success"
                    (Some {| wf_duration := now w3 - now w;
                             wf_phases := ["collection"; "planning"; "execution"];
                             wf_collection := collected;
                             wf_planning := planned;
                             wf_execution := None |})
                    None (now w3 - now w) ] /\
              ran 3 2 1 (metrics this) (metrics final.1)
          | (Return executed, w3) =>
              agent_executions final.2 =
                agent_executions w3 ++
                [ workflowRow "success"
                    (Some {| wf_duration := now w3 - now w;
                             wf_phases := ["collection"; "planning"; "execution"];
                             wf_collection := collected;
                             wf_planning := planned;
                             wf_execution := Some executed |})
                    None (now w3 - now w) ] /\
              ran 3 3 0 (metrics this) (metrics final.1)
          end
      end
  end.
Proof.
  intros final. subst final.
  unfold runFullWorkflow, runFullWorkflow_try, runAgent, runAgent_begin, ran.
  cbn [fst snd]. unfold withMetrics at 1. 
  destruct (execute collector w) as [[collected | message] w1]; cbn.
  2: { split; [ by rewrite <- app_assoc | lia ]. }
  destruct (execute planner (elapse 2000 w1)) as [[planned | message] w2]; cbn.
  2: { split; [ by rewrite <- app_assoc | lia ]. }
  destruct (execute executor (elapse 1000 w2)) as [[executed | message] w3]; cbn.
  - split; [ reflexivity | lia ].
  - split; [ by rewrite <- app_assoc | lia ].
Qed.

End Workflow.

(** ** Executions in flight *)

Section InFlight.

Import Runner.

Variable execute :
  forall agentName : AgentName, World -> Completion (Result agentName) * World.

Lemma AgentName_eqb_refl (a : AgentName) : AgentName_eqb a a = true.
Proof. by destruct a. Qed.

(** C2, amended: a call of [runAgent] is never rejected or queued. It
    starts at once, whatever is in flight: the executions in flight stay
    in flight and the new one joins them, so that the agent has one more
    execution in flight than before. *)
Theorem trigger_always_starts (l : EventLoop) (agentName : AgentName)
    (standalone : bool) :
  let l' := step execute l (Trigger agentName standalone) in
  running l' =
    running l ++
    [ {| inv_agent := agentName; inv_standalone := standalone;
         inv_startTime := now (state l).2 |} ] /\
  inFlight agentName l' = S (inFlight agentName l) /\
  totalRuns (metrics (state l').1) = totalRuns (metrics (state l).1) + 1.
Proof.
  destruct l as [[this w] invs]. cbn. split; [ reflexivity | ]. split; [ | reflexivity ].
  unfold inFlight. cbn. rewrite filter_app, length_app. cbn.
  rewrite decide_True by apply AgentName_eqb_refl. cbn. lia.
Qed.

End InFlight.

(** C2, as stated, fails: when the timer of the collector fires while the
    collection that a manual trigger started has not settled, both
    executions of the collector are in flight. *)
Lemma two_collections_in_flight :
  let l :=
    Runner.run failingAgent
      {| Runner.state := Runner.initialState 1704103200000; Runner.running := [] |}
      [ Runner.Trigger Runner.collector true; Runner.Trigger Runner.collector false ] in
  map Runner.inv_agent (Runner.running l) = [ Runner.collector; Runner.collector ] /\
  Runner.inFlight Runner.collector l = 2%nat /\
  ~ (Runner.inFlight Runner.collector l <= 1)%nat.
Proof.
  cbn. repeat split; try reflexivity. vm_compute. lia.
Qed.

(** ** Examples *)

(** Three tasks of an hour, half an hour and a quarter of an hour: the
    second is pushed back, the third starts late enough. *)
Example addBufferTime_pushes_back :
  addBufferTime [entry "a" 0 3600000; entry "b" 3600000 5400000;
                 entry "c" 7200000 8100000]
  = Return [entry "a" 0 3600000; entry "b" 4500000 6300000;
            entry "c" 7200000 8100000].
Proof. reflexivity. Qed.

(** A task that has to be moved and has no end: the pass throws. *)
Example addBufferTime_without_an_end :
  addBufferTime
    [entry "a" 0 3600000;
     {| taskId := "b"; title := "b"; startTime := ISOString 3600000;
        endTime := undefined; priority := "Medium"; reason := EmptyString |}]
  = Throw "Invalid time value".
Proof. reflexivity. Qed.

(** A resolution of confidence 0.9 is applied and logged, one of confidence
    0.7 is not. *)
Example resolveConflicts_at_the_threshold :
  exists out saved,
    resolveConflicts
      (fun n _ => if (n =? 0)%nat then Some (moveTo 7200000 0.9)
                  else Some (moveTo 9000000 0.7))
      noData
      {| schedule := Some [entry "a" 0 3600000];
         conflicts_detected := Some [overlapConflict; overlapConflict];
         recommendations := None |} [] = (Return out, saved) /\
    map applied (resolvedConflicts out) = [true; false] /\
    map timesOf (updatedSchedule out) = [(ISOString 7200000, ISOString 10800000)] /\
    map row_taskId saved = ["task1,task2"].
Proof. eexists _, _. repeat split. Qed.

(** A resolution that is applied to a conflict without a type cannot be
    logged: conflict resolution throws. *)
Example resolveConflicts_without_a_type :
  resolveConflicts (fun _ _ => Some (moveTo 7200000 0.9)) noData
    {| schedule := Some [entry "a" 0 3600000];
       conflicts_detected :=
         Some [ {| type := None; tasks := Some ["task1"]; severity := "high" |} ];
       recommendations := None |} []
  = (Throw "SQLITE_CONSTRAINT: NOT NULL constraint failed: conflict_resolutions.conflict_type",
     []).
Proof. reflexivity. Qed.

(** A plan without a schedule. *)
Example resolveConflicts_without_a_schedule :
  resolveConflicts (fun _ _ => None) noData
    {| schedule := None; conflicts_detected := None; recommendations := None |} []
  = (Throw "aiPlan.schedule is not iterable", []).
Proof. reflexivity. Qed.

Example matchBraces_greedy :
  AIService.matchBraces "plan: {a {b} c} and } more" = Some "{a {b} c} and }".
Proof. reflexivity. Qed.

Example matchBraces_unclosed :
  AIService.matchBraces "} plan: { a" = None.
Proof. reflexivity. Qed.

(** A stored rate of 0.5 blended with a period rate of 1 is 0.65. *)
Example updateCompletionRates_blend :
  exists stored,
    Reviewer.updateCompletionRates (Some {[ "High" := 0.5%Q ]}) dayOfSuccess
      !! "High" = Some stored /\
    (stored == 0.65)%Q.
Proof. eexists. split; [ vm_compute; reflexivity | reflexivity ]. Qed.

(** Six tasks completed and two missed: the rate is 0.75 and [maxDailyTasks]
    is left as it is. *)
Example adaptUserPreferences_unchanged :
  storedMaxDailyTasks
    (Reviewer.adaptUserPreferences 1704146400000
       {| Reviewer.completedTasks := []; Reviewer.missedTasks := [];
          Reviewer.timeUsage :=
            {| Reviewer.averageDuration := 0; Reviewer.productiveHours := [] |};
          Reviewer.metrics := {| Reviewer.completionRate := 6 / (6 + 2) |} |}
       (Some {| Reviewer.maxDailyTasks := Some 8;
                Reviewer.peakProductivityHours := None;
                Reviewer.preferredTaskDuration := None;
                Reviewer.lastAdapted := None |}))
  = Some 8.
Proof. reflexivity. Qed.

(** * Further properties *)

(** ** Sorting *)

Section Sorting.

Context {A : Type}.

Lemma insertSorted_Permutation (compareFn : A -> A -> Q) x l :
  Permutation (JsArray.insertSorted compareFn x l) (x :: l).
Proof.
  induction l as [ | y l IH ]; simpl; [ reflexivity | ].
  destruct (Qle_bool (compareFn x y) 0); [ reflexivity | ].
  rewrite IH. apply perm_swap.
Qed.

Lemma sort_Permutation (compareFn : A -> A -> Q) l :
  Permutation (JsArray.sort compareFn l) l.
Proof.
  induction l as [ | x l IH ]; simpl; [ reflexivity | ].
  unfold JsArray.sort in *. simpl.
  rewrite insertSorted_Permutation. by constructor.
Qed.

(** Comparators of the source: [(a, b) => key(b) - key(a)]. *)
Variable key : A -> Q.
Variable compareFn : A -> A -> Q.
Hypothesis compareFn_key : forall a b, (compareFn a b == key b - key a)%Q.

Lemma compareFn_le x y :
  Qle_bool (compareFn x y) 0 = true <-> (key y <= key x)%Q.
Proof. rewrite Qle_bool_iff, compareFn_key. split; intros; lra. Qed.

Lemma compareFn_gt x y :
  Qle_bool (compareFn x y) 0 = false -> (key x < key y)%Q.
Proof.
  intros H. destruct (Qlt_le_dec (key x) (key y)) as [ | Hle ]; [ done | ].
  apply compareFn_le in Hle. congruence.
Qed.

Lemma insertSorted_descending x l :
  descending key l -> descending key (JsArray.insertSorted compareFn x l).
Proof.
  unfold descending.
  induction l as [ | y l IH ]; intros Hl; simpl.
  - constructor; constructor.
  - inversion Hl as [ | ? ? Hl' Hy ]; subst.
    destruct (Qle_bool (compareFn x y) 0) eqn:Hc.
    + apply compareFn_le in Hc. constructor; [ exact Hl | ].
      constructor; [ exact Hc | ].
      eapply Forall_impl; [ exact Hy | ]. intros z Hz. simpl in Hz. lra.
    + apply compareFn_gt in Hc. constructor; [ by apply IH | ].
      rewrite insertSorted_Permutation. constructor; [ lra | exact Hy ].
Qed.

Lemma sort_descending l : descending key (JsArray.sort compareFn l).
Proof.
  induction l as [ | x l IH ]; [ constructor | ].
  apply insertSorted_descending, IH.
Qed.

(** Elements of one key keep their order. *)
Lemma insertSorted_stable k x l :
  List.filter (fun a => Qeq_bool (key a) k) (JsArray.insertSorted compareFn x l) =
  List.filter (fun a => Qeq_bool (key a) k) (x :: l).
Proof.
  induction l as [ | y l IH ]; [ reflexivity | ].
  simpl JsArray.insertSorted.
  destruct (Qle_bool (compareFn x y) 0) eqn:Hc; [ reflexivity | ].
  apply compareFn_gt in Hc.
  cbn [List.filter] in *. rewrite IH.
  destruct (Qeq_bool (key x) k) eqn:Hx; destruct (Qeq_bool (key y) k) eqn:Hy;
    try reflexivity.
  apply Qeq_bool_iff in Hx, Hy. lra.
Qed.

Lemma sort_stable k l :
  List.filter (fun a => Qeq_bool (key a) k) (JsArray.sort compareFn l) =
  List.filter (fun a => Qeq_bool (key a) k) l.
Proof.
  induction l as [ | x l IH ]; [ reflexivity | ].
  change (JsArray.sort compareFn (x :: l))
    with (JsArray.insertSorted compareFn x (JsArray.sort compareFn l)).
  rewrite insertSorted_stable. cbn [List.filter]. by rewrite IH.
Qed.

Lemma insertSorted_head x l :
  Forall (fun y => (key y <= key x)%Q) l ->
  JsArray.insertSorted compareFn x l = x :: l.
Proof.
  destruct l as [ | y l ]; [ reflexivity | ].
  intros H. inversion H as [ | ? ? Hy _ ]; subst. simpl.
  apply compareFn_le in Hy. by rewrite Hy.
Qed.

(** A sorted array is left as it is. *)
Lemma sort_descending_id l : descending key l -> JsArray.sort compareFn l = l.
Proof.
  induction 1 as [ | x l Hl IH Hx ]; [ reflexivity | ].
  change (JsArray.sort compareFn (x :: l))
    with (JsArray.insertSorted compareFn x (JsArray.sort compareFn l)).
  rewrite IH. by apply insertSorted_head.
Qed.

Lemma insertSorted_app x l1 l2 :
  Forall (fun y => (key y <= key x)%Q) l2 ->
  JsArray.insertSorted compareFn x (l1 ++ l2) =
  JsArray.insertSorted compareFn x l1 ++ l2.
Proof.
  intros H2. induction l1 as [ | y l1 IH ]; simpl.
  - by apply insertSorted_head.
  - destruct (Qle_bool (compareFn x y) 0); [ reflexivity | ]. by rewrite IH.
Qed.

(** When no element of the second part has a larger key than an element of
    the first, the two parts are sorted apart. *)
Lemma sort_app l1 l2 :
  Forall (fun x => Forall (fun y => (key y <= key x)%Q) l2) l1 ->
  JsArray.sort compareFn (l1 ++ l2) =
  JsArray.sort compareFn l1 ++ JsArray.sort compareFn l2.
Proof.
  induction 1 as [ | x l1 Hx _ IH ]; [ reflexivity | ].
  change (JsArray.insertSorted compareFn x (JsArray.sort compareFn (l1 ++ l2)) =
          JsArray.insertSorted compareFn x (JsArray.sort compareFn l1) ++
          JsArray.sort compareFn l2).
  rewrite IH. apply insertSorted_app.
  by rewrite sort_Permutation.
Qed.

End Sorting.

(** ** The optimizer *)

Section OptimizerPasses.

Import Optimizer.

Lemma filter_map_comm {X Y} (p : Y -> bool) (g : X -> Y) (l : list X) :
  List.filter p (map g l) = map g (List.filter (fun x => p (g x)) l).
Proof.
  induction l as [ | x l IH ]; [ reflexivity | ].
  simpl. destruct (p (g x)); simpl; by rewrite IH.
Qed.

Lemma byPriority_key a b : (byPriority a b == weightOf b - weightOf a)%Q.
Proof.
  unfold byPriority, weightOf, Z.sub.
  rewrite inject_Z_plus, inject_Z_opp. reflexivity.
Qed.

Lemma byEfficiency_key data a b :
  (byEfficiency data a b ==
   efficiencyOf data (title b) - efficiencyOf data (title a))%Q.
Proof. reflexivity. Qed.

Lemma toProductiveSlot_identityOf slots i task :
  identityOf (toProductiveSlot slots i task) = identityOf task.
Proof.
  unfold toProductiveSlot.
  destruct (_ && _); [ | reflexivity ].
  by destruct (slots !! _).
Qed.

Lemma imap_identityOf (g : nat -> ScheduleEntry -> ScheduleEntry) l :
  (forall i task, identityOf (g i task) = identityOf task) ->
  map identityOf (imap g l) = map identityOf l.
Proof.
  revert g. induction l as [ | x l IH ]; intros g Hg; [ reflexivity | ].
  simpl. rewrite Hg. f_equal. apply IH. intros i task. apply Hg.
Qed.

Lemma optimizeForProductiveTimeSlots_identityOf schedule slots :
  map identityOf (optimizeForProductiveTimeSlots schedule slots) =
  map identityOf (JsArray.sort byPriority schedule).
Proof.
  unfold optimizeForProductiveTimeSlots.
  apply imap_identityOf. intros. apply toProductiveSlot_identityOf.
Qed.

Lemma descending_identityOf (l1 l2 : list ScheduleEntry) :
  map identityOf l1 = map identityOf l2 ->
  descending weightOf l1 -> descending weightOf l2.
Proof.
  pose (R := fun i j : string * string * string =>
               (inject_Z (priorityWeight j.2) <= inject_Z (priorityWeight i.2))%Q).
  assert (Hmap : forall l, descending weightOf l <-> StronglySorted R (map identityOf l)).
  { unfold descending. induction l as [ | x l IH ]; simpl.
    - split; constructor.
    - split; intros H; inversion H as [ | ? ? Hl Hx ]; subst;
        (constructor; [ by apply IH | ]).
      + exact (proj2 (List.Forall_map identityOf (R (identityOf x)) l) Hx).
      + exact (proj1 (List.Forall_map identityOf (R (identityOf x)) l) Hx). }
  intros Heq H. apply Hmap. rewrite <- Heq. by apply Hmap.
Qed.

Lemma optimizeForProductiveTimeSlots_descending schedule slots :
  descending weightOf (optimizeForProductiveTimeSlots schedule slots).
Proof.
  eapply descending_identityOf;
    [ symmetry; apply optimizeForProductiveTimeSlots_identityOf | ].
  apply (sort_descending weightOf byPriority byPriority_key).
Qed.

(** X1: the first optimizer pass returns the tasks by descending weight of
    their priority (High, then Medium, then the others), the tasks of one
    weight in the order they had; it changes no task that is not High. *)
Theorem optimizeForProductiveTimeSlots_orders_by_priority
    (schedule : list ScheduleEntry) (slots : list Learning.Slot) :
  let out := optimizeForProductiveTimeSlots schedule slots in
  Permutation (map identityOf out) (map identityOf schedule) /\
  descending weightOf out /\
  (forall k,
     List.filter (fun id => Qeq_bool (inject_Z (priorityWeight id.2)) k)
       (map identityOf out) =
     List.filter (fun id => Qeq_bool (inject_Z (priorityWeight id.2)) k)
       (map identityOf schedule)) /\
  (forall task, task ∈ out -> priority task <> "High" -> task ∈ schedule).
Proof.
  intros out. unfold out.
  pose proof (optimizeForProductiveTimeSlots_identityOf schedule slots) as Hid.
  repeat split.
  - rewrite Hid. apply Permutation_map, sort_Permutation.
  - apply optimizeForProductiveTimeSlots_descending.
  - intros k. rewrite Hid, !filter_map_comm. f_equal.
    apply (sort_stable weightOf byPriority byPriority_key k).
  - intros task Hin Hprio.
    unfold optimizeForProductiveTimeSlots in Hin.
    apply list_elem_of_lookup in Hin as [i Hi].
    rewrite list_lookup_imap in Hi.
    destruct (JsArray.sort byPriority schedule !! i) as [task0 | ] eqn:Hsorted;
      [ | discriminate ].
    simpl in Hi. injection Hi as Htask.
    assert (Hin0 : task0 ∈ schedule).
    { rewrite <- (sort_Permutation byPriority schedule).
      eapply list_elem_of_lookup_2, Hsorted. }
    unfold toProductiveSlot in Htask.
    destruct (String.eqb (priority task0) "High") eqn:Hhigh; simpl in Htask.
    + apply String.eqb_eq in Hhigh.
      destruct (0 <? length slots)%nat; [ | by subst ].
      destruct (slots !! _); subst; [ | done ].
      simpl in Hprio. congruence.
    + by subst.
Qed.

Lemma StronglySorted_lookup {X} (R : X -> X -> Prop) (l : list X) i j a b :
  StronglySorted R l -> l !! i = Some a -> l !! j = Some b -> (i < j)%nat -> R a b.
Proof.
  intros Hs. revert i j. induction Hs as [ | x l Hs IH Hx ]; intros i j Ha Hb Hij.
  - by rewrite lookup_nil in Ha.
  - destruct j as [ | j ]; [ lia | ]. simpl in Hb.
    destruct i as [ | i ]; simpl in Ha.
    + injection Ha as <-. rewrite Forall_forall in Hx.
      apply Hx. eapply list_elem_of_lookup_2, Hb.
    + apply (IH i j); [ done | done | lia ].
Qed.

Lemma StronglySorted_take {X} (R : X -> X -> Prop) (n : nat) (l : list X) :
  StronglySorted R l -> StronglySorted R (take n l).
Proof.
  intros Hs. revert n. induction Hs as [ | x l Hs IH Hx ]; intros [ | n ]; simpl;
    try constructor.
  - apply IH.
  - by apply Forall_take.
Qed.

Lemma priorityWeight_High p : priorityWeight p = 3 <-> p = "High".
Proof.
  unfold priorityWeight.
  destruct (String.eqb_spec p "High"); [ done | ].
  destruct (String.eqb p "Medium"); [ split; [ lia | done ] | ].
  destruct (String.eqb p "Low"); split; (lia || done).
Qed.

Lemma priorityWeight_bounds p : 1 <= priorityWeight p <= 3.
Proof.
  unfold priorityWeight.
  destruct (String.eqb p "High"); [ lia | ].
  destruct (String.eqb p "Medium"); [ lia | ].
  destruct (String.eqb p "Low"); lia.
Qed.

(** What the first pass makes of a task: a High task loses its times when
    there is a slot, any other task is handed on as it is. *)
Lemma toProductiveSlot_cases slots i task :
  toProductiveSlot slots i task =
  if String.eqb (priority task) "High" && (0 <? length slots)%nat
  then untimed task ("Scheduled during productive time slot: " +:+ reason task)
  else task.
Proof.
  unfold toProductiveSlot.
  destruct (String.eqb (priority task) "High"); [ | reflexivity ].
  destruct (Nat.ltb_spec 0 (length slots)) as [Hpos | ]; [ | reflexivity ]. simpl.
  destruct (lookup_lt_is_Some_2 slots (i mod length slots)%nat) as [slot ->];
    [ apply Nat.mod_upper_bound; lia | reflexivity ].
Qed.

Lemma erased_task schedule slots i task :
  optimizeForProductiveTimeSlots schedule slots !! i = Some task ->
  priority task = "High" -> slots <> [] ->
  startTime task = undefined /\ endTime task = undefined /\
  exists original,
    original ∈ schedule /\
    task = untimed original
             ("Scheduled during productive time slot: " +:+ reason original).
Proof.
  intros Hi Hhigh Hslots.
  unfold optimizeForProductiveTimeSlots in Hi. rewrite list_lookup_imap in Hi.
  destruct (JsArray.sort byPriority schedule !! i) as [task0 | ] eqn:Hsorted;
    [ | discriminate ].
  simpl in Hi. injection Hi as Htask. rewrite toProductiveSlot_cases in Htask.
  assert (Hin0 : task0 ∈ schedule).
  { rewrite <- (sort_Permutation byPriority schedule).
    eapply list_elem_of_lookup_2, Hsorted. }
  assert (Hpos : (0 < length slots)%nat) by (destruct slots; simpl; [ done | lia ]).
  destruct (Nat.ltb_spec 0 (length slots)); [ | lia ].
  destruct (String.eqb_spec (priority task0) "High") as [ | Hno ]; simpl in Htask.
  - subst task. repeat split. by exists task0.
  - subst task. congruence.
Qed.

Lemma optimizeForProductiveTimeSlots_no_slot schedule :
  optimizeForProductiveTimeSlots schedule [] = JsArray.sort byPriority schedule.
Proof.
  unfold optimizeForProductiveTimeSlots.
  apply list_eq. intros i. rewrite list_lookup_imap.
  destruct (JsArray.sort byPriority schedule !! i) as [ task | ]; [ | done ]. simpl.
  rewrite toProductiveSlot_cases. simpl. by rewrite andb_false_r.
Qed.

(** X2: after the first optimizer pass the High tasks come before all
    others. The slots that the reviewer stores have a label and a weight,
    and no start and no end: where at least one slot has been learned every
    High task comes out without its times, its start and its end
    [undefined] and its reason prefixed. With no slot no task is changed. *)
Theorem optimizeForProductiveTimeSlots_erases_times
    (schedule : list ScheduleEntry) (slots : list Learning.Slot) :
  let out := optimizeForProductiveTimeSlots schedule slots in
  (forall i j a b,
     out !! i = Some a -> out !! j = Some b ->
     priority a = "High" -> priority b <> "High" -> (i < j)%nat) /\
  (forall task,
     task ∈ out -> priority task = "High" -> slots <> [] ->
     startTime task = undefined /\ endTime task = undefined /\
     exists original,
       original ∈ schedule /\
       task = untimed original
                ("Scheduled during productive time slot: " +:+ reason original)) /\
  (slots = [] -> out = JsArray.sort byPriority schedule /\ Permutation out schedule).
Proof.
  intros out. unfold out. split; [ | split ].
  - intros i j a b Ha Hb Hhigh Hother.
    destruct (decide (i < j)%nat) as [ | Hge ]; [ done | exfalso ].
    assert (Hne : i <> j) by (intros ->; congruence).
    pose proof (StronglySorted_lookup _ _ j i b a
                  (optimizeForProductiveTimeSlots_descending schedule slots)
                  Hb Ha ltac:(lia)) as Hle.
    unfold weightOf in Hle. rewrite <- Zle_Qle in Hle.
    apply priorityWeight_High in Hhigh.
    pose proof (priorityWeight_bounds (priority b)) as Hb3.
    assert (priorityWeight (priority b) = 3) by lia.
    by apply Hother, priorityWeight_High.
  - intros task Hin Hhigh Hslots. apply list_elem_of_lookup in Hin as [i Hi].
    by apply (erased_task schedule slots i task).
  - intros ->. rewrite optimizeForProductiveTimeSlots_no_slot.
    split; [ reflexivity | apply sort_Permutation ].
Qed.

(** X3: the second optimizer pass reorders the tasks, and changes none, by
    descending efficiency score of their titles; tasks of one score keep
    the order they had. *)
Theorem optimizeTaskOrdering_sorts_by_efficiency
    (schedule : list ScheduleEntry) (efficiencyData : gmap string Q) :
  let out := optimizeTaskOrdering schedule efficiencyData in
  let score := fun task => efficiencyOf efficiencyData (title task) in
  Permutation out schedule /\
  descending score out /\
  (forall k,
     List.filter (fun task => Qeq_bool (score task) k) out =
     List.filter (fun task => Qeq_bool (score task) k) schedule).
Proof.
  intros out score. unfold out, optimizeTaskOrdering. repeat split.
  - apply sort_Permutation.
  - apply (sort_descending score _ (byEfficiency_key efficiencyData)).
  - intros k. apply (sort_stable score _ (byEfficiency_key efficiencyData)).
Qed.

Lemma efficiencyOf_empty t : efficiencyOf ∅ t = 0.5%Q.
Proof. unfold efficiencyOf. by rewrite !lookup_empty. Qed.

(** X4: ordering by efficiency twice is ordering once, and with no score at
    all (an empty object) the order of the tasks is left as it is. *)
Theorem optimizeTaskOrdering_idempotent
    (schedule : list ScheduleEntry) (efficiencyData : gmap string Q) :
  optimizeTaskOrdering (optimizeTaskOrdering schedule efficiencyData) efficiencyData
    = optimizeTaskOrdering schedule efficiencyData /\
  optimizeTaskOrdering schedule ∅ = schedule.
Proof.
  unfold optimizeTaskOrdering. split.
  - apply (sort_descending_id _ _ (byEfficiency_key efficiencyData)).
    apply (sort_descending _ _ (byEfficiency_key efficiencyData)).
  - apply (sort_descending_id _ _ (byEfficiency_key ∅)).
    unfold descending. induction schedule as [ | x l IH ]; constructor; [ exact IH | ].
    apply Forall_forall. intros y _. rewrite !efficiencyOf_empty. lra.
Qed.

Lemma addBufferTime_identityOf schedule out :
  addBufferTime schedule = Return out ->
  map identityOf out = map identityOf schedule.
Proof.
  intros Hout. pose proof (addBufferTime_shifted schedule out Hout) as H.
  clear Hout. induction H as [ | a b l l' Hab _ IH ]; [ reflexivity | ].
  simpl. rewrite IH. f_equal.
  destruct Hab as (Hid & Htitle & Hprio & _).
  unfold identityOf. by rewrite Hid, Htitle, Hprio.
Qed.

(** The schedule that [optimizePlan] hands to the buffer pass. *)
Lemma optimizePlan_passes schedule learningData :
  optimizePlan schedule learningData =
  (optimizedSchedule ← addBufferTime (beforeBuffer schedule learningData);
   Return {| optimizedSchedule := optimizedSchedule;
             optimizations := passes learningData |}).
Proof.
  unfold optimizePlan, beforeBuffer, passes.
  destruct (productiveTimeSlots learningData);
    by destruct (taskTypeEfficiency learningData).
Qed.

Lemma beforeBuffer_identityOf schedule learningData :
  Permutation (map identityOf (beforeBuffer schedule learningData))
    (map identityOf schedule).
Proof.
  unfold beforeBuffer.
  destruct (productiveTimeSlots learningData) as [slots | ];
    destruct (taskTypeEfficiency learningData) as [efficiencyData | ].
  - unfold optimizeTaskOrdering.
    rewrite (Permutation_map identityOf (sort_Permutation _ _)).
    rewrite optimizeForProductiveTimeSlots_identityOf.
    apply Permutation_map, sort_Permutation.
  - rewrite optimizeForProductiveTimeSlots_identityOf.
    apply Permutation_map, sort_Permutation.
  - unfold optimizeTaskOrdering. apply Permutation_map, sort_Permutation.
  - reflexivity.
Qed.

(** The two first passes hand on tasks that are tasks of the plan or have
    no times. *)
Lemma beforeBuffer_tasks schedule learningData task :
  task ∈ beforeBuffer schedule learningData ->
  task ∈ schedule \/ (startTime task = undefined /\ endTime task = undefined).
Proof.
  assert (Hslots : forall slots task,
            task ∈ optimizeForProductiveTimeSlots schedule slots ->
            task ∈ schedule \/
            (startTime task = undefined /\ endTime task = undefined)).
  { intros slots t Hin. unfold optimizeForProductiveTimeSlots in Hin.
    apply list_elem_of_lookup in Hin as [i Hi]. rewrite list_lookup_imap in Hi.
    destruct (JsArray.sort byPriority schedule !! i) as [task0 | ] eqn:Hsorted;
      [ | discriminate ].
    simpl in Hi. injection Hi as <-. rewrite toProductiveSlot_cases.
    destruct (_ && _); [ by right | left ].
    rewrite <- (sort_Permutation byPriority schedule).
    eapply list_elem_of_lookup_2, Hsorted. }
  unfold beforeBuffer.
  destruct (productiveTimeSlots learningData) as [slots | ];
    destruct (taskTypeEfficiency learningData) as [efficiencyData | ];
    unfold optimizeTaskOrdering; rewrite ?sort_Permutation; eauto.
Qed.

Lemma optimizePlan_returns schedule learningData :
  Forall (fun task => dated (startTime task) -> dated (endTime task)) schedule ->
  exists plan, optimizePlan schedule learningData = Return plan.
Proof.
  intros Hall. rewrite optimizePlan_passes.
  destruct (addBufferTime_returns (beforeBuffer schedule learningData))
    as (out & ->); [ | simpl; eauto ].
  apply Forall_forall. intros task Hin.
  apply beforeBuffer_tasks in Hin as [Hin | [Hs _]].
  - by apply (proj1 (Forall_forall _ _) Hall).
  - rewrite Hs. intros [t Ht]. discriminate Ht.
Qed.

(** What the optimizer returns: the tasks of the plan, consecutive tasks a
    buffer apart where they have dates. *)
Lemma optimizePlan_Return
    (schedule : list ScheduleEntry) (learningData : LearningData)
    (plan : OptimizedPlan) :
  optimizePlan schedule learningData = Return plan ->
  separated (optimizedSchedule plan) /\
  Permutation (map identityOf (optimizedSchedule plan)) (map identityOf schedule) /\
  (productiveTimeSlots learningData = None -> Forall scheduled schedule ->
   buffered (optimizedSchedule plan)).
Proof.
  rewrite optimizePlan_passes.
  destruct (addBufferTime (beforeBuffer schedule learningData)) as [out | ] eqn:Hout;
    [ | discriminate ].
  intros [= <-]. cbn [optimizedSchedule optimizations].
  pose proof (addBufferTime_shifted _ _ Hout) as Hshift.
  split; [ by eapply addBufferTime_separated | ].
  split.
  - rewrite (addBufferTime_identityOf _ _ Hout). apply beforeBuffer_identityOf.
  - intros Hnone Hall. apply separated_buffered; [ by eapply addBufferTime_separated | ].
    assert (Hbefore : Forall scheduled (beforeBuffer schedule learningData)).
    { unfold beforeBuffer. rewrite Hnone.
      destruct (taskTypeEfficiency learningData); [ | exact Hall ].
      unfold optimizeTaskOrdering. by rewrite sort_Permutation. }
    clear Hout. induction Hshift as [ | a b l l' Hab _ IH ]; [ constructor | ].
    inversion Hbefore; subst.
    constructor; [ by eapply shifted_scheduled | by apply IH ].
Qed.

(** X5: whatever has been learned, the optimizer returns the tasks it is
    given, with their titles and priorities; two consecutive tasks are a
    buffer of 15 minutes apart where the end of the first and the start of
    the second are dates, and all consecutive tasks are when no slot has
    been learned and the tasks of the plan have dates. When a slot has been
    learned the High tasks are returned without a start and an end. The
    optimizer reports one line for each pass that ran, the last one for the
    buffer pass, which always runs. It returns whenever every task of the
    plan that has a start has an end. *)
Theorem optimizePlan_buffers_and_reports
    (schedule : list ScheduleEntry) (learningData : LearningData) :
  (Forall (fun task => dated (startTime task) -> dated (endTime task)) schedule ->
   exists plan, optimizePlan schedule learningData = Return plan) /\
  forall plan, optimizePlan schedule learningData = Return plan ->
    separated (optimizedSchedule plan) /\
    (productiveTimeSlots learningData = None -> Forall scheduled schedule ->
     buffered (optimizedSchedule plan)) /\
    (forall slots task,
       productiveTimeSlots learningData = Some slots -> slots <> [] ->
       task ∈ optimizedSchedule plan -> priority task = "High" ->
       startTime task = undefined /\ endTime task = undefined) /\
    Permutation (map identityOf (optimizedSchedule plan)) (map identityOf schedule) /\
    optimizations plan =
      match productiveTimeSlots learningData with
      | Some _ => ["Applied productive time slot optimization"]
      | None => []
      end ++
      match taskTypeEfficiency learningData with
      | Some _ => ["Optimized task ordering based on efficiency patterns"]
      | None => []
      end ++
      ["Added buffer time between tasks"].
Proof.
  split; [ apply optimizePlan_returns | ].
  intros plan Hplan.
  destruct (optimizePlan_Return schedule learningData plan Hplan) as (Hsep & Hperm & Hbuf).
  revert Hplan. rewrite optimizePlan_passes.
  destruct (addBufferTime (beforeBuffer schedule learningData)) as [out | ] eqn:Hout;
    [ | discriminate ].
  intros [= <-]. cbn [optimizedSchedule optimizations] in *.
  pose proof (addBufferTime_shifted _ _ Hout) as Hshift.
  split; [ exact Hsep | ]. split; [ exact Hbuf | ]. split; [ | split ].
  - intros slots task Hslots Hne Hin Hhigh.
    apply list_elem_of_lookup in Hin as [i Hi].
    destruct (Forall2_lookup_r _ _ _ _ _ Hshift Hi) as (task0 & Hi0 & Hab).
    assert (Hhigh0 : priority task0 = "High").
    { destruct Hab as (_ & _ & <- & _). exact Hhigh. }
    assert (Htimes : startTime task0 = undefined /\ endTime task0 = undefined).
    { apply list_elem_of_lookup_2 in Hi0. unfold beforeBuffer in Hi0.
      rewrite Hslots in Hi0.
      destruct (taskTypeEfficiency learningData).
      - unfold optimizeTaskOrdering in Hi0. rewrite sort_Permutation in Hi0.
        apply list_elem_of_lookup in Hi0 as [k Hk].
        by destruct (erased_task schedule slots k task0 Hk Hhigh0 Hne) as (? & ? & _).
      - apply list_elem_of_lookup in Hi0 as [k Hk].
        by destruct (erased_task schedule slots k task0 Hk Hhigh0 Hne) as (? & ? & _). }
    destruct Htimes as [Hs He].
    destruct Hab as (_ & _ & _ & _ & [[-> ->] | (s & e & s' & Hds & _)]); [ done | ].
    rewrite Hs in Hds. discriminate Hds.
  - exact Hperm.
  - unfold passes.
    destruct (productiveTimeSlots learningData);
      by destruct (taskTypeEfficiency learningData).
Qed.

End OptimizerPasses.

(** ** Applying a resolution *)

Section ApplyResolution.

Lemma findIndex_Some {X} (p : X -> bool) (l : list X) i :
  findIndex p l = Some i ->
  exists x, l !! i = Some x /\ p x = true /\
            forall j y, (j < i)%nat -> l !! j = Some y -> p y = false.
Proof.
  revert i. induction l as [ | x l IH ]; intros i; simpl; [ discriminate | ].
  destruct (p x) eqn:Hp.
  - intros [= <-]. exists x. repeat split; [ done | ]. intros j y Hj. lia.
  - destruct (findIndex p l) as [i' | ] eqn:Hfind; [ | discriminate ].
    simpl. intros [= <-].
    destruct (IH i' eq_refl) as (x' & Hx' & Hpx' & Hbefore).
    exists x'. repeat split; [ done | done | ].
    intros [ | j ] y Hj Hy; simpl in Hy.
    + by injection Hy as <-.
    + apply (Hbefore j); [ lia | done ].
Qed.

Lemma findIndex_None {X} (p : X -> bool) (l : list X) :
  findIndex p l = None -> Forall (fun x => p x = false) l.
Proof.
  induction l as [ | x l IH ]; simpl; [ constructor | ].
  destruct (p x) eqn:Hp; [ discriminate | ].
  destruct (findIndex p l); [ discriminate | ].
  intros _. constructor; [ done | by apply IH ].
Qed.

Lemma strictEquals_undefined value :
  strictEquals value undefined = true <-> value = undefined.
Proof. destruct value; simpl; split; congruence. Qed.

(** The task that [applyConflictResolution] puts in the place of the task
    that it moves. *)
Lemma applyConflictResolution_cases schedule r :
  (applyConflictResolution schedule r = Return schedule /\
   (resolution r <> "move_task" \/
    Forall (fun task => strictEquals (startTime task) (originalTime r) = false)
      schedule)) \/
  exists i task,
    resolution r = "move_task" /\
    schedule !! i = Some task /\
    strictEquals (startTime task) (originalTime r) = true /\
    (forall j earlier, (j < i)%nat -> schedule !! j = Some earlier ->
                       strictEquals (startTime earlier) (originalTime r) = false) /\
    applyConflictResolution schedule r =
      (newEndTime ← toISOString
                      (plus (newDate (newTime r))
                         (minus (newDate (endTime task)) (newDate (startTime task))));
       Return (<[ i := movedTo r task newEndTime ]> schedule)).
Proof.
  unfold applyConflictResolution.
  destruct (String.eqb_spec (resolution r) "move_task") as [Hmove | Hother].
  2: { left. split; [ | by left ]. by repeat destruct (String.eqb _ _). }
  destruct (findIndex _ schedule) as [i | ] eqn:Hfind.
  - apply findIndex_Some in Hfind as (task & Htask & Hp & Hbefore).
    right. exists i, task. rewrite Htask. repeat split; assumption.
  - left. split; [ reflexivity | right ]. by apply findIndex_None.
Qed.


Lemma applyConflictResolution_no_originalTime schedule r :
  originalTime r = undefined ->
  Forall (fun task => startTime task <> undefined) schedule ->
  applyConflictResolution schedule r = Return schedule.
Proof.
  intros Hnone Hall.
  destruct (applyConflictResolution_cases schedule r)
    as [[-> _] | (i & task & _ & Htask & Hp & _)]; [ reflexivity | ].
  rewrite Hnone in Hp. apply strictEquals_undefined in Hp.
  by destruct (proj1 (Forall_lookup _ _) Hall _ _ Htask).
Qed.

Variable analyzeConflict : nat -> ConflictData -> option Resolution.
Variable latestData : LatestData.

(** X7: when the resolutions of the oracle carry no [originalTime] (the
    reply that the prompt asks for has the fields resolution, newTime,
    reason and confidence) and every task of the plan has a start, conflict
    resolution returns the schedule of the plan as it is, whatever it
    applies and logs. It returns whenever the conflicts have a type. *)
Theorem resolveConflicts_without_originalTime (aiPlan : AiPlan)
    (table : list ConflictResolutionRow) (tasks : list ScheduleEntry)
    (Hschema : forall n question r,
       analyzeConflict n question = Some r -> originalTime r = undefined)
    (Htasks : schedule aiPlan = Some tasks)
    (Hstart : Forall (fun task => startTime task <> undefined) tasks) :
  (Forall (fun conflict => is_Some (type conflict))
     (default [] (conflicts_detected aiPlan)) ->
   exists out saved,
     resolveConflicts analyzeConflict latestData aiPlan table = (Return out, saved)) /\
  forall out saved,
    resolveConflicts analyzeConflict latestData aiPlan table = (Return out, saved) ->
    updatedSchedule out = tasks.
Proof.
  rewrite (resolveConflicts_from_schedule analyzeConflict latestData aiPlan tasks table
             Htasks).
  assert (Hloop : forall cs st saved0,
            Forall (fun task => startTime task <> undefined) (updatedSchedule st) ->
            (Forall (fun conflict => is_Some (type conflict)) cs ->
             exists out saved,
               resolveConflicts_from analyzeConflict latestData st cs saved0
               = (Return out, saved)) /\
            forall out saved,
              resolveConflicts_from analyzeConflict latestData st cs saved0
              = (Return out, saved) ->
              updatedSchedule out = updatedSchedule st);
    [ | by apply Hloop ].
  clear Hstart. induction cs as [ | conflict cs IH ]; intros st saved0 Hstart.
  { simpl. split; [ eauto | ]. by intros out saved [= <- <-]. }
  simpl.
  assert (Hbody :
            (is_Some (type conflict) ->
             exists st' saved',
               resolveConflicts_body analyzeConflict latestData st conflict saved0
               = (Return st', saved')) /\
            forall st' saved',
              resolveConflicts_body analyzeConflict latestData st conflict saved0
              = (Return st', saved') ->
              updatedSchedule st' = updatedSchedule st).
  { unfold resolveConflicts_body. cbv zeta.
    destruct (confident _) as [r | ] eqn:Hconf.
    - apply confident_Some in Hconf as (Hreply & _).
      rewrite (applyConflictResolution_no_originalTime (updatedSchedule st) r)
        by (try exact Hstart; eapply Hschema, Hreply).
      split.
      + intros [conflictType ->]. simpl. eauto.
      + unfold saveConflictResolution. intros st' saved'.
        destruct (type conflict); [ | discriminate ]. by intros [= <- <-].
    - split; [ eauto | ]. by intros st' saved' [= <- <-]. }
  destruct Hbody as [Hreturns Hsame]. split.
  - intros Htypes. inversion Htypes as [ | ? ? Htype Hrest ]; subst.
    destruct (Hreturns Htype) as (st' & saved' & Hst'). rewrite Hst'.
    apply IH; [ | exact Hrest ]. by rewrite (Hsame _ _ Hst').
  - intros out saved.
    destruct (resolveConflicts_body analyzeConflict latestData st conflict saved0)
      as [[st' | message] saved'] eqn:Hst'; [ | discriminate ].
    intros Hrest. rewrite <- (Hsame _ _ eq_refl).
    eapply (IH st' saved'); [ | exact Hrest ]. by rewrite (Hsame _ _ eq_refl).
Qed.

End ApplyResolution.

(** The times of the prompt have no milliseconds, the times that the
    program writes have: a resolution that names the start of a task as the
    prompt spells it does not move a task whose start the program has
    written, although both are the same instant. *)
Example applyConflictResolution_compares_strings :
  applyConflictResolution [entry "a" 1704099600000 1704103200000]
    {| resolution := "move_task";
       originalTime := Text "2024-01-01T09:00:00Z" (Some 1704099600000);
       newTime := Text "2024-01-01T11:00:00Z" (Some 1704106800000);
       resolutionReason := "later"; confidence := Some 0.9%Q |}
  = Return [entry "a" 1704099600000 1704103200000].
Proof. reflexivity. Qed.

(** X7 holds of an oracle that answers every question with a confident move
    to a new time. *)
Lemma resolveConflicts_without_originalTime_witness :
  (forall n (question : ConflictData) r,
     sureOracle n question = Some r -> originalTime r = undefined) /\
  Forall (fun task => startTime task <> undefined) [standup; report] /\
  exists out saved,
    resolveConflicts sureOracle noData
      {| schedule := Some [standup; report];
         conflicts_detected := Some [overlapConflict];
         recommendations := None |} [] = (Return out, saved) /\
    updatedSchedule out = [standup; report].
Proof.
  assert (H : forall n (question : ConflictData) r,
            sureOracle n question = Some r -> originalTime r = undefined)
    by (by intros n question r [= <-]).
  assert (Hstart : Forall (fun task => startTime task <> undefined) [standup; report])
    by (repeat constructor; discriminate).
  split; [ exact H | ]. split; [ exact Hstart | ].
  destruct (resolveConflicts_without_originalTime sureOracle noData
              {| schedule := Some [standup; report];
                 conflicts_detected := Some [overlapConflict];
                 recommendations := None |} [] [standup; report] H eq_refl Hstart)
    as [Hreturns Hsame].
  destruct Hreturns as (out & saved & Hrun).
  { repeat constructor. by eexists. }
  exists out, saved. split; [ exact Hrun | ]. by eapply Hsame.
Defined.
(** ** Replies of the oracle *)

Section Replies.

Import AIService.

Lemma uptoLastBrace_None s : uptoLastBrace s = None <-> occurs rbrace s = false.
Proof.
  induction s as [ | c s IH ]; simpl; [ done | ].
  destruct (uptoLastBrace s) as [m' | ].
  - split; [ discriminate | ].
    intros H. apply orb_false_iff in H as [_ H]. apply IH in H. discriminate.
  - assert (occurs rbrace s = false) as -> by (by apply IH).
    destruct (Ascii.eqb c rbrace); simpl; split; done.
Qed.

Lemma uptoLastBrace_closing mid post :
  occurs rbrace post = false ->
  uptoLastBrace (mid +:+ String rbrace post) = Some (mid +:+ String rbrace EmptyString).
Proof.
  intros Hpost. induction mid as [ | c mid IH ]; simpl.
  - apply uptoLastBrace_None in Hpost. rewrite Hpost. reflexivity.
  - by rewrite IH.
Qed.

Lemma uptoLastBrace_Some s m :
  uptoLastBrace s = Some m ->
  exists mid post, s = mid +:+ String rbrace post /\
                   m = mid +:+ String rbrace EmptyString /\
                   occurs rbrace post = false.
Proof.
  revert m. induction s as [ | c s IH ]; intros m; simpl; [ discriminate | ].
  destruct (uptoLastBrace s) as [m' | ] eqn:Hs.
  - intros [= <-]. destruct (IH m' eq_refl) as (mid & post & -> & -> & Hpost).
    by exists (String c mid), post.
  - destruct (Ascii.eqb_spec c rbrace) as [-> | ]; [ | discriminate ].
    intros [= <-]. exists EmptyString, s. repeat split.
    by apply uptoLastBrace_None.
Qed.

Lemma matchBraces_no_closing s : occurs rbrace s = false -> matchBraces s = None.
Proof.
  induction s as [ | c s IH ]; simpl; [ done | ].
  intros H. apply orb_false_iff in H as [_ H].
  rewrite (proj2 (uptoLastBrace_None s) H), (IH H). by destruct (Ascii.eqb c lbrace).
Qed.

Lemma matchBraces_found pre mid post :
  occurs lbrace pre = false -> occurs rbrace post = false ->
  matchBraces (pre +:+ String lbrace (mid +:+ String rbrace post)) =
  Some (String lbrace (mid +:+ String rbrace EmptyString)).
Proof.
  intros Hpre Hpost. induction pre as [ | c pre IH ]; simpl.
  - by rewrite uptoLastBrace_closing.
  - simpl in Hpre. apply orb_false_iff in Hpre as [Hc Hpre].
    rewrite Hc. by apply IH.
Qed.

(** X8: the text that the parsers hand to [JSON.parse] runs from the first
    opening brace of the reply to its last closing brace; there is one
    exactly when the reply has a closing brace after an opening one. *)
Theorem matchBraces_first_to_last (text m : string) :
  matchBraces text = Some m <->
  exists pre mid post,
    text = pre +:+ String lbrace (mid +:+ String rbrace post) /\
    m = String lbrace (mid +:+ String rbrace EmptyString) /\
    occurs lbrace pre = false /\ occurs rbrace post = false.
Proof.
  split.
  - revert m. induction text as [ | c text IH ]; intros m; simpl; [ discriminate | ].
    destruct (Ascii.eqb_spec c lbrace) as [-> | Hc].
    + destruct (uptoLastBrace text) as [m' | ] eqn:Hup.
      * intros [= <-].
        apply uptoLastBrace_Some in Hup as (mid & post & -> & -> & Hpost).
        by exists EmptyString, mid, post.
      * apply uptoLastBrace_None in Hup.
        by rewrite (matchBraces_no_closing _ Hup).
    + intros H. destruct (IH m H) as (pre & mid & post & -> & -> & Hpre & Hpost).
      exists (String c pre), mid, post. repeat split; [ | done ].
      simpl. rewrite Hpre. by apply Ascii.eqb_neq in Hc as ->.
  - intros (pre & mid & post & -> & -> & Hpre & Hpost).
    by apply matchBraces_found.
Qed.

Variable JSON_parse : string -> option AiPlan.

(** X9: what stands before the first opening brace and after the last
    closing brace of a reply is ignored: the plan is the plan read from the
    part between them. *)
Theorem parsePlanningResponse_ignores_prose (pre mid post : string)
    (Hpre : occurs lbrace pre = false) (Hpost : occurs rbrace post = false) :
  parsePlanningResponse JSON_parse
    (pre +:+ String lbrace (mid +:+ String rbrace post)) =
  parsePlanningResponse JSON_parse (String lbrace (mid +:+ String rbrace EmptyString)).
Proof.
  unfold parsePlanningResponse.
  rewrite (matchBraces_found pre mid post Hpre Hpost).
  assert (H : matchBraces (String lbrace (mid +:+ String rbrace EmptyString)) =
              Some (String lbrace (mid +:+ String rbrace EmptyString)))
    by exact (matchBraces_found EmptyString mid EmptyString eq_refl eq_refl).
  by rewrite H.
Qed.

End Replies.

(** X9 holds of an empty object in a fenced block. *)
Lemma parsePlanningResponse_ignores_prose_witness :
  occurs AIService.lbrace "```json " = false /\
  occurs AIService.rbrace " ```" = false /\
  AIService.parsePlanningResponse parseObject fencedReply =
  AIService.parsePlanningResponse parseObject "{}".
Proof.
  split; [ reflexivity | ]. split; [ reflexivity | ].
  exact (parsePlanningResponse_ignores_prose parseObject
           "```json " EmptyString " ```" eq_refl eq_refl).
Defined.

Section ConflictOutage.

Import AIService.

Variable JSON_parse : string -> option Resolution.

(** How the calls to the model settle, one after the other. *)
Variable replies : nat -> Completion string.

Variable latestData : LatestData.

(** X10: when every call to the oracle fails, or comes back with a text
    that holds no object that [JSON.parse] accepts, conflict resolution
    goes through on every plan that has a schedule: it returns the schedule
    as it is, records every conflict as not applied and writes nothing to
    the resolution log. *)
Theorem resolveConflicts_survives_outage (aiPlan : AiPlan)
    (table : list ConflictResolutionRow)
    (Houtage : forall n,
       (exists message, replies n = Throw message) \/
       (exists text, replies n = Return text /\
                     (matchBraces text = None \/
                      exists m, matchBraces text = Some m /\ JSON_parse m = None))) :
  resolveConflicts
    (fun n _ => analyzeConflict JSON_parse (replies n))
    latestData aiPlan table =
  match schedule aiPlan with
  | Some tasks =>
      (Return {| updatedSchedule := tasks;
                 resolvedConflicts :=
                   map unresolved (default [] (conflicts_detected aiPlan)) |},
       table)
  | None => (Throw "aiPlan.schedule is not iterable", table)
  end.
Proof.
  assert (Hnull : forall n, analyzeConflict JSON_parse (replies n) = None).
  { intros n. unfold analyzeConflict, parseConflictResponse.
    destruct (Houtage n) as [(message & ->) | (text & -> & [-> | (m & -> & ->)])];
      reflexivity. }
  assert (Hrun : forall cs st,
            resolveConflicts_from
              (fun n _ => analyzeConflict JSON_parse (replies n))
              latestData st cs table =
            (Return {| updatedSchedule := updatedSchedule st;
                       resolvedConflicts := resolvedConflicts st ++ map unresolved cs |},
             table)).
  { induction cs as [ | conflict cs IH ]; intros st; simpl.
    - rewrite app_nil_r. by destruct st.
    - unfold resolveConflicts_body. rewrite Hnull. simpl.
      rewrite IH. simpl. by rewrite <- app_assoc. }
  unfold resolveConflicts, entering.
  destruct (schedule aiPlan) as [tasks | ]; [ | reflexivity ]. by rewrite Hrun.
Qed.

End ConflictOutage.

(** X10 holds of an oracle that cannot be reached. *)
Lemma resolveConflicts_survives_outage_witness :
  (forall n : nat,
     (exists message, unreachable n = Throw message) \/
     (exists text, unreachable n = Return text /\
                   (AIService.matchBraces text = None \/
                    exists m, AIService.matchBraces text = Some m /\
                              rejectsAll m = None))) /\
  resolveConflicts
    (fun n _ => AIService.analyzeConflict rejectsAll (unreachable n))
    noData
    {| schedule := Some [standup; report];
       conflicts_detected := Some [overlapConflict; overlapConflict];
       recommendations := None |} [] =
  (Return {| updatedSchedule := [standup; report];
             resolvedConflicts :=
               [unresolved overlapConflict; unresolved overlapConflict] |},
   []).
Proof.
  assert (H : forall n : nat,
     (exists message, unreachable n = Throw message) \/
     (exists text, unreachable n = Return text /\
                   (AIService.matchBraces text = None \/
                    exists m, AIService.matchBraces text = Some m /\
                              rejectsAll m = None)))
    by (intros n; left; by exists "timeout").
  split; [ exact H | ].
  exact (resolveConflicts_survives_outage rejectsAll
           unreachable noData
           {| schedule := Some [standup; report];
              conflicts_detected := Some [overlapConflict; overlapConflict];
              recommendations := None |} [] H).
Defined.
(** ** What the reviewer learns *)

Section Effectiveness.

Import Reviewer Learning.

Lemma countCompletion_other effectiveness task priority :
  task_priority task <> priority ->
  countCompletion effectiveness task !! priority = effectiveness !! priority.
Proof. intros Hne. unfold countCompletion. by rewrite lookup_insert_ne. Qed.

Lemma countCompletion_same effectiveness task :
  let e := default newEffectiveness (effectiveness !! task_priority task) in
  0 <= eff_count e ->
  exists e', countCompletion effectiveness task !! task_priority task = Some e' /\
             eff_count e' = eff_count e + 1 /\
             eff_avgDelay e' = eff_avgDelay e /\
             (eff_completionRate e' ==
              (eff_completionRate e * inject_Z (eff_count e) + 1) /
              inject_Z (eff_count e + 1))%Q.
Proof.
  intros e He. unfold countCompletion. fold e. rewrite lookup_insert_eq.
  eexists. repeat split; simpl.
  replace (eff_count e + 1 - 1) with (eff_count e) by lia. reflexivity.
Qed.

Lemma updatePriorityEffectiveness_fold priority tasks : forall effectiveness e,
  e = default newEffectiveness (effectiveness !! priority) ->
  0 <= eff_count e ->
  (tasksOf priority tasks = 0 ->
   fold_left countCompletion tasks effectiveness !! priority = effectiveness !! priority) /\
  (1 <= tasksOf priority tasks ->
   exists e', fold_left countCompletion tasks effectiveness !! priority = Some e' /\
              eff_count e' = eff_count e + tasksOf priority tasks /\
              eff_avgDelay e' = eff_avgDelay e /\
              (eff_completionRate e' ==
               (eff_completionRate e * inject_Z (eff_count e) +
                inject_Z (tasksOf priority tasks)) /
               inject_Z (eff_count e + tasksOf priority tasks))%Q).
Proof.
  unfold tasksOf.
  induction tasks as [ | task tasks IH ]; intros effectiveness e Hdef He.
  - simpl. split; [ done | lia ].
  - cbn [List.filter fold_left].
    destruct (String.eqb_spec (task_priority task) priority) as [Heq | Hne].
    + destruct (countCompletion_same effectiveness task) as (e1 & H1 & Hc1 & Hd1 & Hr1).
      { rewrite Heq, <- Hdef. exact He. }
      rewrite Heq in H1, Hc1, Hd1, Hr1. rewrite <- Hdef in Hc1, Hd1, Hr1.
      destruct (IH (countCompletion effectiveness task) e1) as [IH0 IHn];
        [ by rewrite H1 | lia | ].
      cbn [length].
      set (m := length (List.filter _ tasks)) in *.
      split; [ lia | intros _ ].
      destruct (decide (m = 0%nat)) as [Hm | Hm].
      * rewrite IH0 by lia. exists e1. repeat split; try done.
        -- rewrite Hm. lia.
        -- rewrite Hm. exact Hr1.
      * destruct IHn as (e' & H' & Hc' & Hd' & Hr'); [ lia | ].
        exists e'. repeat split; try done.
        -- lia.
        -- congruence.
        -- rewrite Hr', Hr1, Hc1.
           replace (eff_count e + Z.of_nat (S m)) with (eff_count e + 1 + Z.of_nat m) by lia.
           rewrite Nat2Z.inj_succ. unfold Z.succ.
           rewrite !inject_Z_plus.
           assert (0 <= inject_Z (eff_count e))%Q
             by (change 0%Q with (inject_Z 0); rewrite <- Zle_Qle; lia).
           assert (0 < inject_Z (Z.of_nat m))%Q
             by (change 0%Q with (inject_Z 0); rewrite <- Zlt_Qlt; lia).
           change (inject_Z 1) with 1%Q. field. split; lra.
    + destruct (IH (countCompletion effectiveness task) e) as [IH0 IHn];
        [ by rewrite countCompletion_other | done | ].
      rewrite countCompletion_other in IH0 by done. by split.
Qed.

(** X11: a priority with [n] completed tasks in the period, [n] at least 1,
    has its count raised by [n], and its rate becomes
    [(rate * count + n) / (count + n)]: every completed task counts as a
    success and nothing counts as a failure. A priority seen for the first
    time has the rate 1. The priorities of the other tasks are left as they
    are. *)
Theorem updatePriorityEffectiveness_closed_form
    (current : option (gmap string Effectiveness))
    (performanceData : PerformanceData) (priority : string)
    (Hcount : 0 <= eff_count (default newEffectiveness (default ∅ current !! priority))) :
  let before := default newEffectiveness (default ∅ current !! priority) in
  let n := tasksOf priority (completedTasks performanceData) in
  let after := updatePriorityEffectiveness current performanceData !! priority in
  (n = 0 -> after = default ∅ current !! priority) /\
  (1 <= n ->
   exists e, after = Some e /\
             eff_count e = eff_count before + n /\
             (eff_completionRate e ==
              (eff_completionRate before * inject_Z (eff_count before) + inject_Z n) /
              inject_Z (eff_count before + n))%Q /\
             (default ∅ current !! priority = None -> (eff_completionRate e == 1)%Q)).
Proof.
  intros before n after.
  destruct (updatePriorityEffectiveness_fold priority (completedTasks performanceData)
              (default ∅ current) before eq_refl Hcount) as [H0 Hn].
  split; [ exact H0 | ].
  intros Hpos. destruct (Hn Hpos) as (e & He & Hc & _ & Hr).
  exists e. repeat split; try done.
  intros Hnone. rewrite Hr. unfold before. rewrite Hnone.
  cbn [default from_option id newEffectiveness eff_completionRate eff_count].
  fold n. assert (0 < inject_Z n)%Q
    by (change 0%Q with (inject_Z 0); rewrite <- Zlt_Qlt; lia).
  rewrite Z.add_0_l. field. lra.
Qed.

End Effectiveness.

(** X11 holds of the day on which the one High task is completed, with
    nothing learned before. *)
Lemma updatePriorityEffectiveness_closed_form_witness :
  0 <= Learning.eff_count
         (default Learning.newEffectiveness
            (default ∅ (@None (gmap string Learning.Effectiveness)) !! "High")) /\
  exists e,
    Learning.updatePriorityEffectiveness None dayOfSuccess !! "High" = Some e /\
    Learning.eff_count e = 1 /\
    (Learning.eff_completionRate e == 1)%Q.
Proof.
  assert (H : 0 <= Learning.eff_count
                (default Learning.newEffectiveness
                   (default ∅ (@None (gmap string Learning.Effectiveness)) !! "High")))
    by (vm_compute; discriminate).
  split; [ exact H | ].
  destruct (updatePriorityEffectiveness_closed_form None dayOfSuccess "High" H)
    as [_ Hn].
  destruct Hn as (e & He & Hc & _ & Hone); [ vm_compute; discriminate | ].
  exists e. split; [ exact He | ]. split.
  - rewrite Hc. reflexivity.
  - apply Hone. reflexivity.
Defined.

Section RatesInRange.

Import Reviewer Learning.

Lemma countTask_counts completedTasks priorityStats task :
  (forall p st, priorityStats !! p = Some st ->
                0 <= completed st <= total st /\ 1 <= total st) ->
  forall p st, countTask completedTasks priorityStats task !! p = Some st ->
               0 <= completed st <= total st /\ 1 <= total st.
Proof.
  intros Hinv p st. unfold countTask.
  destruct (decide (task_priority task = p)) as [<- | Hne].
  - rewrite lookup_insert_eq. intros [= <-].
    destruct (priorityStats !! task_priority task) as [st0 | ] eqn:Hst0;
      cbn [default from_option id].
    + destruct (Hinv _ _ Hst0).
      destruct (includes completedTasks task); simpl; lia.
    + destruct (includes completedTasks task); simpl; lia.
  - rewrite lookup_insert_ne by done. apply Hinv.
Qed.

Lemma priorityStatsOf_counts performanceData p st :
  priorityStatsOf performanceData !! p = Some st ->
  0 <= completed st <= total st /\ 1 <= total st.
Proof.
  unfold priorityStatsOf.
  assert (H : forall ts stats,
            (forall p st, stats !! p = Some st ->
                          0 <= completed st <= total st /\ 1 <= total st) ->
            forall p st,
              fold_left (countTask (completedTasks performanceData)) ts stats !! p
              = Some st ->
              0 <= completed st <= total st /\ 1 <= total st).
  { induction ts as [ | task ts IH ]; intros stats Hinv; [ exact Hinv | ].
    simpl. apply IH. by apply countTask_counts. }
  apply H. intros p' st'. by rewrite lookup_empty.
Qed.

Lemma newRate_in_range st :
  0 <= completed st <= total st -> 1 <= total st ->
  (0 <= newRate st <= 1)%Q.
Proof.
  intros Hc Ht. unfold newRate.
  assert (0 < inject_Z (total st))%Q
    by (change 0%Q with (inject_Z 0); rewrite <- Zlt_Qlt; lia).
  assert (0 <= inject_Z (completed st))%Q
    by (change 0%Q with (inject_Z 0); rewrite <- Zle_Qle; lia).
  assert (inject_Z (completed st) <= inject_Z (total st))%Q
    by (rewrite <- Zle_Qle; lia).
  split.
  - apply Qle_shift_div_l; [ done | lra ].
  - apply Qle_shift_div_r; [ done | lra ].
Qed.

(** X12: the completion rates stay rates: when every stored rate lies
    between 0 and 1, so does every rate after the update, whatever the
    tasks of the period. *)
Theorem updateCompletionRates_in_range (current : option (gmap string Q))
    (performanceData : PerformanceData)
    (Hcurrent : forall priority rate,
       default ∅ current !! priority = Some rate -> (0 <= rate <= 1)%Q) :
  forall priority rate,
    updateCompletionRates current performanceData !! priority = Some rate ->
    (0 <= rate <= 1)%Q.
Proof.
  intros priority rate. rewrite updateCompletionRates_lookup.
  destruct (priorityStatsOf performanceData !! priority) as [st | ] eqn:Hst;
    [ | apply Hcurrent ].
  apply priorityStatsOf_counts in Hst as [Hc Ht].
  pose proof (newRate_in_range st Hc Ht) as Hnew.
  destruct (default ∅ current !! priority) as [previous | ] eqn:Hprev.
  - specialize (Hcurrent _ _ Hprev).
    destruct (truthy previous); intros [= <-]; [ lra | done ].
  - by intros [= <-].
Qed.

End RatesInRange.

(** X12 holds of a stored rate of one half and a day of success. *)
Lemma updateCompletionRates_in_range_witness :
  (forall priority rate,
     default ∅ (Some ({[ "High" := 0.5%Q ]} : gmap string Q)) !! priority = Some rate ->
     (0 <= rate <= 1)%Q) /\
  forall priority rate,
    Reviewer.updateCompletionRates (Some {[ "High" := 0.5%Q ]}) dayOfSuccess
      !! priority = Some rate ->
    (0 <= rate <= 1)%Q.
Proof.
  assert (H : forall priority rate,
     default ∅ (Some ({[ "High" := 0.5%Q ]} : gmap string Q)) !! priority = Some rate ->
     (0 <= rate <= 1)%Q).
  { intros priority rate. cbn [default from_option id].
    intros [_ <-]%lookup_singleton_Some. lra. }
  split; [ exact H | ].
  exact (updateCompletionRates_in_range _ dayOfSuccess H).
Defined.

Section EmptyDays.

Import Reviewer Learning.

Lemma adaptMaxDailyTasks_rate_0 m :
  3 <= m ->
  spread (Some m) (adaptMaxDailyTasks 0 (Some m)) = Some (Z.max 3 (m - 1)).
Proof.
  intros Hm. unfold adaptMaxDailyTasks.
  change (Qltb 0 0.7) with true. cbn [andb].
  destruct (Z.ltb_spec 3 m); simpl.
  - reflexivity.
  - change (Qgtb 0 0.9) with false. simpl. f_equal. lia.
Qed.

(** X13: a day for which the tracker reports no task at all, completed or
    missed, has the completion rate 0 and takes one off [maxDailyTasks],
    down to 3: after [k] such days a stored value [m] is [max 3 (m - k)]. *)
Theorem empty_days_lower_maxDailyTasks (stored : option UserPreferences) (m : Z)
    (Hstored : storedMaxDailyTasks stored = Some m) (Hm : 3 <= m)
    (days : list (Z * TimeUsage)) :
  storedMaxDailyTasks (adaptations (emptyDays days) stored)
    = Some (Z.max 3 (m - Z.of_nat (length days))).
Proof.
  revert stored m Hstored Hm.
  induction days as [ | [now usage] days IH ]; intros stored m Hstored Hm.
  - simpl. rewrite Hstored. f_equal. lia.
  - cbn [emptyDays map adaptations fold_left fst snd].
    fold (emptyDays days). fold (adaptations (emptyDays days)).
    rewrite (IH _ (Z.max 3 (m - 1))); [ f_equal; cbn [length]; lia | | lia ].
    rewrite (adaptUserPreferences_maxDailyTasks _ _ _ m Hstored).
    apply adaptMaxDailyTasks_rate_0, Hm.
Qed.

(** X14: a store that holds no [maxDailyTasks] never gets one: the
    adaptation compares the missing value with 3 and with 12, both
    comparisons fail, and the [|| 8] of the source is not reached. *)
Theorem maxDailyTasks_never_initialised (stored : option UserPreferences)
    (Hunset : storedMaxDailyTasks stored = None)
    (calls : list (Z * PerformanceData)) :
  storedMaxDailyTasks (adaptations calls stored) = None.
Proof.
  revert stored Hunset.
  induction calls as [ | [now performanceData] calls IH ]; intros stored Hunset;
    [ exact Hunset | ].
  cbn [adaptations fold_left fst snd]. fold (adaptations calls).
  apply IH. unfold adaptUserPreferences.
  assert (Hcur : maxDailyTasks (default noPreferences stored) = None).
  { destruct stored as [prefs | ]; [ exact Hunset | reflexivity ]. }
  cbv zeta. rewrite Hcur. cbn [adaptMaxDailyTasks present].
  rewrite orb_false_r.
  destruct (_ || _); [ reflexivity | exact Hunset ].
Qed.

End EmptyDays.

(** X13 holds of a store with 8 tasks a day and two empty days. *)
Lemma empty_days_lower_maxDailyTasks_witness :
  let stored :=
    Some {| Reviewer.maxDailyTasks := Some 8;
            Reviewer.peakProductivityHours := None;
            Reviewer.preferredTaskDuration := None;
            Reviewer.lastAdapted := None |} in
  let usage := {| Reviewer.averageDuration := 0; Reviewer.productiveHours := [] |} in
  storedMaxDailyTasks stored = Some 8 /\ 3 <= 8 /\
  storedMaxDailyTasks
    (adaptations (emptyDays [(1704146400000, usage); (1704232800000, usage)]) stored)
  = Some 6.
Proof.
  intros stored usage. split; [ reflexivity | ]. split; [ lia | ].
  exact (empty_days_lower_maxDailyTasks stored 8 eq_refl ltac:(lia)
           [(1704146400000, usage); (1704232800000, usage)]).
Defined.

(** X14 holds of an empty store and the two sample days. *)
Lemma maxDailyTasks_never_initialised_witness :
  storedMaxDailyTasks None = None /\
  storedMaxDailyTasks
    (adaptations [(1704146400000, dayOfMisses); (1704232800000, dayOfSuccess)] None)
  = None.
Proof.
  split; [ reflexivity | ].
  exact (maxDailyTasks_never_initialised None eq_refl
           [(1704146400000, dayOfMisses); (1704232800000, dayOfSuccess)]).
Defined.

(** ** Productive time slots *)

Section MapEntries.

Context {V : Type}.

Implicit Types (m : list (string * V)) (k : string) (v : V).

Lemma JsMap_set_fresh k v m : k ∉ map fst m -> JsMap.set k v m = m ++ [(k, v)].
Proof.
  induction m as [ | [k' v'] m IH ]; simpl; [ done | ].
  intros Hnot. apply not_elem_of_cons in Hnot as [Hne Hnot].
  destruct (String.eqb_spec k' k); [ congruence | ]. by rewrite IH.
Qed.

Lemma JsMap_set_keys k v m : k ∈ map fst m -> map fst (JsMap.set k v m) = map fst m.
Proof.
  induction m as [ | [k' v'] m IH ]; simpl; [ by intros ?%elem_of_nil | ].
  intros Hin. destruct (String.eqb_spec k' k) as [ | Hne ]; [ done | ].
  simpl. f_equal. apply IH. apply elem_of_cons in Hin as [ | ]; congruence.
Qed.

Lemma JsMap_set_app k v m1 m2 :
  k ∈ map fst m1 -> JsMap.set k v (m1 ++ m2) = JsMap.set k v m1 ++ m2.
Proof.
  induction m1 as [ | [k' v'] m1 IH ]; simpl; [ by intros ?%elem_of_nil | ].
  intros Hin. destruct (String.eqb_spec k' k) as [ | Hne ]; [ done | ].
  simpl. f_equal. apply IH. apply elem_of_cons in Hin as [ | ]; congruence.
Qed.

Lemma JsMap_get_None k m : JsMap.get k m = None <-> k ∉ map fst m.
Proof.
  induction m as [ | [k' v'] m IH ]; simpl.
  - split; [ intros _; apply not_elem_of_nil | done ].
  - rewrite not_elem_of_cons. destruct (String.eqb_spec k' k) as [ | Hne ].
    + split; [ done | intros [? _]; congruence ].
    + rewrite IH. split; [ intros ?; split; congruence | by intros [_ ?] ].
Qed.

Lemma JsMap_get_Some k v m : JsMap.get k m = Some v -> (k, v) ∈ m.
Proof.
  induction m as [ | [k' v'] m IH ]; simpl; [ done | ].
  destruct (String.eqb_spec k' k) as [-> | ].
  - intros [= ->]. apply list_elem_of_here.
  - intros H. apply list_elem_of_further, IH, H.
Qed.

Lemma JsMap_get_app k m1 m2 :
  k ∈ map fst m1 -> JsMap.get k (m1 ++ m2) = JsMap.get k m1.
Proof.
  induction m1 as [ | [k' v'] m1 IH ]; simpl; [ by intros ?%elem_of_nil | ].
  intros Hin. destruct (String.eqb_spec k' k) as [ | Hne ]; [ done | ].
  apply IH. apply elem_of_cons in Hin as [ | ]; congruence.
Qed.

Lemma JsMap_set_Forall (P : string * V -> Prop) k v m :
  Forall P m -> P (k, v) -> Forall P (JsMap.set k v m).
Proof.
  intros Hm Hkv. induction Hm as [ | [k' v'] m Hx Hm IH ]; simpl.
  - by constructor.
  - destruct (String.eqb_spec k' k) as [-> | ]; by constructor.
Qed.

Lemma JsMap_set_NoDup k v m : NoDup (map fst m) -> NoDup (map fst (JsMap.set k v m)).
Proof.
  intros Hm. destruct (decide (k ∈ map fst m)) as [Hin | Hnot].
  - by rewrite JsMap_set_keys.
  - rewrite JsMap_set_fresh, map_app by done. simpl.
    apply NoDup_app. repeat split; [ done | | apply NoDup_singleton ].
    intros x Hx ->%list_elem_of_singleton. done.
Qed.

Lemma JsMap_set_elem k v m e :
  e ∈ map fst (JsMap.set k v m) -> e = k \/ e ∈ map fst m.
Proof.
  destruct (decide (k ∈ map fst m)) as [Hin | Hnot].
  - rewrite JsMap_set_keys by done. by right.
  - rewrite JsMap_set_fresh, map_app by done. simpl.
    intros [ | ->%list_elem_of_singleton]%elem_of_app; [ by right | by left ].
Qed.

End MapEntries.

Section Slots.

Import Learning.

Lemma byWeight_key a b : (byWeight a b == weightKey b - weightKey a)%Q.
Proof.
  unfold byWeight, weightKey, Z.sub.
  rewrite inject_Z_plus, inject_Z_opp. reflexivity.
Qed.

Lemma values_time (m : list (string * Slot)) :
  Forall filed m -> map time (JsMap.values m) = map fst m.
Proof.
  unfold JsMap.values. induction 1 as [ | [k v] m Hkv _ IH ]; [ reflexivity | ].
  simpl. by rewrite IH, Hkv.
Qed.

Lemma addCurrent_filed m slot :
  NoDup (map fst m) /\ Forall filed m ->
  NoDup (map fst (addCurrent m slot)) /\ Forall filed (addCurrent m slot).
Proof.
  intros [Hnd Hf]. unfold addCurrent. split.
  - by apply JsMap_set_NoDup.
  - by apply JsMap_set_Forall.
Qed.

Lemma addNew_filed m label :
  NoDup (map fst m) /\ Forall filed m ->
  NoDup (map fst (addNew m label)) /\ Forall filed (addNew m label).
Proof.
  intros [Hnd Hf]. unfold addNew.
  destruct (JsMap.get label m) as [s | ] eqn:Hget.
  - split; [ by apply JsMap_set_NoDup | ].
    apply JsMap_set_Forall; [ done | ].
    apply JsMap_get_Some in Hget. rewrite Forall_forall in Hf.
    apply (Hf _ Hget).
  - split; [ by apply JsMap_set_NoDup | by apply JsMap_set_Forall ].
Qed.

Lemma addNew_keys m label k :
  k ∈ map fst (addNew m label) -> k = label \/ k ∈ map fst m.
Proof.
  unfold addNew. destruct (JsMap.get label m); apply JsMap_set_elem.
Qed.

Lemma slotMap_filed current newSlots :
  let m := fold_left addNew newSlots (fold_left addCurrent current []) in
  NoDup (map fst m) /\ Forall filed m /\
  Forall (fun k => k ∈ map time current \/ k ∈ newSlots) (map fst m).
Proof.
  assert (H1 : forall cur m,
            NoDup (map fst m) /\ Forall filed m ->
            NoDup (map fst (fold_left addCurrent cur m)) /\
            Forall filed (fold_left addCurrent cur m)).
  { induction cur as [ | s cur IH ]; intros m Hm; [ done | ].
    simpl. by apply IH, addCurrent_filed. }
  assert (H2 : forall new m,
            NoDup (map fst m) /\ Forall filed m ->
            NoDup (map fst (fold_left addNew new m)) /\
            Forall filed (fold_left addNew new m)).
  { induction new as [ | s new IH ]; intros m Hm; [ done | ].
    simpl. by apply IH, addNew_filed. }
  assert (K1 : forall cur m (P : string -> Prop),
            Forall P (map fst m) -> Forall P (map time cur) ->
            Forall P (map fst (fold_left addCurrent cur m))).
  { induction cur as [ | s cur IH ]; intros m P Hm Hcur; [ done | ].
    simpl in *. inversion Hcur; subst. apply IH; [ | done ].
    apply Forall_forall. intros k Hk. unfold addCurrent in Hk.
    apply JsMap_set_elem in Hk as [-> | Hk]; [ done | ].
    rewrite Forall_forall in Hm. by apply Hm. }
  assert (K2 : forall new m (P : string -> Prop),
            Forall P (map fst m) -> Forall P new ->
            Forall P (map fst (fold_left addNew new m))).
  { induction new as [ | s new IH ]; intros m P Hm Hnew; [ done | ].
    simpl in *. inversion Hnew; subst. apply IH; [ | done ].
    apply Forall_forall. intros k Hk.
    apply addNew_keys in Hk as [-> | Hk]; [ done | ].
    rewrite Forall_forall in Hm. by apply Hm. }
  intros m. subst m.
  split; [ apply H2, H1; split; constructor | ].
  split; [ apply H2, H1; split; constructor | ].
  apply K2; [ apply K1; [ constructor | ] | ]; apply Forall_forall; auto.
Qed.

(** X15: the learned slots are at most five, of different labels, in
    descending order of weight, and every one of them was a learned slot
    before or is a productive hour of the period. *)
Theorem updateProductiveTimeSlots_top_five (current : option (list Slot))
    (newSlots : list string) :
  let out := updateProductiveTimeSlots current newSlots in
  (length out <= 5)%nat /\
  NoDup (map time out) /\
  descending weightKey out /\
  Forall (fun s => time s ∈ map time (default [] current) \/ time s ∈ newSlots) out.
Proof.
  intros out. unfold out, updateProductiveTimeSlots, JsArray.slice0.
  destruct (slotMap_filed (default [] current) newSlots) as (Hnd & Hf & Hk).
  set (m := fold_left addNew newSlots (fold_left addCurrent (default [] current) [])) in *.
  assert (Hperm : Permutation (map time (JsArray.sort byWeight (JsMap.values m)))
                    (map fst m)).
  { rewrite <- (values_time m Hf). apply Permutation_map, sort_Permutation. }
  repeat split.
  - rewrite length_take. lia.
  - change (map time ?l) with (time <$> l). rewrite fmap_take.
    eapply sublist_NoDup; [ | apply sublist_take ].
    change (NoDup (map time (JsArray.sort byWeight (JsMap.values m)))).
    by rewrite Hperm.
  - pose proof (sort_descending weightKey byWeight byWeight_key (JsMap.values m)) as Hs.
    by apply StronglySorted_take.
  - apply Forall_forall. intros s Hs.
    assert (Hin : time s ∈ map fst m).
    { rewrite <- Hperm. apply list_elem_of_fmap_2.
      apply elem_of_take in Hs as (i & Hi & _).
      eapply list_elem_of_lookup_2, Hi. }
    rewrite Forall_forall in Hk. by apply Hk.
Qed.

Lemma first_loop cur : forall acc,
  NoDup (map fst acc ++ map time cur) ->
  fold_left addCurrent cur acc =
  acc ++ map (fun s => (time s, {| time := time s;
                                   weight := if weight s =? 0 then 1 else weight s |}))
           cur.
Proof.
  induction cur as [ | s cur IH ]; intros acc Hnd; simpl.
  - by rewrite app_nil_r.
  - simpl in Hnd. apply NoDup_app in Hnd as (Hacc & Hdisj & Hcur).
    apply NoDup_cons in Hcur as [Hs Hcur].
    assert (Hfresh : time s ∉ map fst acc).
    { intros Hin. apply (Hdisj _ Hin). apply list_elem_of_here. }
    unfold addCurrent at 2. rewrite JsMap_set_fresh by done.
    rewrite IH.
    + by rewrite <- app_assoc.
    + rewrite map_app. simpl. rewrite <- app_assoc. simpl.
      apply NoDup_app. repeat split; [ done | | by apply NoDup_cons ].
      intros k Hk. apply Hdisj in Hk. done.
Qed.

Lemma second_loop new : forall ex nw,
  NoDup new ->
  (forall k, k ∈ map fst nw -> k ∉ new) ->
  Forall (fun kv => 1 <= weight kv.2) ex ->
  Forall (fun kv => weight kv.2 = 1) nw ->
  exists ex' nw',
    fold_left addNew new (ex ++ nw) = ex' ++ nw' /\
    map fst ex' = map fst ex /\
    Forall (fun kv => 1 <= weight kv.2) ex' /\
    Forall (fun kv => weight kv.2 = 1) nw'.
Proof.
  induction new as [ | label new IH ]; intros ex nw Hnd Hnw Hex Hone; simpl.
  - by exists ex, nw.
  - apply NoDup_cons in Hnd as [Hlabel Hnd].
    assert (Hnot : label ∉ map fst nw).
    { intros Hin. apply (Hnw _ Hin). apply list_elem_of_here. }
    destruct (decide (label ∈ map fst ex)) as [Hin | Hout].
    + unfold addNew at 2. rewrite JsMap_get_app by done.
      destruct (JsMap.get label ex) as [s | ] eqn:Hget.
      2: { apply JsMap_get_None in Hget. done. }
      rewrite JsMap_set_app by done.
      destruct (IH (JsMap.set label {| time := time s; weight := weight s + 1 |} ex) nw)
        as (ex' & nw' & Hfold & Hkeys & Hex' & Hnw'); try done.
      * intros k Hk Hin'. apply (Hnw _ Hk). by apply list_elem_of_further.
      * apply JsMap_set_Forall; [ done | ]. simpl.
        apply JsMap_get_Some in Hget. rewrite Forall_forall in Hex.
        specialize (Hex _ Hget). simpl in Hex. lia.
      * exists ex', nw'. repeat split; try done.
        rewrite Hkeys. by apply JsMap_set_keys.
    + unfold addNew at 2.
      assert (Hfresh : label ∉ map fst (ex ++ nw)).
      { rewrite map_app. intros [ | ]%elem_of_app; done. }
      rewrite (proj2 (JsMap_get_None label (ex ++ nw)) Hfresh).
      rewrite JsMap_set_fresh by done. rewrite <- app_assoc.
      destruct (IH ex (nw ++ [(label, {| time := label; weight := 1 |})]))
        as (ex' & nw' & Hfold & Hkeys & Hex' & Hnw'); try done.
      * intros k Hk Hin'. rewrite map_app in Hk.
        apply elem_of_app in Hk as [Hk | ->%list_elem_of_singleton]; [ | done ].
        apply (Hnw _ Hk). by apply list_elem_of_further.
      * apply Forall_app. split; [ done | ]. by constructor.
      * by exists ex', nw'.
Qed.

Lemma locked_step (cur : list Slot) (new : list string) :
  NoDup (map time cur) -> Forall (fun s => 0 <= weight s) cur ->
  length cur = 5%nat -> NoDup new ->
  let out := updateProductiveTimeSlots (Some cur) new in
  Permutation (map time out) (map time cur) /\
  Forall (fun s => 0 <= weight s) out /\
  length out = 5%nat.
Proof.
  intros Hnd Hw Hlen Hnew out.
  destruct (slotMap_filed cur new) as (_ & Hfiled & _).
  unfold out, updateProductiveTimeSlots, JsArray.slice0.
  cbn [default from_option id] in *.
  rewrite (first_loop cur []) in * by done. rewrite app_nil_l in *.
  set (ex := map (fun s : Slot => (time s, _)) cur) in *.
  destruct (second_loop new ex []) as (ex' & nw' & Hfold & Hkeys & Hex' & Hnw');
    try done.
  { intros k Hk. by apply elem_of_nil in Hk. }
  { unfold ex. apply Forall_forall. intros kv Hkv.
    apply list_elem_of_fmap in Hkv as (s & -> & Hs).
    rewrite Forall_forall in Hw. specialize (Hw _ Hs). simpl.
    destruct (Z.eqb_spec (weight s) 0); lia. }
  rewrite app_nil_r in Hfold. rewrite Hfold in *.
  apply Forall_app in Hfiled as [Hfiled _].
  unfold JsMap.values. rewrite map_app.
  rewrite (sort_app weightKey byWeight byWeight_key).
  2: { apply Forall_forall. intros x Hx. apply Forall_forall. intros y Hy.
       apply list_elem_of_fmap in Hx as (kx & -> & Hkx).
       apply list_elem_of_fmap in Hy as (ky & -> & Hky).
       rewrite Forall_forall in Hex', Hnw'.
       specialize (Hex' _ Hkx). specialize (Hnw' _ Hky).
       unfold weightKey. rewrite <- Zle_Qle. lia. }
  assert (Hlen' : length (JsArray.sort byWeight (map snd ex')) = 5%nat).
  { rewrite (Permutation_length (sort_Permutation _ _)), length_map.
    rewrite <- (length_map fst ex'), Hkeys. unfold ex.
    by rewrite !length_map. }
  rewrite take_app_length' by done.
  assert (Hkeys' : map fst ex' = map time cur).
  { rewrite Hkeys. unfold ex. rewrite map_map. reflexivity. }
  repeat split.
  - rewrite (Permutation_map time (sort_Permutation _ _)).
    change (map snd ex') with (JsMap.values ex').
    by rewrite (values_time ex' Hfiled), Hkeys'.
  - rewrite (sort_Permutation byWeight (map snd ex')).
    apply Forall_forall. intros s Hs.
    apply list_elem_of_fmap in Hs as (kv & -> & Hkv).
    rewrite Forall_forall in Hex'. specialize (Hex' _ Hkv). lia.
  - exact Hlen'.
Qed.

(** X16: once five slots are learned, no other slot is ever learned: a new
    productive hour enters the map with the weight 1, behind the five, and
    is cut off. Whatever the productive hours of the days that follow, the
    labels of the learned slots stay the ones they are. *)
Theorem learned_slots_are_locked_in (current : list Slot) (days : list (list string))
    (Hlabels : NoDup (map time current))
    (Hweights : Forall (fun s => 0 <= weight s) current)
    (Hfive : length current = 5%nat)
    (Hdays : Forall NoDup days) :
  Permutation (map time (learnSlots days current)) (map time current).
Proof.
  revert current Hlabels Hweights Hfive.
  induction Hdays as [ | new days Hnew _ IH ]; intros current Hlabels Hweights Hfive;
    [ reflexivity | ].
  cbn [learnSlots fold_left]. fold (learnSlots days).
  destruct (locked_step current new Hlabels Hweights Hfive Hnew) as (Hperm & Hw & Hlen).
  rewrite IH; try done.
  by rewrite Hperm.
Qed.

End Slots.

(** X16 holds of five learned slots and two days whose most productive hour
    is a new one. *)
Lemma learned_slots_are_locked_in_witness :
  let days := [["11:00-12:00"; "9:00-10:00"]; ["11:00-12:00"]] in
  NoDup (map Learning.time fiveSlots) /\
  Forall (fun s => 0 <= Learning.weight s) fiveSlots /\
  length fiveSlots = 5%nat /\
  Forall NoDup days /\
  Permutation (map Learning.time (learnSlots days fiveSlots))
    (map Learning.time fiveSlots).
Proof.
  intros days.
  assert (H1 : NoDup (map Learning.time fiveSlots))
    by (apply (bool_decide_unpack _); vm_compute; exact I).
  assert (H2 : Forall (fun s => 0 <= Learning.weight s) fiveSlots)
    by (repeat constructor; simpl; lia).
  assert (H4 : Forall NoDup days)
    by (repeat constructor; apply (bool_decide_unpack _); vm_compute; exact I).
  split; [ exact H1 | ]. split; [ exact H2 | ]. split; [ reflexivity | ].
  split; [ exact H4 | ].
  exact (learned_slots_are_locked_in fiveSlots days H1 H2 eq_refl H4).
Defined.

(** ** The runner *)

Section RunnerAccounts.

Import Runner Lifecycle.

Variable execute :
  forall agentName : AgentName, World -> Completion (Result agentName) * World.

Lemma saveMetrics_runner st : (saveMetrics st).1 = st.1.
Proof. by destruct st. Qed.

Lemma runAgent_settle_counts agentName standalone startTime outcome st :
  let m := metrics st.1 in
  let m' := metrics (runAgent_settle agentName standalone startTime outcome st).2.1 in
  totalRuns m' = totalRuns m /\
  successfulRuns m' + errors m' = successfulRuns m + errors m + 1.
Proof.
  destruct st as [this w]. unfold runAgent_settle.
  destruct outcome; destruct standalone; cbn; lia.
Qed.

Lemma step_unsettled l e :
  unsettled (step execute l e) = unsettled l.
Proof.
  unfold unsettled. destruct l as [[this w] invs]. destruct e as [agentName standalone | k].
  - cbn. rewrite length_app. cbn. lia.
  - unfold step. cbn [state running].
    destruct (invs !! k) as [inv | ] eqn:Hk; [ | reflexivity ].
    destruct (execute (inv_agent inv) w) as [outcome w'].
    cbn [state running].
    pose proof (runAgent_settle_counts (inv_agent inv) (inv_standalone inv)
                  (inv_startTime inv) outcome (this, w')) as [Ht Hs].
    cbn [fst snd] in Ht, Hs.
    set (r := runAgent_settle _ _ _ outcome (this, w')) in *.
    apply lookup_lt_Some in Hk.
    rewrite length_delete by (by apply lookup_lt_is_Some_2).
    cbn [fst snd] in *. lia.
Qed.

(** X17: every run is counted once when it starts and once, as a success or
    as an error, when it settles, however the runs of the agents overlap:
    the total of the runs less the successes, the errors and the runs in
    flight never changes. For the runner that the constructor leaves it is
    0: at any moment the total is the successes plus the errors plus the
    runs in flight. For a runner that starts again and loads counters that
    were saved while runs were in flight, these runs are never settled: the
    total stays ahead of the successes, the errors and the runs in flight
    by their number. *)
Theorem runs_are_accounted (l : EventLoop) (events : list Event) :
  unsettled (run execute l events) = unsettled l /\
  (forall t,
     accounted (run execute {| state := initialState t; running := [] |} events)) /\
  (forall this w stored,
     runner_metrics w = Some stored ->
     unsettled (run execute {| state := loadMetrics (this, w); running := [] |} events)
     = totalRuns stored - (successfulRuns stored + errors stored)).
Proof.
  assert (H : forall events l, unsettled (run execute l events) = unsettled l).
  { clear. unfold run. induction events as [ | e events IH ]; intros l; [ reflexivity | ].
    simpl. rewrite IH. apply step_unsettled. }
  split; [ apply H | ]. split.
  - intros t. specialize (H events {| state := initialState t; running := [] |}).
    unfold accounted. unfold unsettled in H. cbn in H. cbn. lia.
  - intros this w stored Hstored. rewrite H.
    unfold unsettled, loadMetrics. rewrite Hstored. cbn. lia.
Qed.

(** X18: a run that a manual trigger starts saves the counters when it
    settles, with a result or with an error, and a runner that loads its
    metrics from the store afterwards has these counters. A run that a
    timer starts leaves the stored counters as the agent leaves them. *)
Theorem runAgent_saves_metrics_when_standalone (agentName : AgentName)
    (standalone : bool) (st fresh : State) :
  let after := (runAgent execute agentName standalone st).2 in
  let left_by_agent := (execute agentName st.2).2 in
  if standalone
  then runner_metrics after.2 = Some (metrics after.1) /\
       metrics (loadMetrics (fresh.1, after.2)).1 = metrics after.1
  else runner_metrics after.2 = runner_metrics left_by_agent.
Proof.
  destruct st as [this w]. destruct fresh as [this0 w0].
  unfold runAgent, runAgent_begin. cbn [fst snd].
  destruct (execute agentName w) as [[result | message] w'];
    destruct standalone; cbn; try done.
Qed.

(** X19: the first workflow runs the collector when the collected data is
    not fresh and the planner when the plan is not fresh, and nothing
    else: the collector alone, the planner alone, the two in this order,
    the planner whether the collection succeeded or not, or no agent at
    all, and then the runner and the store are left as they are. Every
    such run is counted. *)
Theorem runInitialWorkflow_runs_what_is_stale
    (lastCollection lastPlanning : option Z) (st : State) :
  let final := runInitialWorkflow execute lastCollection lastPlanning st in
  let hasData := Collector.isDataFresh (now st.2) lastCollection in
  let hasPlan := Planner.isPlanFresh (now st.2) lastPlanning in
  final =
    match hasData, hasPlan with
    | true, true => st
    | false, true => (runAgent execute collector false st).2
    | true, false => (runAgent execute planner false st).2
    | false, false =>
        (runAgent execute planner false (runAgent execute collector false st).2).2
    end /\
  totalRuns (metrics final.1) =
    totalRuns (metrics st.1) + stale hasData + stale hasPlan.
Proof.
  intros final hasData hasPlan. subst final. unfold runInitialWorkflow.
  fold hasData hasPlan.
  assert (Hrun : forall agentName st0,
            totalRuns (metrics (runAgent execute agentName false st0).2.1) =
            totalRuns (metrics st0.1) + 1).
  { intros agentName [this0 w0]. unfold runAgent, runAgent_begin.
    destruct (execute agentName w0) as [[result | message] w']; cbn; lia. }
  destruct hasData, hasPlan; cbn [stale]; (split; [ reflexivity | ]);
    rewrite ?Hrun; lia.
Qed.

End RunnerAccounts.

Section StartStop.

Import Runner Lifecycle.

Lemma schedules_size (jobs0 : gmap string string) :
  jobs0 = ∅ ->
  size (fold_left (fun jobs job => <[ job.1 := job.2 ]> jobs) schedules jobs0) = 5%nat.
Proof. intros ->. vm_compute. reflexivity. Qed.

(** X20: [start] on a runner that is running changes nothing: no job is
    set again and no second first workflow is planned. [stop] forgets the
    jobs and saves the state of a stopped runner, but the first workflow
    that [start] has planned stays due: [stop] has no handle on it. *)
Theorem start_is_guarded_and_stop_keeps_the_timeout (t t' : Z) (l : Timed) (w : World) :
  start t' (start t l) = start t l /\
  isRunning (runner (start t l)) = true /\
  let stopped := stop (start t l) w in
  isRunning (runner stopped.1) = false /\
  jobs (runner stopped.1) = ∅ /\
  system_health stopped.2 =
    Some {| health_timestamp := now w; health_isRunning := false;
            health_activeJobs := 0;
            health_metrics := metrics (runner l) |} /\
  timeouts stopped.1 = timeouts (start t l) /\
  (isRunning (runner l) = false -> timeouts stopped.1 = timeouts l ++ [t + 5000]).
Proof.
  unfold start, stop. destruct (isRunning (runner l)) eqn:Hrun.
  - rewrite Hrun. repeat split; try done.
  - cbn. repeat split; try done.
Qed.

End StartStop.

(** ** A planning run *)

Section PlanningRun.

Import AIService Optimizer PlannerRun.

Variable JSON_parse : string -> option AiPlan.
Variable planReply : Completion string.
Variable analyzeConflict : nat -> ConflictData -> option Resolution.
Variable clock : Clock.

Abbreviation run_planner := (execute JSON_parse planReply analyzeConflict clock).






(** X21: a planning run that throws logs one error, with the message that
    it throws, and leaves the latest plan and its time as they are: the
    plan of an earlier run stays the latest plan. The rows of the
    resolution log stay, and rows of the run may have been added. A run
    throws when no data was collected, when the call to the oracle fails,
    and when the reply is read as an object that has no schedule. *)
Theorem execute_failure_keeps_the_plan (db : Store) :
  (forall message db', run_planner db = (Throw message, db') ->
     latest_plan db' = latest_plan db /\
     last_planning_time db' = last_planning_time db /\
     (exists rows, resolutions db' = resolutions db ++ rows) /\
     executions db' = executions db ++ [errorRow message clock]) /\
  (latest_collected_data db = None ->
   exists db', run_planner db = (Throw "No data available from CollectorAgent", db') /\
               resolutions db' = resolutions db) /\
  (is_Some (latest_collected_data db) -> (exists e, planReply = Throw e) ->
   exists db', run_planner db = (Throw "Failed to generate AI plan", db') /\
               resolutions db' = resolutions db) /\
  (is_Some (latest_collected_data db) ->
   forall text, planReply = Return text ->
     schedule (parsePlanningResponse JSON_parse text) = None ->
     exists db', run_planner db = (Throw "aiPlan.schedule is not iterable", db') /\
                 resolutions db' = resolutions db).
Proof.
  split; [ | split; [ | split ] ].
  - intros message db'. unfold execute.
    assert (Hfailed : forall m saved,
              (exists rows, saved = resolutions db ++ rows) ->
              failed clock m (withResolutions saved db) = (Throw message, db') ->
              latest_plan db' = latest_plan db /\
              last_planning_time db' = last_planning_time db /\
              (exists rows, resolutions db' = resolutions db ++ rows) /\
              executions db' = executions db ++ [errorRow message clock]).
    { intros m saved Hrows [= <- <-]. repeat split. exact Hrows. }
    assert (Hsame : forall m,
              failed clock m db = failed clock m (withResolutions (resolutions db) db))
      by (intros m; by destruct db).
    assert (Hnone : exists rows, resolutions db = resolutions db ++ rows)
      by (exists []; by rewrite app_nil_r).
    destruct (latest_collected_data db) as [latestData | ].
    2: { rewrite Hsame. by apply Hfailed. }
    destruct (generateTaskPlan JSON_parse planReply) as [aiPlan | m].
    2: { rewrite Hsame. by apply Hfailed. }
    destruct (resolveConflicts analyzeConflict latestData aiPlan (resolutions db))
      as [[resolvedPlan | m] saved] eqn:Hresolve.
    2: { apply Hfailed. unfold resolveConflicts in Hresolve.
         destruct (entering aiPlan); [ by eapply from_rows | ].
         injection Hresolve as _ <-. exact Hnone. }
    cbn [learning withResolutions].
    destruct (optimizePlan _ _) as [optimizedPlan | m]; [ discriminate | ].
    apply Hfailed. unfold resolveConflicts in Hresolve.
    destruct (entering aiPlan); [ by eapply from_rows | discriminate ].
  - intros Hdata. unfold execute. rewrite Hdata. by eexists.
  - intros [latestData Hdata] [e He]. unfold execute. rewrite Hdata, He. by eexists.
  - intros [latestData Hdata] text Htext Hnone. unfold execute.
    rewrite Hdata, Htext. cbn [generateTaskPlan].
    unfold resolveConflicts, entering. rewrite Hnone. by eexists.
Qed.


(** X23: a reply of the oracle that holds no object that [JSON.parse]
    accepts does not fail the run: the run succeeds, and the plan that it
    stores as the latest plan, in place of the plan that was there, has no
    task and no conflict and one recommendation, which flags the failure. *)
Theorem execute_stores_an_empty_plan (db : Store) (latestData : LatestData)
    (text : string)
    (Hdata : latest_collected_data db = Some latestData)
    (Hreply : planReply = Return text)
    (Hbad : matchBraces text = None \/
            exists m, matchBraces text = Some m /\ JSON_parse m = None) :
  exists plan db' flag,
    run_planner db = (Return plan, db') /\
    latest_plan db' = Some plan /\
    fp_schedule plan = [] /\ fp_conflicts plan = [] /\
    fp_recommendations plan = [flag] /\
    (flag = "Failed to parse AI response" \/ flag = "Error parsing AI response") /\
    Runner.tasksScheduled (fp_metadata plan) = 0 /\
    resolutions db' = resolutions db /\
    executions db' = executions db ++ [successRow plan clock].
Proof.
  unfold execute. rewrite Hdata, Hreply. cbn [generateTaskPlan].
  assert (Hplan : exists flag,
            (flag = "Failed to parse AI response" \/
             flag = "Error parsing AI response") /\
            parsePlanningResponse JSON_parse text = fallbackPlan flag).
  { unfold parsePlanningResponse.
    destruct Hbad as [-> | (m & -> & ->)];
      [ exists "Failed to parse AI response" | exists "Error parsing AI response" ];
      split; auto. }
  destruct Hplan as (flag & Hflag & ->).
  assert (Hresolve :
            resolveConflicts analyzeConflict latestData (fallbackPlan flag)
              (resolutions db)
            = (Return {| updatedSchedule := []; resolvedConflicts := [] |},
               resolutions db)) by reflexivity.
  rewrite Hresolve. cbn [learning withResolutions updatedSchedule].
  assert (Hoptimize :
            optimizePlan [] (learning db)
            = Return {| optimizedSchedule := [];
                        optimizations := passes (learning db) |}).
  { rewrite optimizePlan_passes. unfold beforeBuffer.
    destruct (productiveTimeSlots (learning db));
      by destruct (taskTypeEfficiency (learning db)). }
  rewrite Hoptimize.
  eexists _, _, flag. split; [ reflexivity | ].
  repeat split; try reflexivity. exact Hflag.
Qed.

End PlanningRun.

(** The reply that holds an empty object is read as a plan without a
    schedule: the run throws, logs the error and stores no plan. *)
Example execute_on_an_empty_object :
  PlannerRun.execute parsePlan (Return fencedReply) sureOracle twoSeconds collectedStore
  = (Throw "aiPlan.schedule is not iterable",
     PlannerRun.logAgentExecution "error" None (Some "aiPlan.schedule is not iterable")
       2000 collectedStore).
Proof. reflexivity. Qed.


(** X23 holds of the same store and of a reply without an object. *)
Lemma execute_stores_an_empty_plan_witness :
  PlannerRun.latest_collected_data collectedStore = Some noData /\
  (AIService.matchBraces "I cannot plan this day." = None \/
   exists m, AIService.matchBraces "I cannot plan this day." = Some m /\
             parsePlan m = None) /\
  exists plan db',
    PlannerRun.execute parsePlan (Return "I cannot plan this day.") sureOracle
      twoSeconds collectedStore = (Return plan, db') /\
    PlannerRun.latest_plan db' = Some plan /\
    PlannerRun.fp_schedule plan = [] /\
    PlannerRun.fp_recommendations plan = ["Failed to parse AI response"].
Proof.
  assert (H : AIService.matchBraces "I cannot plan this day." = None \/
              exists m, AIService.matchBraces "I cannot plan this day." = Some m /\
                        parsePlan m = None)
    by (left; reflexivity).
  split; [ reflexivity | ]. split; [ exact H | ].
  destruct (execute_stores_an_empty_plan parsePlan (Return "I cannot plan this day.")
              sureOracle twoSeconds collectedStore noData "I cannot plan this day."
              eq_refl eq_refl H)
    as (plan & db' & flag & Hrun & Hplan & Hsched & _ & Hrec & _).
  exists plan, db'. repeat split; try assumption.
  vm_compute in Hrun. injection Hrun as <- _. reflexivity.
Defined.
(** ** More on the buffer pass, the confidence and the workflow *)

Section MoreProperties.

Lemma addBufferTime_body_id acc task :
  separated (acc ++ [task]) ->
  addBufferTime_body (length acc) acc task = Return task.
Proof.
  intros Hsep. destruct (last acc) as [prevTask | ] eqn:Hlast.
  - destruct (addBufferTime_body_cases acc prevTask task Hlast)
      as [[_ ->] | (finish & start & Hf & Hs & Hlt & _)]; [ reflexivity | exfalso ].
    assert (Hpos : (0 < length acc)%nat) by (destruct acc; [ discriminate | simpl; lia ]).
    rewrite last_lookup in Hlast.
    assert (Hgap : finish + 15 * 60 * 1000 <= start); [ | lia ].
    apply (Hsep (Nat.pred (length acc)) prevTask task); try assumption.
    + by rewrite lookup_app_l by lia.
    + replace (S (Nat.pred (length acc))) with (length acc) by lia.
      rewrite lookup_app_r by lia. by rewrite Nat.sub_diag.
  - apply last_None in Hlast as ->. reflexivity.
Qed.

Lemma separated_prefix (l1 l2 : list ScheduleEntry) :
  separated (l1 ++ l2) -> separated l1.
Proof.
  intros H j a b finish start Ha Hb. apply (H j).
  - rewrite lookup_app_l; [ done | by eapply lookup_lt_Some ].
  - rewrite lookup_app_l; [ done | by eapply lookup_lt_Some ].
Qed.

Lemma addBufferTime_loop_id rest : forall acc,
  separated (acc ++ rest) ->
  addBufferTime_loop (length acc) acc rest = Return (acc ++ rest).
Proof.
  induction rest as [ | task rest IH ]; intros acc Hsep; simpl.
  - by rewrite app_nil_r.
  - rewrite addBufferTime_body_id.
    + specialize (IH (acc ++ [task])). rewrite length_app in IH. simpl in IH.
      replace (length acc + 1)%nat with (S (length acc)) in IH by lia.
      simpl. rewrite IH; rewrite <- app_assoc; [ reflexivity | exact Hsep ].
    + apply (separated_prefix _ rest). by rewrite <- app_assoc.
Qed.

Lemma buffered_separated l : buffered l -> separated l.
Proof.
  intros H j a b finish start Ha Hb Hf Hs.
  destruct (H j a b Ha Hb) as (f & s & Hf' & Hs' & Hle). congruence.
Qed.

(** X24: the buffer pass leaves a schedule alone whose consecutive tasks
    are 15 minutes apart already, or have no dates to compare, and so
    running it on what it returns gives what running it once gives. *)
Theorem addBufferTime_idempotent (schedule : list ScheduleEntry) :
  (out ← addBufferTime schedule; addBufferTime out) = addBufferTime schedule /\
  (separated schedule -> addBufferTime schedule = Return schedule) /\
  (buffered schedule -> addBufferTime schedule = Return schedule).
Proof.
  split; [ | split ].
  - destruct (addBufferTime schedule) as [out | message] eqn:Hout; [ | reflexivity ].
    simpl. apply (addBufferTime_loop_id _ []). simpl.
    by eapply addBufferTime_separated.
  - intros Hsep. by apply (addBufferTime_loop_id _ []).
  - intros Hbuf. by apply (addBufferTime_loop_id _ []), buffered_separated.
Qed.

Import Optimizer.

(** X25: the confidence of a plan lies between 0 and 1, whatever the number
    of its unresolved conflicts and of its optimizations. *)
Theorem calculatePlanConfidence_in_range (plan : ConfidenceInput) :
  (0 <= calculatePlanConfidence plan <= 1)%Q.
Proof.
  unfold calculatePlanConfidence, Math_max, Math_min.
  set (c := (0.8 - _ + _)%Q).
  destruct (Qle_bool 1.0 c) eqn:H1.
  - change (Qle_bool 0.0 1.0) with true. cbn. lra.
  - destruct (Qle_bool 0.0 c) eqn:H0.
    + apply Qle_bool_iff in H0.
      assert (Hc : ~ (1.0 <= c)%Q) by (rewrite <- Qle_bool_iff; congruence).
      apply Qnot_le_lt in Hc. lra.
    + lra.
Qed.

End MoreProperties.

Section WorkflowEnd.

Import Runner.

Variable execute :
  forall agentName : AgentName, World -> Completion (Result agentName) * World.

(** X26: the full workflow ends, whether it failed or not, by writing one
    row for itself, the last of the log, with the status [success] or
    [failed], and by saving the counters of the runner, which are then the
    stored ones. *)
Theorem runFullWorkflow_logs_and_saves (st : State) :
  let final := runFullWorkflow execute st in
  runner_metrics final.2 = Some (metrics final.1) /\
  exists row,
    last (agent_executions final.2) = Some row /\
    agent_name row = "FULL_WORKFLOW" /\
    (status row = "success" /\ error_message row = None \/
     status row = "failed" /\ metadata row = None).
Proof.
  destruct st as [this w].
  unfold runFullWorkflow, runFullWorkflow_try, runAgent, runAgent_begin.
  cbn [fst snd].
  destruct (execute collector w) as [[collected | message] w1]; cbn.
  2: { split; [ done | ]. eexists. rewrite last_snoc. split; [ done | ]. auto. }
  destruct (execute planner (elapse 2000 w1)) as [[planned | message] w2]; cbn.
  2: { split; [ done | ]. eexists. rewrite last_snoc. split; [ done | ]. auto. }
  destruct (execute executor (elapse 1000 w2)) as [[executed | message] w3]; cbn;
    (split; [ done | ]); eexists; rewrite last_snoc; (split; [ done | ]); auto.
Qed.

End WorkflowEnd.

Section PriorityCounts.

Import Reviewer.

Lemma countTask_lookup completedTasks stats task p :
  countTask completedTasks stats task !! p =
  if String.eqb (task_priority task) p
  then counted (stats !! p) (if includes completedTasks task then 1 else 0) 1
  else stats !! p.
Proof.
  unfold countTask, counted.
  destruct (String.eqb_spec (task_priority task) p) as [<- | Hne].
  - rewrite lookup_insert_eq. cbn [Z.eqb].
    destruct (includes completedTasks task); simpl; do 2 f_equal; lia.
  - by rewrite lookup_insert_ne.
Qed.

Lemma counted_once stats i c t :
  0 <= c <= t -> counted (counted stats i 1) c t = counted stats (i + c) (1 + t).
Proof.
  intros Ht. unfold counted. cbn [Z.eqb].
  destruct (Z.eqb_spec (1 + t) 0); [ lia | ].
  destruct (Z.eqb_spec t 0) as [-> | ]; cbn [default from_option id completed total];
    f_equal; f_equal; lia.
Qed.

Lemma completedOf_le completedTasks p ts :
  0 <= completedOf p completedTasks ts <= tasksOf p ts.
Proof.
  unfold completedOf, tasksOf. split; [ lia | ].
  apply inj_le. induction ts as [ | task ts IH ]; [ done | ].
  simpl. destruct (String.eqb (task_priority task) p); simpl; [ | done ].
  destruct (includes completedTasks task); simpl; lia.
Qed.

Lemma countTask_fold completedTasks p ts : forall stats,
  fold_left (countTask completedTasks) ts stats !! p =
  counted (stats !! p) (completedOf p completedTasks ts) (tasksOf p ts).
Proof.
  unfold completedOf, tasksOf.
  induction ts as [ | task ts IH ]; intros stats; [ reflexivity | ].
  cbn [fold_left List.filter]. rewrite IH, countTask_lookup.
  destruct (String.eqb (task_priority task) p); cbn [andb]; [ | reflexivity ].
  rewrite counted_once by apply completedOf_le.
  destruct (includes completedTasks task); cbn [length]; f_equal; lia.
Qed.

Lemma includes_self completedTasks task :
  In task completedTasks -> includes completedTasks task = true.
Proof.
  intros Hin. unfold includes. apply existsb_exists.
  exists task. split; [ done | apply Nat.eqb_refl ].
Qed.

(** X27: when no missed task is one of the completed tasks, the statistics
    of a priority are the number of its completed tasks over the number of
    its completed and missed tasks, and a priority without a task in the
    period has no statistics. *)
Theorem priorityStatsOf_counts_tasks (performanceData : PerformanceData)
    (Hdistinct : Forall (fun task => includes (completedTasks performanceData) task = false)
                   (missedTasks performanceData))
    (priority : string) :
  let c := tasksOf priority (completedTasks performanceData) in
  let m := tasksOf priority (missedTasks performanceData) in
  priorityStatsOf performanceData !! priority =
  if c + m =? 0 then None else Some {| completed := c; total := c + m |}.
Proof.
  intros c m. unfold priorityStatsOf. rewrite countTask_fold, lookup_empty.
  assert (Hc : completedOf priority (completedTasks performanceData)
                 (completedTasks performanceData ++ missedTasks performanceData) = c).
  { unfold completedOf, c, tasksOf. rewrite List.filter_app, length_app.
    assert (H1 : forall ts,
              (forall task, In task ts ->
                            includes (completedTasks performanceData) task = true) ->
              List.filter (fun task => String.eqb (task_priority task) priority
                                       && includes (completedTasks performanceData) task) ts
              = List.filter (fun task => String.eqb (task_priority task) priority) ts).
    { intros ts Hts. apply List.filter_ext_in. intros task Hin.
      by rewrite (Hts _ Hin), andb_true_r. }
    assert (H2 : List.filter (fun task => String.eqb (task_priority task) priority
                                          && includes (completedTasks performanceData) task)
                   (missedTasks performanceData) = []).
    { induction Hdistinct as [ | task ts Htask _ IH ]; [ reflexivity | ].
      simpl. by rewrite Htask, andb_false_r. }
    rewrite H2. rewrite H1 by (intros; by apply includes_self).
    cbn [length]. lia. }
  assert (Ht : tasksOf priority
                 (completedTasks performanceData ++ missedTasks performanceData) = c + m).
  { unfold c, m, tasksOf. rewrite List.filter_app, length_app. lia. }
  rewrite Hc, Ht. unfold counted.
  destruct (c + m =? 0); [ reflexivity | ].
  cbn [default from_option id completed total]. do 2 f_equal; lia.
Qed.

End PriorityCounts.

(** X27 holds of the day of the two missed tasks. *)
Lemma priorityStatsOf_counts_tasks_witness :
  Forall (fun task => Reviewer.includes (Reviewer.completedTasks dayOfMisses) task = false)
    (Reviewer.missedTasks dayOfMisses) /\
  Reviewer.priorityStatsOf dayOfMisses !! "High" =
    Some {| Reviewer.completed := 0; Reviewer.total := 2 |}.
Proof.
  assert (H : Forall (fun task => Reviewer.includes (Reviewer.completedTasks dayOfMisses)
                                    task = false)
                (Reviewer.missedTasks dayOfMisses)) by (repeat constructor).
  split; [ exact H | ].
  exact (priorityStatsOf_counts_tasks dayOfMisses H "High").
Defined.

(** ** The use of time *)

Section TimeUsageProperties.

Import Reviewer TimeAnalysis.

Variable localOffset : Z -> Z.

Abbreviation tallied tasks :=
  (fold_left (tallyTask localOffset) tasks
     {| durations := []; hourlyDistribution := replicate 24 0 |}).

Lemma getHours_lt t : (getHours localOffset t < 24)%nat.
Proof.
  unfold getHours.
  pose proof (Z.mod_pos_bound ((t + localOffset t) / 3600000) 24 ltac:(lia)). lia.
Qed.

(** What the callback does with a task: a counted task adds its duration
    and 1 to the count of the hour of its due date, another task adds
    nothing. *)
Lemma tallyTask_cases acc task :
  tallyTask localOffset acc task =
  match countedDuration task, due task with
  | Some duration, Some start =>
      {| durations := durations acc ++ [duration];
         hourlyDistribution :=
           alter (fun c => c + 1) (getHours localOffset start) (hourlyDistribution acc) |}
  | _, _ => acc
  end.
Proof.
  unfold tallyTask, countedDuration.
  destruct (due task) as [start | ]; [ | reflexivity ].
  destruct (dueEnd task) as [finish | ]; [ | reflexivity ].
  cbv zeta. by destruct (_ && _).
Qed.

Lemma startingIn_cons h task tasks :
  startingIn localOffset h (task :: tasks) =
  (if startsIn localOffset h task then 1 else 0) + startingIn localOffset h tasks.
Proof.
  unfold startingIn. simpl. destruct (startsIn localOffset h task); simpl; lia.
Qed.

Lemma tally_spec tasks : forall acc,
  let out := fold_left (tallyTask localOffset) tasks acc in
  durations out = durations acc ++ omap countedDuration tasks /\
  length (hourlyDistribution out) = length (hourlyDistribution acc) /\
  forall h, hourlyDistribution out !! h =
            (fun c => c + startingIn localOffset h tasks) <$> hourlyDistribution acc !! h.
Proof.
  induction tasks as [ | task tasks IH ]; intros acc; simpl.
  - rewrite app_nil_r. repeat split. intros h.
    destruct (hourlyDistribution acc !! h) as [c | ]; simpl; [ | done ].
    f_equal. unfold startingIn. simpl. lia.
  - destruct (IH (tallyTask localOffset acc task)) as (Hdur & Hlen & Hhours).
    rewrite Hdur, Hlen. rewrite tallyTask_cases in *.
    unfold startsIn in *.
    destruct (countedDuration task) as [duration | ] eqn:Hcounted.
    2: { repeat split. intros h. rewrite Hhours, startingIn_cons.
         unfold startsIn. rewrite Hcounted.
         destruct (hourlyDistribution acc !! h); simpl; f_equal; lia. }
    destruct (due task) as [start | ] eqn:Hdue.
    2: { unfold countedDuration in Hcounted. rewrite Hdue in Hcounted. discriminate. }
    cbn [durations hourlyDistribution] in *. rewrite <- app_assoc, length_alter.
    repeat split. intros h. rewrite Hhours, startingIn_cons.
    unfold startsIn. rewrite Hcounted, Hdue.
    destruct (Nat.eqb_spec (getHours localOffset start) h) as [<- | Hne].
    + rewrite list_lookup_alter_eq.
      destruct (hourlyDistribution acc !! _); simpl; f_equal; lia.
    + rewrite list_lookup_alter_ne by done.
      destruct (hourlyDistribution acc !! h); simpl; f_equal; lia.
Qed.

Lemma tallied_durations tasks :
  durations (tallied tasks) = omap countedDuration tasks.
Proof.
  by destruct (tally_spec tasks
                 {| durations := []; hourlyDistribution := replicate 24 0 |})
    as (-> & _).
Qed.

Lemma tallied_length tasks : length (hourlyDistribution (tallied tasks)) = 24%nat.
Proof.
  destruct (tally_spec tasks {| durations := []; hourlyDistribution := replicate 24 0 |})
    as (_ & -> & _). reflexivity.
Qed.

Lemma tallied_hours tasks h :
  (h < 24)%nat ->
  hourlyDistribution (tallied tasks) !! h = Some (startingIn localOffset h tasks).
Proof.
  intros Hh.
  destruct (tally_spec tasks {| durations := []; hourlyDistribution := replicate 24 0 |})
    as (_ & _ & ->).
  cbn [hourlyDistribution]. by rewrite lookup_replicate_2.
Qed.

Lemma countedDuration_range task duration :
  countedDuration task = Some duration -> 1 <= duration <= 479.
Proof.
  unfold countedDuration.
  destruct (due task) as [start | ]; [ | discriminate ].
  destruct (dueEnd task) as [finish | ]; [ | discriminate ]. cbv zeta.
  destruct (Z.ltb_spec 0 (differenceInMinutes finish start));
    destruct (Z.ltb_spec (differenceInMinutes finish start) 480);
    simpl; try discriminate.
  intros [= <-]. lia.
Qed.

Lemma hourLabel_inj h1 h2 :
  (h1 < 24)%nat -> (h2 < 24)%nat -> hourLabel h1 = hourLabel h2 -> h1 = h2.
Proof.
  intros H1 H2 Heq.
  assert (Hnd : NoDup (map hourLabel (seq 0 24)))
    by (apply (bool_decide_unpack _); vm_compute; exact I).
  apply (proj1 (NoDup_alt _) Hnd h1 h2 (hourLabel h1)).
  - change (map hourLabel (seq 0 24)) with (hourLabel <$> seq 0 24).
    rewrite list_lookup_fmap, lookup_seq_lt by done. reflexivity.
  - change (map hourLabel (seq 0 24)) with (hourLabel <$> seq 0 24).
    rewrite list_lookup_fmap, lookup_seq_lt by done. simpl. by rewrite Heq.
Qed.

Lemma byCount_key a b :
  (byCount a b == inject_Z (count b) - inject_Z (count a))%Q.
Proof.
  unfold byCount, Z.sub. rewrite inject_Z_plus, inject_Z_opp. reflexivity.
Qed.

Lemma sublist_filter {X} (p : X -> bool) (l : list X) : List.filter p l `sublist_of` l.
Proof.
  induction l as [ | x l IH ]; simpl; [ constructor | ].
  destruct (p x); by constructor.
Qed.

(** The hours that are ranked: those in which a counted task starts, with
    the number of these tasks, in descending order of this number. *)
Lemma ranked_hours tasks :
  let ranked :=
    JsArray.sort byCount
      (List.filter (fun h => 0 <? count h)
         (imap (fun hour count => {| hour := hour; count := count |})
            (hourlyDistribution (tallied tasks)))) in
  (forall cell, cell ∈ ranked <->
     (hour cell < 24)%nat /\ count cell = startingIn localOffset (hour cell) tasks /\
     0 < count cell) /\
  NoDup (map hour ranked) /\
  descending (fun cell => inject_Z (count cell)) ranked.
Proof.
  intros ranked. unfold ranked.
  set (hd := hourlyDistribution (tallied tasks)).
  set (cells := imap (fun hour count => {| hour := hour; count := count |}) hd).
  assert (Hcell : forall cell, cell ∈ cells <->
            (hour cell < 24)%nat /\
            count cell = startingIn localOffset (hour cell) tasks).
  { intros cell. unfold cells. split.
    - intros Hin. apply list_elem_of_lookup in Hin as [i Hi].
      rewrite list_lookup_imap in Hi.
      destruct (hd !! i) as [c | ] eqn:Hc; [ | discriminate ].
      simpl in Hi. injection Hi as <-. simpl.
      assert (Hi : (i < 24)%nat).
      { apply lookup_lt_Some in Hc. unfold hd in Hc. by rewrite tallied_length in Hc. }
      split; [ exact Hi | ].
      unfold hd in Hc. rewrite (tallied_hours tasks i Hi) in Hc. by injection Hc.
    - intros [Hh Hc]. apply list_elem_of_lookup. exists (hour cell).
      rewrite list_lookup_imap. unfold hd. rewrite (tallied_hours tasks _ Hh). simpl.
      f_equal. destruct cell as [h c]. simpl in *. by rewrite Hc. }
  assert (Hhours : map hour cells = seq 0 24).
  { unfold cells. rewrite <- (tallied_length tasks). fold hd.
    assert (H : forall (l : list Z) n,
              map hour (imap (fun i c => {| hour := n + i; count := c |}) l)
              = seq n (length l)).
    { induction l as [ | c l IH ]; intros n; [ reflexivity | ].
      simpl. rewrite Nat.add_0_r. f_equal.
      rewrite <- (IH (S n)). f_equal. apply imap_ext. intros i x _. simpl. f_equal. lia. }
    exact (H hd 0%nat). }
  split; [ | split ].
  - intros cell. rewrite sort_Permutation.
    rewrite list_elem_of_In, filter_In, <- list_elem_of_In, Hcell, Z.ltb_lt. tauto.
  - rewrite (Permutation_map hour (sort_Permutation _ _)).
    eapply sublist_NoDup; [ | apply (fmap_sublist hour), sublist_filter ].
    change (NoDup (map hour cells)). rewrite Hhours. apply NoDup_seq.
  - apply (sort_descending _ _ byCount_key).
Qed.

Lemma startingIn_nonneg h tasks : 0 <= startingIn localOffset h tasks.
Proof. unfold startingIn. lia. Qed.

(** X28: the count of an hour of the day is the number of counted tasks
    whose due date falls in it, in local time. The productive hours are at
    most three, all different, each the label of an hour in which a
    counted task starts; no hour that is left out has more such tasks than
    an hour that is listed, and no hour in which a counted task starts is
    left out when fewer than three are listed. *)
Theorem analyzeTimeUsage_productive_hours (completedTasks : list Due) :
  let report := analyzeTimeUsage localOffset completedTasks in
  let starting h := startingIn localOffset h completedTasks in
  let listed h := hourLabel h ∈ productiveHours (usage report) in
  (forall h, (h < 24)%nat -> hours report !! h = Some (starting h)) /\
  (length (productiveHours (usage report)) <= 3)%nat /\
  NoDup (productiveHours (usage report)) /\
  Forall (fun label => exists h, (h < 24)%nat /\ label = hourLabel h /\ 0 < starting h)
    (productiveHours (usage report)) /\
  (forall h h', (h < 24)%nat -> (h' < 24)%nat ->
     listed h -> ~ listed h' -> starting h' <= starting h) /\
  (forall h, (h < 24)%nat -> 0 < starting h ->
     (length (productiveHours (usage report)) < 3)%nat -> listed h).
Proof.
  intros report starting listed. unfold listed, report, analyzeTimeUsage, JsArray.slice0.
  cbn [usage productiveHours hours].
  destruct (ranked_hours completedTasks) as (Hin & Hnodup & Hsorted).
  set (ranked := JsArray.sort byCount _) in *.
  assert (Htop : forall cell, cell ∈ take 3 ranked -> cell ∈ ranked).
  { intros cell Hcell. apply elem_of_take in Hcell as (i & Hi & _).
    by eapply list_elem_of_lookup_2. }
  assert (Hlabel : forall h, (h < 24)%nat ->
            hourLabel h ∈ map (fun cell => hourLabel (hour cell)) (take 3 ranked) ->
            exists i, (i < 3)%nat /\
                      ranked !! i = Some {| hour := h; count := starting h |}).
  { intros h Hh Hlisted.
    apply list_elem_of_fmap in Hlisted as (cell & Heq & Hcell).
    apply elem_of_take in Hcell as (i & Hi & Hlt).
    pose proof (list_elem_of_lookup_2 _ _ _ Hi) as Hranked.
    apply Hin in Hranked as (Hcell24 & Hcount & _).
    apply hourLabel_inj in Heq; [ | done | done ]. subst h.
    exists i. split; [ exact Hlt | ]. rewrite Hi. f_equal.
    destruct cell as [h c]. simpl in *. by rewrite Hcount. }
  split; [ | split; [ | split; [ | split; [ | split ] ] ] ].
  - intros h Hh. by apply tallied_hours.
  - rewrite length_map, length_take. lia.
  - rewrite <- (map_map hour hourLabel).
    apply (NoDup_fmap_2_strong hourLabel).
    + intros h1 h2 Hh1 Hh2.
      apply list_elem_of_fmap in Hh1 as (x1 & -> & Hx1).
      apply list_elem_of_fmap in Hh2 as (x2 & -> & Hx2).
      apply hourLabel_inj; [ by apply Hin, Htop | by apply Hin, Htop ].
    + change (map hour ?l) with (hour <$> l). rewrite fmap_take.
      eapply sublist_NoDup; [ exact Hnodup | apply sublist_take ].
  - apply Forall_forall. intros label Hlabel'.
    apply list_elem_of_fmap in Hlabel' as (cell & -> & Hcell).
    apply Htop, Hin in Hcell as (Hh & Hcount & Hpos).
    exists (hour cell). repeat split; [ done | ]. unfold starting. by rewrite <- Hcount.
  - intros h h' Hh Hh' Hlisted Hnot.
    destruct (Hlabel h Hh Hlisted) as (i & Hi & Hcell).
    pose proof (list_elem_of_lookup_2 _ _ _ Hcell) as Hranked.
    apply Hin in Hranked as (_ & _ & Hpos). simpl in Hpos.
    destruct (Z.le_gt_cases (starting h') 0) as [ | Hpos' ]; [ lia | ].
    assert (Hranked' : {| hour := h'; count := starting h' |} ∈ ranked)
      by (apply Hin; simpl; repeat split; [ done | lia ]).
    apply list_elem_of_lookup in Hranked' as [j Hj].
    destruct (decide (j < 3)%nat) as [Hlt | Hge].
    { exfalso. apply Hnot. apply list_elem_of_fmap.
      exists {| hour := h'; count := starting h' |}. split; [ reflexivity | ].
      apply list_elem_of_lookup. exists j. by rewrite lookup_take_lt. }
    pose proof (StronglySorted_lookup _ _ i j _ _ Hsorted Hcell Hj ltac:(lia)) as Hle.
    simpl in Hle. by rewrite <- Zle_Qle in Hle.
  - intros h Hh Hpos Hfew. rewrite length_map, length_take in Hfew.
    assert (Hall : take 3 ranked = ranked) by (apply take_ge; lia).
    rewrite Hall. apply list_elem_of_fmap.
    exists {| hour := h; count := starting h |}. split; [ reflexivity | ].
    apply Hin. simpl. repeat split; [ done | lia ].
Qed.

Lemma sum_bounds (ds : list Z) (lo hi : Z) : forall acc,
  Forall (fun d => lo <= d <= hi) ds ->
  acc + lo * Z.of_nat (length ds) <= fold_left Z.add ds acc
    <= acc + hi * Z.of_nat (length ds).
Proof.
  induction ds as [ | d ds IH ]; intros acc Hds; [ simpl; lia | ].
  inversion Hds as [ | ? ? Hd Hds' ]; subst.
  specialize (IH (acc + d) Hds').
  cbn [fold_left length]. rewrite Nat2Z.inj_succ. nia.
Qed.

Lemma fold_left_add (ds : list Z) : forall acc,
  fold_left Z.add ds acc = acc + countsTotal ds.
Proof.
  unfold countsTotal.
  induction ds as [ | d ds IH ]; intros acc; simpl; [ lia | ]. rewrite IH. lia.
Qed.

(** X29: the tasks that count are the tasks that have a due date and an
    end, the end more than 0 and less than 480 minutes after the due date.
    The number of tasks of the report is their number and the minutes
    worked are the sum of their durations. With no such task the average
    duration is 0; otherwise it lies between the shortest and the longest
    of these durations, and so between 1 and 479 minutes. *)
Theorem analyzeTimeUsage_average_duration (completedTasks : list Due) :
  let report := analyzeTimeUsage localOffset completedTasks in
  let counted := omap countedDuration completedTasks in
  taskCount report = length counted /\
  totalMinutesWorked report = countsTotal counted /\
  Forall (fun duration => 1 <= duration <= 479) counted /\
  Z.of_nat (taskCount report) <= totalMinutesWorked report
    <= 479 * Z.of_nat (taskCount report) /\
  (counted = [] -> averageDuration (usage report) = 0%Q) /\
  (counted <> [] ->
   (forall lo hi, Forall (fun duration => lo <= duration <= hi) counted ->
      (inject_Z lo <= averageDuration (usage report) <= inject_Z hi)%Q) /\
   (1 <= averageDuration (usage report) <= 479)%Q).
Proof.
  intros report counted. unfold report, analyzeTimeUsage.
  cbn [usage averageDuration taskCount totalMinutesWorked].
  rewrite tallied_durations. fold counted.
  assert (Hrange : Forall (fun duration => 1 <= duration <= 479) counted).
  { apply Forall_forall. intros duration Hin.
    apply list_elem_of_omap in Hin as (task & _ & Hcounted).
    by eapply countedDuration_range. }
  assert (Hbounds : forall lo hi,
            Forall (fun duration => lo <= duration <= hi) counted ->
            (0 < length counted)%nat ->
            (inject_Z lo <=
             inject_Z (fold_left Z.add counted 0%Z) / inject_Z (Z.of_nat (length counted))
             <= inject_Z hi)%Q).
  { intros lo hi Hall Hpos.
    pose proof (sum_bounds counted lo hi 0 Hall) as Hsum.
    assert (Hden : (0 < inject_Z (Z.of_nat (length counted)))%Q).
    { change 0%Q with (inject_Z 0). rewrite <- Zlt_Qlt. lia. }
    split.
    - apply Qle_shift_div_l; [ exact Hden | ].
      rewrite <- inject_Z_mult, <- Zle_Qle. lia.
    - apply Qle_shift_div_r; [ exact Hden | ].
      rewrite <- inject_Z_mult, <- Zle_Qle. lia. }
  pose proof (sum_bounds counted 1 479 0 Hrange) as Hsum.
  rewrite fold_left_add in Hsum. rewrite Z.add_0_l in Hsum.
  split; [ reflexivity | ]. split; [ by rewrite fold_left_add | ].
  split; [ exact Hrange | ]. split; [ rewrite fold_left_add; lia | ]. split.
  - intros ->. reflexivity.
  - intros Hne. assert (Hpos : (0 < length counted)%nat).
    { destruct counted; [ done | simpl; lia ]. }
    destruct (Nat.ltb_spec 0 (length counted)); [ | lia ].
    split; [ intros lo hi Hall; by apply Hbounds | ].
    exact (Hbounds 1 479 Hrange Hpos).
Qed.

Lemma countsTotal_alter (counts : list Z) : forall i,
  (i < length counts)%nat ->
  countsTotal (alter (fun c => c + 1) i counts) = countsTotal counts + 1.
Proof.
  induction counts as [ | c counts IH ]; intros i Hi; simpl in Hi; [ lia | ].
  destruct i as [ | i ].
  - unfold countsTotal. simpl. lia.
  - specialize (IH i ltac:(lia)). unfold countsTotal in *.
    change (alter (fun c => c + 1) (S i) (c :: counts))
      with (c :: alter (fun c => c + 1) i counts).
    simpl. rewrite IH. lia.
Qed.

Lemma countsTotal_replicate n : countsTotal (replicate n 0) = 0.
Proof. induction n as [ | n IH ]; [ reflexivity | exact IH ]. Qed.

(** X30: every counted task is counted in exactly one hour of the day: the
    24 hourly counts are never negative and add up to the number of counted
    tasks, whatever the offset of local time. *)
Theorem analyzeTimeUsage_hours_add_up (completedTasks : list Due) :
  let report := analyzeTimeUsage localOffset completedTasks in
  length (hours report) = 24%nat /\
  Forall (fun c => 0 <= c) (hours report) /\
  countsTotal (hours report) = Z.of_nat (taskCount report).
Proof.
  intros report. unfold report, analyzeTimeUsage. cbn [hours taskCount].
  assert (H : forall ts acc,
            length (hourlyDistribution acc) = 24%nat ->
            Forall (fun c => 0 <= c) (hourlyDistribution acc) ->
            countsTotal (hourlyDistribution acc) = Z.of_nat (length (durations acc)) ->
            let out := fold_left (tallyTask localOffset) ts acc in
            length (hourlyDistribution out) = 24%nat /\
            Forall (fun c => 0 <= c) (hourlyDistribution out) /\
            countsTotal (hourlyDistribution out) = Z.of_nat (length (durations out))).
  { induction ts as [ | task ts IH ]; intros acc Hlen Hpos Htotal; simpl; [ done | ].
    apply IH; unfold tallyTask;
      destruct (due task) as [start | ]; try done;
      destruct (dueEnd task) as [finish | ]; try done;
      destruct ((0 <? differenceInMinutes finish start)
                && (differenceInMinutes finish start <? 480)); try done;
      cbn [durations hourlyDistribution].
    - by rewrite length_alter.
    - apply Forall_alter; [ exact Hpos | ]. intros c _ Hc. simpl in Hc. lia.
    - rewrite countsTotal_alter by (rewrite Hlen; apply getHours_lt).
      rewrite Htotal, length_app. simpl. lia. }
  apply H; cbn [durations hourlyDistribution].
  - apply length_replicate.
  - apply Forall_replicate. lia.
  - apply countsTotal_replicate.
Qed.

End TimeUsageProperties.
